(** * financeCalculators: the quantitative engine, embedded and verified

    The calculators of [calculators/tax.py], [calculators/mortgage.py] and
    [calculators/debt.py], with the rate tables of [config.py], as Rocq
    functions.

    Number model.  The Python code computes on binary64 floats.  Here a
    Python number is an exact rational in lowest terms ([Qc]): every
    arithmetic operation is the real one, and the only rounding left is the
    explicit [round(x, n)] of the source, modelled as round-half-to-even
    on the decimal digits.  [float('inf')], used as the last upper bound of
    every bracket table, is the constructor [Inf] of [bound].  Exceptions
    that Python raises (a division by zero, an index out of range, a
    missing key) are values of [pyerr], threaded by a small error monad. *)

From Stdlib Require Import QArith Qcanon Qround Qabs Lqa Lia ZArith List Ascii String
  DecimalString.
From stdpp Require Import gmap strings.

Local Open Scope Q_scope.
Local Open Scope Qc_scope.

(** Decimal literals are read as fractions and normalised. *)
#[warnings="-ambiguous-paths"]
Coercion Q2Qc : Q >-> Qc.

(* ================================================================== *)
(** ** Python numbers *)

Module PyNum.

(** [x <= y], [x < y], [x == y] on numbers, as booleans. *)
Definition leb (x y : Qc) : bool := bool_decide (x <= y).
Definition ltb (x y : Qc) : bool := bool_decide (x < y).
Definition eqb (x y : Qc) : bool := bool_decide (x = y).

(** Python's [max(a, b)] returns [b] only when [b > a]; [min(a, b)]
    returns [b] only when [b < a]. *)
Definition max (a b : Qc) : Qc := if ltb a b then b else a.
Definition min (a b : Qc) : Qc := if ltb b a then b else a.

(** Nearest integer, ties to the even one. *)
Definition round_half_even (x : Qc) : Z :=
  let f := Qfloor x in
  match Qccompare (x - Qc_of_Z f) (1 # 2)%Q with
  | Lt => f
  | Gt => (f + 1)%Z
  | Eq => if Z.even f then f else (f + 1)%Z
  end.

(** [round(x, 1)] and [round(x, 2)]. *)
Definition round1 (x : Qc) : Qc := Qc_of_Z (round_half_even (x * 10)) / 10.
Definition round2 (x : Qc) : Qc := Qc_of_Z (round_half_even (x * 100)) / 100.

(** [sum(...)] over a list of numbers. *)
Definition sum (l : list Qc) : Qc := fold_left Qcplus l 0.

End PyNum.

(* ================================================================== *)
(** ** Python exceptions *)

(** The exceptions the modelled code can raise, and [InvalidInput], the
    error the specification names for rejected loan terms. *)
Inductive pyerr : Type :=
| ZeroDivisionError
| IndexError
| KeyError (key : string)
| ValueError
| InvalidInput.

Inductive result (A : Type) : Type :=
| Ok (a : A)
| Raise (e : pyerr).
Arguments Ok {A} a.
Arguments Raise {A} e.

#[global] Instance result_ret : MRet result := fun A a => Ok a.

#[global] Instance result_bind : MBind result := fun A B k m =>
  match m with
  | Ok a => k a
  | Raise e => Raise e
  end.

(** [a / b] on floats raises on a zero divisor. *)
Definition pydiv (a b : Qc) : result Qc :=
  if PyNum.eqb b 0 then Raise ZeroDivisionError else Ok (a / b).

(** [b ** e] for an integer exponent: zero to a negative power raises. *)
Definition pypow (b : Qc) (e : Z) : result Qc :=
  if (e <? 0)%Z then
    if PyNum.eqb b 0 then Raise ZeroDivisionError
    else Ok (/ b ^ Z.to_nat (- e))
  else Ok (b ^ Z.to_nat e).

(* ================================================================== *)
(** ** Upper bounds of bracket tables *)

Inductive bound : Type :=
| Fin (u : Qc)
| Inf.

(** [x <= u] for a finite [x]. *)
Definition le_bound (x : Qc) (u : bound) : bool :=
  match u with
  | Fin q => PyNum.leb x q
  | Inf => true
  end.

(** [min(x, u)] for a finite [x]: always finite. *)
Definition min_bound (x : Qc) (u : bound) : Qc :=
  match u with
  | Fin q => PyNum.min x q
  | Inf => x
  end.

(** [u < v] on bounds, the order of a bracket table. *)
Definition bound_lt (u v : bound) : Prop :=
  match u, v with
  | Fin a, Fin b => a < b
  | Fin _, Inf => True
  | Inf, _ => False
  end.

Definition brackets := list (bound * Qc).

(** One [(upper, rate)] entry of a table. *)
Definition band (upper : bound) (rate : Qc) : bound * Qc := (upper, rate).

(* ================================================================== *)
(** ** config.py *)

Module Config.

Definition US_STANDARD_DEDUCTION : gmap string Qc :=
  <["single" := (15000 : Qc)]> (<["mfj" := (30000 : Qc)]> (<["hoh" := (22500 : Qc)]> ∅)).

Definition US_TAX_BRACKETS : gmap string brackets :=
  <["single" :=
     [ band (Fin 11925) 0.10; band (Fin 48475) 0.12; band (Fin 103350) 0.22;
       band (Fin 197300) 0.24; band (Fin 250525) 0.32; band (Fin 626350) 0.35;
       band Inf 0.37 ]]>
  (<["mfj" :=
     [ band (Fin 23850) 0.10; band (Fin 96950) 0.12; band (Fin 206700) 0.22;
       band (Fin 394600) 0.24; band (Fin 501050) 0.32; band (Fin 751600) 0.35;
       band Inf 0.37 ]]>
  (<["hoh" :=
     [ band (Fin 17000) 0.10; band (Fin 64850) 0.12; band (Fin 103350) 0.22;
       band (Fin 197300) 0.24; band (Fin 250500) 0.32; band (Fin 626350) 0.35;
       band Inf 0.37 ]]> ∅)).

(** [US_FICA], a dict with fixed keys. *)
Record fica := {
  ss_rate : Qc;
  ss_wage_base : Qc;
  medicare_rate : Qc;
  additional_medicare_rate : Qc;
  additional_medicare_threshold_single : Qc;
  additional_medicare_threshold_mfj : Qc
}.

Definition US_FICA : fica := {|
  ss_rate := 0.062;
  ss_wage_base := 176100;
  medicare_rate := 0.0145;
  additional_medicare_rate := 0.009;
  additional_medicare_threshold_single := 200000;
  additional_medicare_threshold_mfj := 250000
|}.

Definition US_STATE_TAX : gmap string Qc :=
  <["CA" := (0.093 : Qc)]> (<["NY" := (0.0685 : Qc)]> (<["NJ" := (0.0637 : Qc)]>
  (<["MA" := (0.05 : Qc)]> (<["IL" := (0.0495 : Qc)]> (<["TX" := (0.0 : Qc)]>
  (<["FL" := (0.0 : Qc)]> (<["WA" := (0.0 : Qc)]> (<["NV" := (0.0 : Qc)]>
  (<["AK" := (0.0 : Qc)]> (<["other" := (0.05 : Qc)]> ∅)))))))))).

Definition UK_PERSONAL_ALLOWANCE : Qc := 12570.
Definition UK_PA_TAPER_START : Qc := 100000.
Definition UK_PA_TAPER_END : Qc := 125140.

Definition UK_TAX_BRACKETS : brackets :=
  [ band (Fin 50270) 0.20; band (Fin 125140) 0.40; band Inf 0.45 ].

Record ni_employee := {
  lower_earnings_limit : Qc;
  upper_earnings_limit : Qc;
  rate_main : Qc;
  rate_upper : Qc
}.

Definition UK_NI_EMPLOYEE : ni_employee := {|
  lower_earnings_limit := 6396;
  upper_earnings_limit := 50270;
  rate_main := 0.08;
  rate_upper := 0.02
|}.

Record india_regime := {
  standard_deduction : Qc;
  regime_brackets : brackets;
  rebate_87a_limit : Qc;
  cess_rate : Qc
}.

Definition INDIA_NEW_REGIME : india_regime := {|
  standard_deduction := 75000;
  regime_brackets :=
    [ band (Fin 400000) 0.0; band (Fin 800000) 0.05; band (Fin 1200000) 0.10;
      band (Fin 1600000) 0.15; band (Fin 2000000) 0.20; band (Fin 2400000) 0.25;
      band Inf 0.30 ];
  rebate_87a_limit := 1200000;
  cess_rate := 0.04
|}.

Definition INDIA_OLD_REGIME : india_regime := {|
  standard_deduction := 50000;
  regime_brackets :=
    [ band (Fin 250000) 0.0; band (Fin 500000) 0.05; band (Fin 1000000) 0.20;
      band Inf 0.30 ];
  rebate_87a_limit := 500000;
  cess_rate := 0.04
|}.

Definition INDIA_SURCHARGE : brackets :=
  [ band (Fin 5000000) 0.0; band (Fin 10000000) 0.10; band (Fin 20000000) 0.15;
    band (Fin 50000000) 0.25; band Inf 0.25 ].

Definition US_CC_AVG_APR : Qc := 21.5.

Record ni_self_employed := {
  class2_annual : Qc;
  class4_lower : Qc;
  class4_upper : Qc;
  class4_rate_main : Qc;
  class4_rate_upper : Qc
}.

Definition UK_NI_SELF_EMPLOYED : ni_self_employed := {|
  class2_annual := 179;
  class4_lower := 12570;
  class4_upper := 50270;
  class4_rate_main := 0.06;
  class4_rate_upper := 0.02
|}.

Definition US_LTCG_BRACKETS : gmap string brackets :=
  <["single" := [ band (Fin 48350) 0.0; band (Fin 533400) 0.15; band Inf 0.20 ]]>
  (<["mfj" := [ band (Fin 96700) 0.0; band (Fin 600050) 0.15; band Inf 0.20 ]]> ∅).

Definition US_NIIT_RATE : Qc := 0.038.

Definition US_NIIT_THRESHOLD : gmap string Qc :=
  <["single" := (200000 : Qc)]> (<["mfj" := (250000 : Qc)]> ∅).

Definition US_LTCG_HOLDING_MONTHS : Qc := 12.

Record uk_cgt := {
  annual_exempt : Qc;
  basic_rate : Qc;
  higher_rate : Qc;
  higher_rate_threshold : Qc
}.

Definition UK_CGT : uk_cgt := {|
  annual_exempt := 3000;
  basic_rate := 0.18;
  higher_rate := 0.24;
  higher_rate_threshold := 50270
|}.

Record india_cgt := {
  equity_ltcg_rate : Qc;
  equity_ltcg_exemption : Qc;
  equity_stcg_rate : Qc;
  property_ltcg_rate : Qc;
  other_ltcg_rate : Qc;
  equity_holding_months : Qc;
  property_holding_months : Qc
}.

Definition INDIA_CGT : india_cgt := {|
  equity_ltcg_rate := 0.125;
  equity_ltcg_exemption := 125000;
  equity_stcg_rate := 0.20;
  property_ltcg_rate := 0.20;
  other_ltcg_rate := 0.20;
  equity_holding_months := 12;
  property_holding_months := 24
|}.

(** [(min_score, max_score, apr_low, apr_high)]. *)
Definition PERSONAL_LOAN_APR_MAP : list (Z * Z * Qc * Qc) :=
  [ (750, 850, Q2Qc 7.5, Q2Qc 12.0); (720, 749, Q2Qc 12.0, Q2Qc 17.0);
    (680, 719, Q2Qc 17.0, Q2Qc 21.0); (640, 679, Q2Qc 21.0, Q2Qc 28.0);
    (580, 639, Q2Qc 28.0, Q2Qc 36.0); (300, 579, Q2Qc 36.0, Q2Qc 36.0) ]%Z.

Definition CREDIT_SCORE_TIERS : list (Z * string) :=
  [ (750, "Excellent"); (720, "Very Good"); (680, "Good"); (640, "Fair");
    (580, "Poor"); (0, "Very Poor") ]%Z.

End Config.

(* ================================================================== *)
(** ** The JSON request and the HTTP response *)

(** A request field read through [float(...)]: missing, a number, or a
    value [float] rejects. *)
Inductive num_field : Type :=
| Absent
| Number (q : Qc)
| NotNumeric.

(** [float(data[key])]: a missing key raises [KeyError], a bad value
    [ValueError] (or [TypeError], not told apart here). *)
Definition float_required (key : string) (f : num_field) : result Qc :=
  match f with
  | Number q => Ok q
  | Absent => Raise (KeyError key)
  | NotNumeric => Raise ValueError
  end.

(** [float(data.get(key, dflt))]. *)
Definition float_default (dflt : Qc) (f : num_field) : result Qc :=
  match f with
  | Number q => Ok q
  | Absent => Ok dflt
  | NotNumeric => Raise ValueError
  end.

(** [int(x)] truncates towards zero; [int(data.get(key, dflt))]. *)
Definition py_int (q : Qc) : Z := Z.quot (Qnum q) (Zpos (Qden q)).

Definition int_default (dflt : Z) (f : num_field) : result Z :=
  match f with
  | Number q => Ok (py_int q)
  | Absent => Ok dflt
  | NotNumeric => Raise ValueError
  end.

(** What a handler answers: [{"ok": True, "data": ...}], a 422 with
    [{"ok": False, "error": ...}] whose text is [str(exc)] of the caught
    exception or a fixed message, or an exception nothing catches. *)
Inductive error_body : Type :=
| ExceptionText (exc : pyerr)
| Message (text : string).

Inductive response (A : Type) : Type :=
| Json200 (data : A)
| Json422 (error : error_body)
| Uncaught (e : pyerr).
Arguments Json200 {A} data.
Arguments Json422 {A} error.
Arguments Uncaught {A} e.

(** [str.upper()] and [str.lower()], on ASCII letters. *)
Definition ascii_upper (c : ascii) : ascii :=
  let n := nat_of_ascii c in
  if (97 <=? n)%nat && (n <=? 122)%nat then ascii_of_nat (n - 32) else c.

Definition ascii_lower (c : ascii) : ascii :=
  let n := nat_of_ascii c in
  if (65 <=? n)%nat && (n <=? 90)%nat then ascii_of_nat (n + 32) else c.

Fixpoint upper (s : string) : string :=
  match s with
  | EmptyString => EmptyString
  | String c r => String (ascii_upper c) (upper r)
  end.

Fixpoint lower (s : string) : string :=
  match s with
  | EmptyString => EmptyString
  | String c r => String (ascii_lower c) (lower r)
  end.

(* ================================================================== *)
(** ** calculators/tax.py *)

Module Tax.

Import Config.

(** One entry of the [applied] list.  The ["bracket"] text is built from
    a currency sign and the two ends of the band, which is what is kept
    of it here. *)
Record bracket_label := {
  currency : string;
  band_from : bound;
  band_to : bound
}.

Record applied_row := {
  bracket : bracket_label;
  rate : Qc;
  tax : Qc
}.

(** The [for upper, rate in brackets] loop of [_apply_brackets] and
    [_india_apply_brackets], which differ in the currency sign only.
    [taxable_income <= prev_upper] holds at once when [prev_upper] is
    infinite. *)
Fixpoint apply_loop (sign : string) (taxable_income : Qc) (bs : brackets)
    (tax : Qc) (prev_upper : bound) (applied : list applied_row)
  : Qc * list applied_row :=
  match bs with
  | [] => (tax, applied)
  | (upper, rate) :: rest =>
    match prev_upper with
    | Inf => (tax, applied)
    | Fin prev =>
      if PyNum.leb taxable_income prev then (tax, applied)
      else
        let taxable_in_band := min_bound taxable_income upper - prev in
        let band_tax := taxable_in_band * rate in
        let tax := tax + band_tax in
        let applied := applied ++
          [ {| bracket := {| currency := sign; band_from := prev_upper;
                             band_to := upper |};
               rate := PyNum.round1 (rate * 100);
               tax := PyNum.round2 band_tax |} ] in
        if le_bound taxable_income upper then (tax, applied)
        else apply_loop sign taxable_income rest tax upper applied
    end
  end.

Definition _apply_brackets (taxable_income : Qc) (bs : brackets)
  : Qc * list applied_row :=
  let '(tax, applied) := apply_loop "$" taxable_income bs 0 (Fin 0) [] in
  (PyNum.round2 tax, applied).

Definition _india_apply_brackets (taxable_income : Qc) (bs : brackets)
  : Qc * list applied_row :=
  let '(tax, applied) := apply_loop "₹" taxable_income bs 0 (Fin 0) [] in
  (PyNum.round2 tax, applied).

Fixpoint surcharge_loop (base_tax income : Qc) (slabs : brackets) : Qc :=
  match slabs with
  | [] => 0
  | (upper, rate) :: rest =>
    if le_bound income upper then PyNum.round2 (base_tax * rate)
    else surcharge_loop base_tax income rest
  end.

Definition _india_surcharge (base_tax income : Qc) : Qc :=
  surcharge_loop base_tax income INDIA_SURCHARGE.

(** The marginal-rate loop the three take-home functions end with:
    [marg_rate = 0], then the rate of the first bracket with
    [taxable <= upper]. *)
Fixpoint marg_rate_loop (taxable : Qc) (bs : brackets) : Qc :=
  match bs with
  | [] => 0
  | (upper, rate) :: rest =>
    if le_bound taxable upper then rate * 100
    else marg_rate_loop taxable rest
  end.

(** The dict a take-home function returns; [take_home_per_period] is the
    key the handler adds afterwards. *)
Record take_home := {
  gross_annual : Qc;
  total_tax : Qc;
  effective_rate : Qc;
  marginal_rate : Qc;
  take_home_annual : Qc;
  breakdown : gmap string Qc;
  tax_brackets_applied : list applied_row;
  take_home_per_period : option Qc
}.

(** [d[key]] on a dict. *)
Definition getitem {V : Type} (d : gmap string V) (key : string) : result V :=
  match d !! key with
  | Some v => Ok v
  | None => Raise (KeyError key)
  end.

Definition _us_take_home (gross : Qc) (filing state : string) : result take_home :=
  let filing := if decide (is_Some (US_TAX_BRACKETS !! filing)) then filing
                else "single" in
  let std_ded := default (15000 : Qc) (US_STANDARD_DEDUCTION !! filing) in
  let taxable := PyNum.max (gross - std_ded) 0 in
  table ← getitem US_TAX_BRACKETS filing;
  let '(fed_tax, brackets_applied) := _apply_brackets taxable table in
  let ss_tax := PyNum.min gross (ss_wage_base US_FICA) * ss_rate US_FICA in
  let med_tax := gross * medicare_rate US_FICA in
  let add_med :=
    PyNum.max (gross - additional_medicare_threshold_single US_FICA) 0
    * additional_medicare_rate US_FICA in
  other ← getitem US_STATE_TAX "other";
  let state_rate := default other (US_STATE_TAX !! state) in
  let state_tax := gross * state_rate in
  let total_tax := fed_tax + ss_tax + med_tax + add_med + state_tax in
  let take_home := gross - total_tax in
  let eff_rate := if PyNum.ltb 0 gross then total_tax / gross * 100 else 0 in
  table' ← getitem US_TAX_BRACKETS filing;
  let marg_rate := marg_rate_loop taxable table' in
  Ok {| gross_annual := PyNum.round2 gross;
        total_tax := PyNum.round2 total_tax;
        effective_rate := PyNum.round2 eff_rate;
        marginal_rate := PyNum.round1 marg_rate;
        take_home_annual := PyNum.round2 take_home;
        breakdown :=
          <["federal_tax" := PyNum.round2 fed_tax]>
          (<["state_tax" := PyNum.round2 state_tax]>
          (<["social_security" := PyNum.round2 ss_tax]>
          (<["medicare" := PyNum.round2 (med_tax + add_med)]> ∅)));
        tax_brackets_applied := brackets_applied;
        take_home_per_period := None |}.

Definition _uk_take_home (gross : Qc) : take_home :=
  let pa := UK_PERSONAL_ALLOWANCE in
  let pa := if PyNum.ltb UK_PA_TAPER_START gross
            then PyNum.max (pa - (gross - UK_PA_TAPER_START) / 2) 0
            else pa in
  let taxable := PyNum.max (gross - pa) 0 in
  let '(income_tax, brackets_applied) := _apply_brackets taxable UK_TAX_BRACKETS in
  let lower := lower_earnings_limit UK_NI_EMPLOYEE in
  let upper := upper_earnings_limit UK_NI_EMPLOYEE in
  let ni :=
    if PyNum.ltb lower gross then
      let ni := 0 + PyNum.min gross upper * rate_main UK_NI_EMPLOYEE in
      let ni := if PyNum.ltb upper gross
                then ni + (gross - upper) * rate_upper UK_NI_EMPLOYEE
                else ni in
      ni - lower * rate_main UK_NI_EMPLOYEE
    else 0 in
  let total_tax := income_tax + ni in
  let take_home := gross - total_tax in
  let eff_rate := if PyNum.ltb 0 gross then total_tax / gross * 100 else 0 in
  let marg_rate := marg_rate_loop taxable UK_TAX_BRACKETS in
  {| gross_annual := PyNum.round2 gross;
     total_tax := PyNum.round2 total_tax;
     effective_rate := PyNum.round2 eff_rate;
     marginal_rate := PyNum.round1 marg_rate;
     take_home_annual := PyNum.round2 take_home;
     breakdown :=
       <["income_tax" := PyNum.round2 income_tax]>
       (<["national_insurance" := PyNum.round2 ni]> ∅);
     tax_brackets_applied := brackets_applied;
     take_home_per_period := None |}.

Definition _india_take_home (gross : Qc) (regime : string) : take_home :=
  let cfg := if decide (regime = "new") then INDIA_NEW_REGIME
             else INDIA_OLD_REGIME in
  let std_ded := standard_deduction cfg in
  let taxable := PyNum.max (gross - std_ded) 0 in
  let '(base_tax, brackets_applied) :=
    _india_apply_brackets taxable (regime_brackets cfg) in
  let base_tax := if PyNum.leb taxable (rebate_87a_limit cfg) then 0
                  else base_tax in
  let surcharge := _india_surcharge base_tax gross in
  let cess := (base_tax + surcharge) * cess_rate cfg in
  let total_tax := base_tax + surcharge + cess in
  let take_home := gross - total_tax in
  let eff_rate := if PyNum.ltb 0 gross then total_tax / gross * 100 else 0 in
  let marg_rate := marg_rate_loop taxable (regime_brackets cfg) in
  {| gross_annual := PyNum.round2 gross;
     total_tax := PyNum.round2 total_tax;
     effective_rate := PyNum.round2 eff_rate;
     marginal_rate := PyNum.round1 marg_rate;
     take_home_annual := PyNum.round2 take_home;
     breakdown :=
       <["income_tax" := PyNum.round2 base_tax]>
       (<["surcharge" := PyNum.round2 surcharge]>
       (<["cess" := PyNum.round2 cess]> ∅));
     tax_brackets_applied := brackets_applied;
     take_home_per_period := None |}.

(** The JSON body of [/api/tax/take-home-pay]; a text field is either
    missing or a string. *)
Record take_home_request := {
  gross_income : num_field;
  country : option string;
  filing_status : option string;
  state : option string;
  pay_frequency : option string;
  regime : option string
}.

Definition freq_divisor_table : gmap string Qc :=
  <["annual" := (1 : Qc)]> (<["monthly" := (12 : Qc)]>
  (<["biweekly" := (26 : Qc)]> ∅)).

Definition with_per_period (divisor : Qc) (r : take_home) : take_home :=
  {| gross_annual := gross_annual r;
     total_tax := total_tax r;
     effective_rate := effective_rate r;
     marginal_rate := marginal_rate r;
     take_home_annual := take_home_annual r;
     breakdown := breakdown r;
     tax_brackets_applied := tax_brackets_applied r;
     take_home_per_period :=
       Some (PyNum.round2 (take_home_annual r / divisor)) |}.

Definition api_take_home_pay (data : take_home_request) : response take_home :=
  match float_required "gross_income" (gross_income data) with
  | Raise exc => Json422 (ExceptionText exc)
  | Ok gross =>
    let country := upper (default "US" (country data)) in
    let filing := lower (default "single" (filing_status data)) in
    let state := default "other" (state data) in
    let pay_freq := default "annual" (pay_frequency data) in
    let regime := default "new" (regime data) in
    let freq_divisor := default 1 (freq_divisor_table !! pay_freq) in
    let answer (r : take_home) := Json200 (with_per_period freq_divisor r) in
    if decide (country = "US") then
      match _us_take_home gross filing state with
      | Ok r => answer r
      | Raise e => Uncaught e
      end
    else if decide (country = "UK") then answer (_uk_take_home gross)
    else if decide (country = "IN") then answer (_india_take_home gross regime)
    else Json422 (Message "Country must be US, UK, or IN")
  end.

(** *** Freelance tax *)

Record advance_row := {
  due : string;
  pct : Z;
  amount : Qc
}.

(** The dict a freelance function returns: its numbers by key, the due
    dates, and the two keys only the Indian one has. *)
Record freelance := {
  amounts : gmap string Qc;
  quarterly_due_dates : list string;
  india_advance_tax_schedule : option (list advance_row);
  presumptive_scheme_used : option bool
}.

Definition _us_freelance (gross expenses : Qc) (filing state : string)
  : result freelance :=
  let net_profit := gross - expenses in
  let se_base := net_profit * 0.9235 in
  let se_tax := se_base * 0.153 in
  let se_deduct := se_tax / 2 in
  let taxable_income :=
    PyNum.max (net_profit - se_deduct
               - default (15000 : Qc) (US_STANDARD_DEDUCTION !! filing)) 0 in
  single ← getitem US_TAX_BRACKETS "single";
  let '(income_tax, _) :=
    _apply_brackets taxable_income (default single (US_TAX_BRACKETS !! filing)) in
  other ← getitem US_STATE_TAX "other";
  let state_rate := default other (US_STATE_TAX !! state) in
  let state_tax := net_profit * state_rate in
  let total_tax := income_tax + se_tax + state_tax in
  let take_home := net_profit - total_tax in
  let quarterly_est := total_tax / 4 in
  let eff_rate := if PyNum.ltb 0 gross then total_tax / gross * 100 else 0 in
  let due_dates :=
    ["April 15"; "June 16"; "September 15"; "January 15 (next yr)"] in
  Ok {| amounts :=
          <["net_profit" := PyNum.round2 net_profit]>
          (<["taxable_income" := PyNum.round2 taxable_income]>
          (<["income_tax" := PyNum.round2 income_tax]>
          (<["self_employment_tax" := PyNum.round2 se_tax]>
          (<["se_tax_deduction" := PyNum.round2 se_deduct]>
          (<["state_tax" := PyNum.round2 state_tax]>
          (<["total_tax" := PyNum.round2 total_tax]>
          (<["effective_rate" := PyNum.round2 eff_rate]>
          (<["take_home" := PyNum.round2 take_home]>
          (<["quarterly_estimate" := PyNum.round2 quarterly_est]> ∅)))))))));
        quarterly_due_dates := due_dates;
        india_advance_tax_schedule := None;
        presumptive_scheme_used := None |}.

Definition _uk_freelance (gross expenses : Qc) : freelance :=
  let net_profit := gross - expenses in
  let ni_cfg := UK_NI_SELF_EMPLOYED in
  let class2 := if PyNum.ltb 12570 net_profit then class2_annual ni_cfg else 0 in
  let class4 := 0 in
  let class4 :=
    if PyNum.ltb (class4_lower ni_cfg) net_profit then
      let class4 :=
        class4 + PyNum.min net_profit (class4_upper ni_cfg) * class4_rate_main ni_cfg in
      class4 - class4_lower ni_cfg * class4_rate_main ni_cfg
    else class4 in
  let class4 :=
    if PyNum.ltb (class4_upper ni_cfg) net_profit then
      class4 + (net_profit - class4_upper ni_cfg) * class4_rate_upper ni_cfg
    else class4 in
  let pa :=
    PyNum.min UK_PERSONAL_ALLOWANCE
      (UK_PERSONAL_ALLOWANCE - PyNum.max (net_profit - UK_PA_TAPER_START) 0 / 2) in
  let taxable := PyNum.max (net_profit - pa) 0 in
  let '(income_tax, _) := _apply_brackets taxable UK_TAX_BRACKETS in
  let total_tax := income_tax + class2 + class4 in
  let take_home := net_profit - total_tax in
  let eff_rate := if PyNum.ltb 0 gross then total_tax / gross * 100 else 0 in
  {| amounts :=
       <["net_profit" := PyNum.round2 net_profit]>
       (<["taxable_income" := PyNum.round2 taxable]>
       (<["income_tax" := PyNum.round2 income_tax]>
       (<["uk_class2_nic" := PyNum.round2 class2]>
       (<["uk_class4_nic" := PyNum.round2 class4]>
       (<["total_tax" := PyNum.round2 total_tax]>
       (<["effective_rate" := PyNum.round2 eff_rate]>
       (<["take_home" := PyNum.round2 take_home]>
       (<["self_employment_tax" := PyNum.round2 (class2 + class4)]>
       (<["quarterly_estimate" := PyNum.round2 (total_tax / 2)]> ∅)))))))));
     quarterly_due_dates := ["January 31"; "July 31"];
     india_advance_tax_schedule := None;
     presumptive_scheme_used := None |}.

Definition _india_freelance (gross expenses : Qc) (presumptive : bool)
  : freelance :=
  let net_profit := if presumptive then gross * 0.50 else gross - expenses in
  let cfg := INDIA_NEW_REGIME in
  let taxable := PyNum.max (net_profit - standard_deduction cfg) 0 in
  let '(base_tax, _) := _india_apply_brackets taxable (regime_brackets cfg) in
  let base_tax := if PyNum.leb taxable (rebate_87a_limit cfg) then 0
                  else base_tax in
  let surcharge := _india_surcharge base_tax net_profit in
  let cess := (base_tax + surcharge) * cess_rate cfg in
  let total_tax := base_tax + surcharge + cess in
  let take_home := net_profit - total_tax in
  let eff_rate := if PyNum.ltb 0 gross then total_tax / gross * 100 else 0 in
  let advance_tax :=
    [ {| due := "June 15"; pct := 15; amount := PyNum.round2 (total_tax * 0.15) |};
      {| due := "September 15"; pct := 45; amount := PyNum.round2 (total_tax * 0.30) |};
      {| due := "December 15"; pct := 75; amount := PyNum.round2 (total_tax * 0.30) |};
      {| due := "March 15"; pct := 100; amount := PyNum.round2 (total_tax * 0.25) |} ] in
  {| amounts :=
       <["net_profit" := PyNum.round2 net_profit]>
       (<["taxable_income" := PyNum.round2 taxable]>
       (<["income_tax" := PyNum.round2 base_tax]>
       (<["self_employment_tax" := (0 : Qc)]>
       (<["total_tax" := PyNum.round2 total_tax]>
       (<["effective_rate" := PyNum.round2 eff_rate]>
       (<["take_home" := PyNum.round2 take_home]>
       (<["quarterly_estimate" := PyNum.round2 (total_tax / 4)]> ∅)))))));
     quarterly_due_dates := map due advance_tax;
     india_advance_tax_schedule := Some advance_tax;
     presumptive_scheme_used := Some presumptive |}.

(** The JSON body of [/api/tax/freelance]; [presumptive_scheme] holds
    the truth value [bool(...)] gives the field when it is there. *)
Record freelance_request := {
  gross_revenue : num_field;
  business_expenses : num_field;
  fl_country : option string;
  fl_filing_status : option string;
  fl_state : option string;
  presumptive_scheme : option bool
}.

Definition api_freelance (data : freelance_request) : response freelance :=
  let parsed :=
    gross_revenue ← float_required "gross_revenue" (gross_revenue data);
    business_expenses ← float_default 0 (business_expenses data);
    Ok (gross_revenue, business_expenses) in
  match parsed with
  | Raise exc => Json422 (ExceptionText exc)
  | Ok (gross_revenue, business_expenses) =>
    let country := upper (default "US" (fl_country data)) in
    let filing := lower (default "single" (fl_filing_status data)) in
    let state := default "other" (fl_state data) in
    let presumptive := default false (presumptive_scheme data) in
    if decide (country = "US") then
      match _us_freelance gross_revenue business_expenses filing state with
      | Ok r => Json200 r
      | Raise e => Uncaught e
      end
    else if decide (country = "UK") then
      Json200 (_uk_freelance gross_revenue business_expenses)
    else if decide (country = "IN") then
      Json200 (_india_freelance gross_revenue business_expenses presumptive)
    else Json422 (Message "Country must be US, UK, or IN")
  end.

(** *** Capital gains tax *)

(** What the ["regime_notes"] text is built from. *)
Inductive regime_notes : Type :=
| UsNotes (long_term : bool) (niit : Qc)
| UkNotes (exempt rate : Qc) (higher : bool)
| IndiaNotes (label asset_type : string) (exemption_applied : bool).

Record cgt := {
  gain : Qc;
  is_long_term : bool;
  tax_rate : Qc;
  tax_owed : Qc;
  net_proceeds : Qc;
  classification : string;
  notes : regime_notes;
  cgt_breakdown : gmap string Qc
}.

(** The long-term loop of [_us_cgt]: [gain_tax = 0], [rate = 0], then
    the first bracket with [income <= upper]. *)
Fixpoint ltcg_loop (gross_gain income : Qc) (bs : brackets) : Qc * Qc :=
  match bs with
  | [] => (0, 0)
  | (upper, r) :: rest =>
    if le_bound income upper then (gross_gain * r, r * 100)
    else ltcg_loop gross_gain income rest
  end.

Definition _us_cgt (gross_gain income : Qc) (filing : string)
    (holding_months : Qc) (asset_type : string) : result cgt :=
  let is_long_term := PyNum.leb US_LTCG_HOLDING_MONTHS holding_months in
  branch ←
    (if negb is_long_term then
       let taxable_income := income + gross_gain in
       single ← getitem US_TAX_BRACKETS "single";
       let '(tax, _) :=
         _apply_brackets taxable_income (default single (US_TAX_BRACKETS !! filing)) in
       single' ← getitem US_TAX_BRACKETS "single";
       let '(base_tax_no_gain, _) :=
         _apply_brackets income (default single' (US_TAX_BRACKETS !! filing)) in
       let gain_tax := tax - base_tax_no_gain in
       let rate := if PyNum.ltb 0 gross_gain then gain_tax / gross_gain * 100
                   else 0 in
       Ok (gain_tax, rate, "STCG")
     else
       single ← getitem US_LTCG_BRACKETS "single";
       let brackets := default single (US_LTCG_BRACKETS !! filing) in
       let '(gain_tax, rate) := ltcg_loop gross_gain income brackets in
       Ok (gain_tax, rate, "LTCG"));
  let '(gain_tax, rate, label) := branch in
  let niit_threshold := default (200000 : Qc) (US_NIIT_THRESHOLD !! filing) in
  let niit := PyNum.max (income + gross_gain - niit_threshold) 0 in
  let niit := PyNum.min niit gross_gain * US_NIIT_RATE in
  let total_tax := gain_tax + niit in
  Ok {| gain := PyNum.round2 gross_gain;
        is_long_term := is_long_term;
        tax_rate := PyNum.round1 rate;
        tax_owed := PyNum.round2 total_tax;
        net_proceeds := PyNum.round2 (gross_gain - total_tax);
        classification := label;
        notes := UsNotes is_long_term niit;
        cgt_breakdown :=
          <["gross_gain" := PyNum.round2 gross_gain]>
          (<["exemption" := (0 : Qc)]>
          (<["taxable_gain" := PyNum.round2 gross_gain]>
          (<["capital_gains_tax" := PyNum.round2 gain_tax]>
          (<["niit" := PyNum.round2 niit]>
          (<["total_tax" := PyNum.round2 total_tax]> ∅))))) |}.

Definition _uk_cgt (gross_gain income : Qc) (asset_type : string) : cgt :=
  let exempt := annual_exempt UK_CGT in
  let taxable_gain := PyNum.max (gross_gain - exempt) 0 in
  let is_higher := PyNum.ltb (higher_rate_threshold UK_CGT) income in
  let rate := if is_higher then higher_rate UK_CGT else basic_rate UK_CGT in
  let tax := taxable_gain * rate in
  {| gain := PyNum.round2 gross_gain;
     is_long_term := true;
     tax_rate := PyNum.round1 (rate * 100);
     tax_owed := PyNum.round2 tax;
     net_proceeds := PyNum.round2 (gross_gain - tax);
     classification := "CGT";
     notes := UkNotes exempt rate is_higher;
     cgt_breakdown :=
       <["gross_gain" := PyNum.round2 gross_gain]>
       (<["exemption" := PyNum.round2 (PyNum.min gross_gain exempt)]>
       (<["taxable_gain" := PyNum.round2 taxable_gain]>
       (<["tax" := PyNum.round2 tax]> ∅))) |}.

Definition _india_cgt (gross_gain : Qc) (asset_type : string)
    (holding_months : Qc) : cgt :=
  let '(is_lt, exempt, taxable, rate, label) :=
    if decide (asset_type = "equity") then
      let threshold := equity_holding_months INDIA_CGT in
      let is_lt := PyNum.leb threshold holding_months in
      if is_lt then
        let exempt := equity_ltcg_exemption INDIA_CGT in
        (is_lt, exempt, PyNum.max (gross_gain - exempt) 0,
         equity_ltcg_rate INDIA_CGT, "LTCG")
      else
        (is_lt, 0, gross_gain, equity_stcg_rate INDIA_CGT, "STCG")
    else
      let threshold := property_holding_months INDIA_CGT in
      let is_lt := PyNum.leb threshold holding_months in
      let rate := if is_lt then property_ltcg_rate INDIA_CGT else Q2Qc 0.30 in
      (is_lt, 0, gross_gain, rate, if is_lt then "LTCG" else "STCG") in
  let tax := taxable * rate in
  let cess := tax * cess_rate INDIA_NEW_REGIME in
  let total := tax + cess in
  {| gain := PyNum.round2 gross_gain;
     is_long_term := is_lt;
     tax_rate := PyNum.round1 (rate * 100);
     tax_owed := PyNum.round2 total;
     net_proceeds := PyNum.round2 (gross_gain - total);
     classification := label;
     notes := IndiaNotes label asset_type
                (bool_decide (asset_type = "equity") && is_lt);
     cgt_breakdown :=
       <["gross_gain" := PyNum.round2 gross_gain]>
       (<["exemption" := PyNum.round2 exempt]>
       (<["taxable_gain" := PyNum.round2 taxable]>
       (<["base_tax" := PyNum.round2 tax]>
       (<["cess" := PyNum.round2 cess]>
       (<["total_tax" := PyNum.round2 total]> ∅))))) |}.

(** The JSON body of [/api/tax/capital-gains]. *)
Record cgt_request := {
  cg_country : option string;
  asset_type_field : option string;
  purchase_price : num_field;
  sale_price : num_field;
  holding_months_field : num_field;
  annual_income : num_field;
  cg_filing_status : option string
}.

Definition api_capital_gains (data : cgt_request) : response cgt :=
  let country := upper (default "US" (cg_country data)) in
  let asset_type := default "equity" (asset_type_field data) in
  let parsed :=
    purchase_price ← float_required "purchase_price" (purchase_price data);
    sale_price ← float_required "sale_price" (sale_price data);
    holding_months ← float_default 13 (holding_months_field data);
    annual_income ← float_default 75000 (annual_income data);
    Ok (purchase_price, sale_price, holding_months, annual_income) in
  match parsed with
  | Raise exc => Json422 (ExceptionText exc)
  | Ok (purchase_price, sale_price, holding_months, annual_income) =>
    let filing := lower (default "single" (cg_filing_status data)) in
    let gross_gain := sale_price - purchase_price in
    if decide (country = "US") then
      match _us_cgt gross_gain annual_income filing holding_months asset_type with
      | Ok r => Json200 r
      | Raise e => Uncaught e
      end
    else if decide (country = "UK") then
      Json200 (_uk_cgt gross_gain annual_income asset_type)
    else if decide (country = "IN") then
      Json200 (_india_cgt gross_gain asset_type holding_months)
    else Json422 (Message "Country must be US, UK, or IN")
  end.

End Tax.

(* ================================================================== *)
(** ** calculators/mortgage.py *)

Module Mortgage.

Definition _monthly_payment (principal annual_rate_pct : Qc) (term_months : Z)
  : result Qc :=
  if PyNum.eqb annual_rate_pct 0 then
    if (term_months =? 0)%Z then Ok 0
    else pydiv principal (Qc_of_Z term_months)
  else
    let r := annual_rate_pct / 100 / 12 in
    growth ← pypow (1 + r) term_months;
    growth' ← pypow (1 + r) term_months;
    pydiv (principal * (r * growth)) (growth' - 1).

Record amort_row := {
  month : Z;
  payment : Qc;
  principal : Qc;
  interest : Qc;
  balance : Qc
}.

(** [for m in range(1, term_months + 1)]: [n] months left, [m] the
    current one. *)
Fixpoint amortize_loop (n : nat) (m : Z) (r payment balance : Qc)
    (schedule : list amort_row) : list amort_row :=
  match n with
  | O => schedule
  | S n' =>
    let interest := balance * r in
    let principal_paid := payment - interest in
    let balance := PyNum.max (balance - principal_paid) 0 in
    amortize_loop n' (m + 1)%Z r payment balance
      (schedule ++
        [ {| month := m;
             payment := PyNum.round2 payment;
             principal := PyNum.round2 principal_paid;
             interest := PyNum.round2 interest;
             balance := PyNum.round2 balance |} ])
  end.

Definition _amortize (principal annual_rate_pct : Qc) (term_months : Z)
  : result (list amort_row) :=
  let r := annual_rate_pct / 100 / 12 in
  payment ← _monthly_payment principal annual_rate_pct term_months;
  Ok (amortize_loop (Z.to_nat term_months) 1 r payment principal []).

(** *** Rent vs buy *)

Record rvb_request := {
  home_price : num_field;
  down_payment_pct : num_field;
  mortgage_rate : num_field;
  term_years : num_field;
  annual_home_growth : num_field;
  monthly_rent : num_field;
  annual_rent_increase : num_field;
  investment_return : num_field;
  property_tax_rate : num_field;
  maintenance_pct : num_field;
  insurance_monthly : num_field;
  years : num_field
}.

(** The local variables the [try] block binds. *)
Record rvb_inputs := {
  in_home_price : Qc;
  in_down_pct : Qc;
  in_mortgage_rate : Qc;
  in_term_years : Z;
  in_annual_home_growth : Qc;
  in_monthly_rent : Qc;
  in_annual_rent_increase : Qc;
  in_investment_return : Qc;
  in_prop_tax_rate : Qc;
  in_maintenance_pct : Qc;
  in_insurance_monthly : Qc;
  in_years : Z
}.

Definition rvb_parse (data : rvb_request) : result rvb_inputs :=
  hp ← float_required "home_price" (home_price data);
  dp ← float_default 20 (down_payment_pct data);
  mr ← float_default 6.7 (mortgage_rate data);
  ty ← int_default 30 (term_years data);
  hg ← float_default 4 (annual_home_growth data);
  rent ← float_required "monthly_rent" (monthly_rent data);
  ri ← float_default 3 (annual_rent_increase data);
  ir ← float_default 7 (investment_return data);
  pt ← float_default 1.2 (property_tax_rate data);
  mp ← float_default 1 (maintenance_pct data);
  ins ← float_default 150 (insurance_monthly data);
  ys ← int_default 10 (years data);
  Ok {| in_home_price := hp; in_down_pct := dp; in_mortgage_rate := mr;
        in_term_years := ty; in_annual_home_growth := hg;
        in_monthly_rent := rent; in_annual_rent_increase := ri;
        in_investment_return := ir; in_prop_tax_rate := pt;
        in_maintenance_pct := mp; in_insurance_monthly := ins;
        in_years := ys |}.

Record yearly_row := {
  year : Z;
  buy_net_worth : Qc;
  rent_net_worth : Qc;
  cumulative_buy_cost : Qc;
  cumulative_rent_cost : Qc
}.

(** The variables the yearly loop updates. *)
Record rvb_state := {
  home_value : Qc;
  rent : Qc;
  renter_portfolio : Qc;
  cum_buy_cost : Qc;
  cum_rent_cost : Qc;
  breakeven_year : option Z;
  yearly : list yearly_row
}.

(** [amort[(yr - 1) * 12 : yr * 12]], for [yr >= 1]. *)
Definition year_chunk (amort : list amort_row) (yr : Z) : list amort_row :=
  firstn 12 (skipn (Z.to_nat ((yr - 1) * 12)) amort).

(** One pass of [for _ in range(12)]. *)
Definition invest_month (monthly_invest_ret monthly_diff portfolio : Qc) : Qc :=
  let portfolio := portfolio * (1 + monthly_invest_ret) in
  if PyNum.ltb 0 monthly_diff then portfolio + monthly_diff else portfolio.

(** The body of [for yr in range(1, years + 1)]. *)
Definition year_step (i : rvb_inputs) (loan monthly_pmt : Qc)
    (amort : list amort_row) (yr : Z) (s : rvb_state) : rvb_state :=
  let chunk := year_chunk amort yr in
  let principal_paid_yr := PyNum.sum (map principal chunk) in
  let interest_paid_yr := PyNum.sum (map interest chunk) in
  let balance_end := match last chunk with
                     | Some row => balance row
                     | None => loan
                     end in
  let home_value := home_value s * (1 + in_annual_home_growth i / 100) in
  let buyer_equity := home_value - balance_end in
  let prop_tax_annual := in_home_price i * in_prop_tax_rate i / 100 in
  let maintenance_annual := in_home_price i * in_maintenance_pct i / 100 in
  let insurance_annual := in_insurance_monthly i * 12 in
  let buy_annual_cost :=
    interest_paid_yr + prop_tax_annual + maintenance_annual + insurance_annual in
  let cumulative_buy_cost := cum_buy_cost s + buy_annual_cost in
  let rent_annual := rent s * 12 in
  let cumulative_rent_cost := cum_rent_cost s + rent_annual in
  let rent := rent s * (1 + in_annual_rent_increase i / 100) in
  let monthly_diff := monthly_pmt - rent_annual / 12 in
  let monthly_invest_ret := in_investment_return i / 100 / 12 in
  let renter_portfolio :=
    Nat.iter 12 (invest_month monthly_invest_ret monthly_diff)
      (renter_portfolio s) in
  let buy_net := PyNum.round2 buyer_equity in
  let rent_net := PyNum.round2 renter_portfolio in
  let breakeven :=
    match breakeven_year s with
    | None => if PyNum.leb rent_net buy_net then Some yr else None
    | Some y => Some y
    end in
  {| home_value := home_value;
     rent := rent;
     renter_portfolio := renter_portfolio;
     cum_buy_cost := cumulative_buy_cost;
     cum_rent_cost := cumulative_rent_cost;
     breakeven_year := breakeven;
     yearly := yearly s ++
       [ {| year := yr;
            buy_net_worth := buy_net;
            rent_net_worth := rent_net;
            cumulative_buy_cost := PyNum.round2 cumulative_buy_cost;
            cumulative_rent_cost := PyNum.round2 cumulative_rent_cost |} ] |}.

(** [for yr in range(1, years + 1)]: [n] years left, [yr] the current
    one. *)
Fixpoint year_loop (i : rvb_inputs) (loan monthly_pmt : Qc)
    (amort : list amort_row) (n : nat) (yr : Z) (s : rvb_state) : rvb_state :=
  match n with
  | O => s
  | S n' =>
    year_loop i loan monthly_pmt amort n' (yr + 1)%Z
      (year_step i loan monthly_pmt amort yr s)
  end.

Record rvb_data := {
  data_breakeven_year : option Z;
  buy_net_worth_at_horizon : Qc;
  rent_net_worth_at_horizon : Qc;
  recommendation : string;
  yearly_comparison : list yearly_row
}.

(** The handler after its [try] block. *)
Definition rvb_compute (i : rvb_inputs) : result rvb_data :=
  let years := Z.min (in_years i) 30 in
  let down_payment := in_home_price i * in_down_pct i / 100 in
  let loan := in_home_price i - down_payment in
  let term_months := (in_term_years i * 12)%Z in
  monthly_pmt ← _monthly_payment loan (in_mortgage_rate i) term_months;
  amort ← _amortize loan (in_mortgage_rate i) term_months;
  let s := year_loop i loan monthly_pmt amort (Z.to_nat years) 1
    {| home_value := in_home_price i;
       rent := in_monthly_rent i;
       renter_portfolio := down_payment;
       cum_buy_cost := down_payment;
       cum_rent_cost := 0;
       breakeven_year := None;
       yearly := [] |} in
  match last (yearly s) with
  | None => Raise IndexError
  | Some last_row =>
    let diff := buy_net_worth last_row - rent_net_worth last_row in
    let rec := if PyNum.ltb 5000 diff then "BUY"
               else if PyNum.ltb diff (-5000) then "RENT"
               else "NEUTRAL" in
    Ok {| data_breakeven_year := breakeven_year s;
          buy_net_worth_at_horizon := buy_net_worth last_row;
          rent_net_worth_at_horizon := rent_net_worth last_row;
          recommendation := rec;
          yearly_comparison := yearly s |}
  end.

Definition api_rent_vs_buy (data : rvb_request) : response rvb_data :=
  match rvb_parse data with
  | Raise exc => Json422 (ExceptionText exc)
  | Ok i =>
    match rvb_compute i with
    | Ok d => Json200 d
    | Raise e => Uncaught e
    end
  end.

(** *** Yearly summary and the repayment handler *)

Record year_summary := {
  summary_year : Z;
  principal_paid : Qc;
  interest_paid : Qc;
  summary_balance : Qc
}.

(** [for yr in range(1, n + 1)] of [_summarize_by_year]: [n] years left,
    [yr] the current one; [chunk[-1]] raises on an empty chunk. *)
Fixpoint summarize_loop (schedule : list amort_row) (n : nat) (yr : Z)
    (yearly : list year_summary) : result (list year_summary) :=
  match n with
  | O => Ok yearly
  | S n' =>
    let chunk := year_chunk schedule yr in
    match last chunk with
    | None => Raise IndexError
    | Some last_row =>
      summarize_loop schedule n' (yr + 1)%Z
        (yearly ++
          [ {| summary_year := yr;
               principal_paid := PyNum.round2 (PyNum.sum (map principal chunk));
               interest_paid := PyNum.round2 (PyNum.sum (map interest chunk));
               summary_balance := PyNum.round2 (balance last_row) |} ])
    end
  end.

(** [math.ceil(len(schedule) / 12)]. *)
Definition year_count (schedule : list amort_row) : Z :=
  Qceiling (Qc_of_Z (Z.of_nat (length schedule)) / 12).

Definition _summarize_by_year (schedule : list amort_row)
  : result (list year_summary) :=
  summarize_loop schedule (Z.to_nat (year_count schedule)) 1 [].

(** [_validate_number]: the pair [(v, None)] or [(None, message)]; the
    bounds are the integers of the call sites. *)
Definition show_int (z : Z) : string := NilZero.string_of_int (Z.to_int z).

Definition _validate_number (field : num_field) (min_val max_val : Z)
    (label : string) : option Qc * option string :=
  match field with
  | Number v =>
    if negb (PyNum.leb (Qc_of_Z min_val) v && PyNum.leb v (Qc_of_Z max_val))
    then (None, Some (label ++ " must be between " ++ show_int min_val
                      ++ " and " ++ show_int max_val)%string)
    else (Some v, None)
  | Absent | NotNumeric =>
    (None, Some (label ++ " is required and must be a number")%string)
  end.

Record repayment_request := {
  rp_principal : num_field;
  rp_annual_rate : num_field;
  rp_term_years : num_field
}.

Record repayment_data := {
  monthly_payment : Qc;
  total_paid : Qc;
  total_interest : Qc;
  effective_rate : Qc;
  amortization_table : list amort_row;
  summary_by_year : list year_summary
}.

(** [if e: errors.append(e)]: an empty message is not appended. *)
Definition append_error (errors : list string) (e : option string) : list string :=
  match e with
  | Some msg => if decide (msg = "") then errors else errors ++ [msg]
  | None => errors
  end.

(** The list of validation messages of [api_repayment]. *)
Definition repayment_errors (data : repayment_request) : list string :=
  let errors := [] in
  let errors := append_error errors
    (snd (_validate_number (rp_principal data) 1000 100000000 "Loan amount")) in
  let errors := append_error errors
    (snd (_validate_number (rp_annual_rate data) 0 30 "Annual interest rate")) in
  append_error errors
    (snd (_validate_number (rp_term_years data) 1 40 "Loan term")).

Definition api_repayment (data : repayment_request) : response repayment_data :=
  let principal := fst (_validate_number (rp_principal data) 1000 100000000 "Loan amount") in
  let annual_rate := fst (_validate_number (rp_annual_rate data) 0 30 "Annual interest rate") in
  let term_years := fst (_validate_number (rp_term_years data) 1 40 "Loan term") in
  let errors := repayment_errors data in
  match errors with
  | _ :: _ => Json422 (Message (String.concat "; " errors))
  | [] =>
    match principal, annual_rate, term_years with
    | Some principal, Some annual_rate, Some term_years =>
      let computed :=
        let term_months := py_int (term_years * 12) in
        payment ← _monthly_payment principal annual_rate term_months;
        let total_paid := payment * Qc_of_Z term_months in
        let total_interest := total_paid - principal in
        schedule ← _amortize principal annual_rate term_months;
        yearly ← _summarize_by_year schedule;
        Ok {| monthly_payment := PyNum.round2 payment;
              total_paid := PyNum.round2 total_paid;
              total_interest := PyNum.round2 total_interest;
              effective_rate := annual_rate;
              amortization_table := schedule;
              summary_by_year := yearly |} in
      match computed with
      | Ok d => Json200 d
      | Raise e => Uncaught e
      end
    | _, _, _ => Uncaught ValueError
    end
  end.

(** *** Refinance *)

Record refinance_request := {
  current_balance : num_field;
  current_rate : num_field;
  current_remaining_years : num_field;
  new_rate : num_field;
  new_term_years : num_field;
  closing_costs : num_field
}.

Record refinance_data := {
  current_monthly : Qc;
  new_monthly : Qc;
  monthly_savings : Qc;
  breakeven_months : option Z;
  total_interest_current : Qc;
  total_interest_new : Qc;
  net_savings : Qc;
  rf_recommendation : string
}.

Definition api_refinance (data : refinance_request) : response refinance_data :=
  let parsed :=
    current_balance ← float_required "current_balance" (current_balance data);
    current_rate ← float_required "current_rate" (current_rate data);
    current_remaining_yrs ← float_default 25 (current_remaining_years data);
    new_rate ← float_required "new_rate" (new_rate data);
    new_term_yrs ← float_default 30 (new_term_years data);
    closing_costs ← float_default 4000 (closing_costs data);
    Ok (current_balance, current_rate, current_remaining_yrs, new_rate,
        new_term_yrs, closing_costs) in
  match parsed with
  | Raise exc => Json422 (ExceptionText exc)
  | Ok (current_balance, current_rate, current_remaining_yrs, new_rate,
        new_term_yrs, closing_costs) =>
    let computed :=
      let current_months := py_int (current_remaining_yrs * 12) in
      let new_months := py_int (new_term_yrs * 12) in
      current_pmt ← _monthly_payment current_balance current_rate current_months;
      new_pmt ← _monthly_payment current_balance new_rate new_months;
      let monthly_savings := current_pmt - new_pmt in
      let breakeven_months :=
        if PyNum.ltb 0 monthly_savings
        then Some (py_int (closing_costs / monthly_savings)) else None in
      let total_interest_current :=
        current_pmt * Qc_of_Z current_months - current_balance in
      let total_interest_new := new_pmt * Qc_of_Z new_months - current_balance in
      let net_savings := total_interest_current - total_interest_new - closing_costs in
      let rec :=
        if PyNum.ltb 0 monthly_savings
           && match breakeven_months with
              | Some m => negb (m =? 0)%Z && (m <? current_months)%Z
              | None => false
              end
        then "REFINANCE" else "STAY" in
      Ok {| current_monthly := PyNum.round2 current_pmt;
            new_monthly := PyNum.round2 new_pmt;
            monthly_savings := PyNum.round2 monthly_savings;
            breakeven_months := breakeven_months;
            total_interest_current := PyNum.round2 total_interest_current;
            total_interest_new := PyNum.round2 total_interest_new;
            net_savings := PyNum.round2 net_savings;
            rf_recommendation := rec |} in
    match computed with
    | Ok d => Json200 d
    | Raise e => Uncaught e
    end
  end.

(** *** Home affordability *)

(** [round(x, 0)]. *)
Definition round0 (x : Qc) : Qc := Qc_of_Z (PyNum.round_half_even x).

Record affordability_request := {
  gross_annual_income : num_field;
  af_monthly_debts : num_field;
  af_down_payment : num_field;
  af_annual_rate : num_field;
  af_term_years : num_field;
  af_property_tax_rate : num_field;
  af_insurance_monthly : num_field;
  af_hoa_monthly : num_field
}.

Record affordability_data := {
  max_home_price_28pct : Qc;
  max_home_price_36pct : Qc;
  max_home_price : Qc;
  max_monthly_piti : Qc;
  af_monthly_income : Qc;
  current_dti : Qc;
  dti_status : string
}.

(** [x / factor if factor > 0 else 0]. *)
Definition over_factor (x factor : Qc) : result Qc :=
  if PyNum.ltb 0 factor then pydiv x factor else Ok 0.

(** What the [try] block of the handler binds. *)
Definition affordability_parse (data : affordability_request)
  : result (Qc * Qc * Qc * Qc * Z * Qc * Qc * Qc) :=
  gross_annual ← float_required "gross_annual_income" (gross_annual_income data);
  monthly_debts ← float_default 0 (af_monthly_debts data);
  down_payment ← float_default 0 (af_down_payment data);
  annual_rate ← float_default 6.7 (af_annual_rate data);
  term_years ← int_default 30 (af_term_years data);
  prop_tax_rate ← float_default 1.2 (af_property_tax_rate data);
  insurance_mo ← float_default 150 (af_insurance_monthly data);
  hoa_mo ← float_default 0 (af_hoa_monthly data);
  Ok (gross_annual, monthly_debts, down_payment, annual_rate, term_years,
      prop_tax_rate, insurance_mo, hoa_mo).

Definition api_affordability (data : affordability_request)
  : response affordability_data :=
  match affordability_parse data with
  | Raise exc => Json422 (ExceptionText exc)
  | Ok (gross_annual, monthly_debts, down_payment, annual_rate, term_years,
        prop_tax_rate, insurance_mo, hoa_mo) =>
    let computed :=
      let monthly_income := gross_annual / 12 in
      let term_months := (term_years * 12)%Z in
      let max_piti_28 := monthly_income * 0.28 in
      let max_pi_28 :=
        max_piti_28 - prop_tax_rate / 100 / 12 * 250000 - insurance_mo - hoa_mo in
      let r := annual_rate / 100 / 12 in
      (* [factor] is bound in the first branch only, and read in the
         second under the same condition; 0 stands for unbound. *)
      let with_factor := PyNum.ltb 0 r && (0 <? term_months)%Z in
      factor ←
        (if with_factor then
           growth ← pypow (1 + r) term_months;
           growth' ← pypow (1 + r) term_months;
           pydiv (r * growth) (growth' - 1)
         else Ok 0);
      max_price_28 ←
        (if with_factor then
           max_loan_28 ← over_factor max_pi_28 factor;
           let max_price_28 := max_loan_28 + down_payment in
           let actual_tax_mo := max_price_28 * prop_tax_rate / 100 / 12 in
           let actual_pi_28 := max_piti_28 - actual_tax_mo - insurance_mo - hoa_mo in
           max_loan_28 ← over_factor actual_pi_28 factor;
           Ok (PyNum.max (max_loan_28 + down_payment) 0)
         else Ok 0);
      let max_total_debt_36 := monthly_income * 0.36 in
      let max_pi_36 :=
        max_total_debt_36 - monthly_debts - prop_tax_rate / 100 / 12 * 250000
        - insurance_mo - hoa_mo in
      max_price_36 ←
        (if with_factor && PyNum.ltb 0 max_pi_36 then
           max_loan_36 ← pydiv max_pi_36 factor;
           let max_price_36 := max_loan_36 + down_payment in
           let actual_tax_mo := max_price_36 * prop_tax_rate / 100 / 12 in
           let actual_pi_36 :=
             max_total_debt_36 - monthly_debts - actual_tax_mo - insurance_mo
             - hoa_mo in
           max_loan_36 ← over_factor actual_pi_36 factor;
           Ok (PyNum.max (max_loan_36 + down_payment) 0)
         else Ok 0);
      let max_price := PyNum.min max_price_28 max_price_36 in
      let max_loan := PyNum.max (max_price - down_payment) 0 in
      payment ← _monthly_payment max_loan annual_rate term_months;
      let max_piti :=
        payment + max_price * prop_tax_rate / 100 / 12 + insurance_mo + hoa_mo in
      current_dti ←
        (if PyNum.ltb 0 monthly_income
         then q ← pydiv monthly_debts monthly_income; Ok (q * 100)
         else Ok 0);
      let dti_status :=
        if PyNum.ltb current_dti 28 then "GOOD"
        else if PyNum.ltb current_dti 36 then "CAUTION" else "HIGH" in
      Ok {| max_home_price_28pct := round0 max_price_28;
            max_home_price_36pct := round0 max_price_36;
            max_home_price := round0 max_price;
            max_monthly_piti := PyNum.round2 max_piti;
            af_monthly_income := PyNum.round2 monthly_income;
            current_dti := PyNum.round1 current_dti;
            dti_status := dti_status |} in
    match computed with
    | Ok d => Json200 d
    | Raise e => Uncaught e
    end
  end.

End Mortgage.

(* ================================================================== *)
(** ** calculators/debt.py *)

Module Debt.

Definition _monthly_payment (principal annual_rate_pct : Qc) (term_months : Z)
  : result Qc :=
  if PyNum.eqb annual_rate_pct 0 then
    if (term_months =? 0)%Z then Ok 0
    else pydiv principal (Qc_of_Z term_months)
  else
    let r := annual_rate_pct / 100 / 12 in
    growth ← pypow (1 + r) term_months;
    growth' ← pypow (1 + r) term_months;
    pydiv (principal * (r * growth)) (growth' - 1).

Record cc_request := {
  balance_field : num_field;
  apr : num_field;
  minimum_pct : num_field;
  minimum_floor : num_field;
  extra_payment : num_field
}.

Record sim_row := {
  month : Z;
  payment : Qc;
  interest : Qc;
  principal : Qc;
  balance : Qc
}.

(** What [payoff_sim] returns: [months, total_interest, total_paid,
    schedule]. *)
Record sim_result := {
  months : Z;
  total_interest : Qc;
  total_paid : Qc;
  schedule : list sim_row
}.

(** [while b > 0.01 and months < 600].  The loop runs at most 600 times
    from [months = 0]; [fuel] counts the passes that remain. *)
Fixpoint payoff_loop (monthly_rate min_pct min_floor extra : Qc) (fuel : nat)
    (months : Z) (b total_interest total_paid : Qc) (schedule : list sim_row)
  : sim_result :=
  let stop := {| months := months; total_interest := total_interest;
                 total_paid := total_paid; schedule := schedule |} in
  match fuel with
  | O => stop
  | S fuel' =>
    if PyNum.ltb 0.01 b && (months <? 600)%Z then
      let months := (months + 1)%Z in
      let interest := b * monthly_rate in
      let min_pmt := PyNum.max (b * min_pct / 100) min_floor in
      let payment := PyNum.min (min_pmt + extra) (b + interest) in
      let principal := payment - interest in
      let b := PyNum.max (b - principal) 0 in
      let total_interest := total_interest + interest in
      let total_paid := total_paid + payment in
      let schedule :=
        if (months <=? 360)%Z then
          schedule ++
            [ {| month := months;
                 payment := PyNum.round2 payment;
                 interest := PyNum.round2 interest;
                 principal := PyNum.round2 principal;
                 balance := PyNum.round2 b |} ]
        else schedule in
      payoff_loop monthly_rate min_pct min_floor extra fuel'
        months b total_interest total_paid schedule
    else stop
  end.

Definition payoff_sim (monthly_rate min_pct min_floor : Qc) (bal extra : Qc)
  : sim_result :=
  payoff_loop monthly_rate min_pct min_floor extra 600 0 bal 0 0 [].

Record minimum_only_data := {
  mo_months_to_payoff : Z;
  mo_total_interest : Qc;
  mo_total_paid : Qc
}.

Record with_extra_data := {
  we_months_to_payoff : Z;
  we_total_interest : Qc;
  we_total_paid : Qc;
  interest_saved : Qc;
  months_saved : Z
}.

Record cc_data := {
  minimum_only : minimum_only_data;
  with_extra : with_extra_data;
  monthly_schedule : list sim_row
}.

(** What the [try] block of the handler binds: [balance], [apr],
    [min_pct], [min_floor], [extra_payment]. *)
Definition cc_parse (data : cc_request) : result (Qc * Qc * Qc * Qc * Qc) :=
  balance ← float_required "balance" (balance_field data);
  apr ← float_default Config.US_CC_AVG_APR (apr data);
  min_pct ← float_default 2 (minimum_pct data);
  min_floor ← float_default 25 (minimum_floor data);
  extra ← float_default 0 (extra_payment data);
  Ok (balance, apr, min_pct, min_floor, extra).

Definition api_credit_card (data : cc_request) : response cc_data :=
  match cc_parse data with
  | Raise exc => Json422 (ExceptionText exc)
  | Ok (balance, apr, min_pct, min_floor, extra_payment) =>
    let monthly_rate := apr / 100 / 12 in
    let sim_min := payoff_sim monthly_rate min_pct min_floor balance 0 in
    let sim_extra :=
      payoff_sim monthly_rate min_pct min_floor balance extra_payment in
    Json200
      {| minimum_only :=
           {| mo_months_to_payoff := months sim_min;
              mo_total_interest := PyNum.round2 (total_interest sim_min);
              mo_total_paid := PyNum.round2 (total_paid sim_min) |};
         with_extra :=
           {| we_months_to_payoff := months sim_extra;
              we_total_interest := PyNum.round2 (total_interest sim_extra);
              we_total_paid := PyNum.round2 (total_paid sim_extra);
              interest_saved :=
                PyNum.round2 (total_interest sim_min - total_interest sim_extra);
              months_saved := (months sim_min - months sim_extra)%Z |};
         monthly_schedule := schedule sim_extra |}
  end.

(** Responses can be compared. *)
#[global] Instance pyerr_eq_dec : EqDecision pyerr.
Proof. solve_decision. Defined.

#[global] Instance error_body_eq_dec : EqDecision error_body.
Proof. solve_decision. Defined.

#[global] Instance sim_row_eq_dec : EqDecision sim_row.
Proof. solve_decision. Defined.

#[global] Instance minimum_only_eq_dec : EqDecision minimum_only_data.
Proof. solve_decision. Defined.

#[global] Instance with_extra_eq_dec : EqDecision with_extra_data.
Proof. solve_decision. Defined.

#[global] Instance cc_data_eq_dec : EqDecision cc_data.
Proof. solve_decision. Defined.

#[global] Instance cc_response_eq_dec : EqDecision (response cc_data).
Proof. solve_decision. Defined.

(** *** Credit tiers, student loans and personal loans *)

Fixpoint credit_tier_loop (score : Z) (tiers : list (Z * string)) : string :=
  match tiers with
  | [] => "Very Poor"
  | (threshold, tier) :: rest =>
    if (threshold <=? score)%Z then tier else credit_tier_loop score rest
  end.

Definition _get_credit_tier (score : Z) : string :=
  credit_tier_loop score Config.CREDIT_SCORE_TIERS.

Fixpoint apr_range_loop (score : Z) (table : list (Z * Z * Qc * Qc)) : Qc * Qc :=
  match table with
  | [] => (Q2Qc 36.0, Q2Qc 36.0)
  | (min_s, max_s, low, high) :: rest =>
    if (min_s <=? score)%Z && (score <=? max_s)%Z then (low, high)
    else apr_range_loop score rest
  end.

Definition _get_apr_range (score : Z) : Qc * Qc :=
  apr_range_loop score Config.PERSONAL_LOAN_APR_MAP.

(** [int(data[key])]. *)
Definition int_required (key : string) (f : num_field) : result Z :=
  match f with
  | Number q => Ok (py_int q)
  | Absent => Raise (KeyError key)
  | NotNumeric => Raise ValueError
  end.

Record student_loan_request := {
  loan_balance : num_field;
  sl_current_rate : num_field;
  loan_type : option string;
  current_term_years : num_field;
  sl_new_rate : num_field;
  sl_new_term_years : num_field;
  income : num_field
}.

Record student_loan_data := {
  sl_current_monthly : Qc;
  sl_new_monthly : Qc;
  sl_monthly_savings : Qc;
  sl_total_interest_current : Qc;
  sl_total_interest_new : Qc;
  lifetime_savings : Qc;
  sl_breakeven_months : option Z;
  idr_monthly : Qc;
  federal_benefits_warning : string
}.

Definition preset_rates : gmap string Qc :=
  <["undergrad" := (6.53 : Qc)]> (<["grad" := (8.08 : Qc)]>
  (<["parent_plus" := (9.08 : Qc)]> ∅)).

(** [key not in data], for the key a field was read from. *)
Definition not_in_data (f : num_field) : bool :=
  match f with
  | Absent => true
  | Number _ | NotNumeric => false
  end.

Definition federal_warning : string :=
  "⚠ Refinancing federal loans with a private lender forfeits income-driven repayment options, Public Service Loan Forgiveness (PSLF), and federal forbearance protections.".

Definition api_student_loan (data : student_loan_request)
  : response student_loan_data :=
  let parsed :=
    balance ← float_required "loan_balance" (loan_balance data);
    current_rate ← float_required "current_rate" (sl_current_rate data);
    current_term_yrs ← float_default 10 (current_term_years data);
    new_rate ← float_required "new_rate" (sl_new_rate data);
    new_term_yrs ← float_default 10 (sl_new_term_years data);
    income ← float_default 60000 (income data);
    Ok (balance, current_rate, current_term_yrs, new_rate, new_term_yrs, income) in
  match parsed with
  | Raise exc => Json422 (ExceptionText exc)
  | Ok (balance, current_rate, current_term_yrs, new_rate, new_term_yrs, income) =>
    let loan_type := default "custom" (loan_type data) in
    let computed :=
      current_rate ←
        (if bool_decide (is_Some (preset_rates !! loan_type))
            && not_in_data (sl_current_rate data)
         then Tax.getitem preset_rates loan_type else Ok current_rate);
      let current_months := py_int (current_term_yrs * 12) in
      let new_months := py_int (new_term_yrs * 12) in
      current_pmt ← _monthly_payment balance current_rate current_months;
      new_pmt ← _monthly_payment balance new_rate new_months;
      let total_interest_current := current_pmt * Qc_of_Z current_months - balance in
      let total_interest_new := new_pmt * Qc_of_Z new_months - balance in
      let monthly_savings := current_pmt - new_pmt in
      let lifetime_savings := total_interest_current - total_interest_new in
      let discretionary := PyNum.max (income - 22000) 0 in
      let idr_monthly := discretionary * 0.10 / 12 in
      let warning :=
        if bool_decide (loan_type = "undergrad" \/ loan_type = "grad"
                        \/ loan_type = "parent_plus")
        then federal_warning else "" in
      Ok {| sl_current_monthly := PyNum.round2 current_pmt;
            sl_new_monthly := PyNum.round2 new_pmt;
            sl_monthly_savings := PyNum.round2 monthly_savings;
            sl_total_interest_current := PyNum.round2 total_interest_current;
            sl_total_interest_new := PyNum.round2 total_interest_new;
            lifetime_savings := PyNum.round2 lifetime_savings;
            sl_breakeven_months := None;
            idr_monthly := PyNum.round2 idr_monthly;
            federal_benefits_warning := warning |} in
    match computed with
    | Ok d => Json200 d
    | Raise e => Uncaught e
    end
  end.

Record personal_loan_request := {
  loan_amount : num_field;
  pl_annual_income : num_field;
  monthly_debts : num_field;
  credit_score : num_field;
  pl_term_years : num_field
}.

Record approval_factors := {
  factor_credit_score : string;
  factor_dti : string;
  factor_income : string
}.

Record personal_loan_data := {
  eligibility : string;
  estimated_apr_low : Qc;
  estimated_apr_high : Qc;
  estimated_monthly_low : Qc;
  estimated_monthly_high : Qc;
  dti_ratio : Qc;
  credit_tier : string;
  factors : approval_factors
}.

Definition api_personal_loan (data : personal_loan_request)
  : response personal_loan_data :=
  let parsed :=
    loan_amount ← float_required "loan_amount" (loan_amount data);
    annual_income ← float_required "annual_income" (pl_annual_income data);
    monthly_debts ← float_default 0 (monthly_debts data);
    credit_score ← int_required "credit_score" (credit_score data);
    term_years ← int_default 3 (pl_term_years data);
    Ok (loan_amount, annual_income, monthly_debts, credit_score, term_years) in
  match parsed with
  | Raise exc => Json422 (ExceptionText exc)
  | Ok (loan_amount, annual_income, monthly_debts, credit_score, term_years) =>
    let computed :=
      let monthly_income := annual_income / 12 in
      new_loan_monthly_est ← _monthly_payment loan_amount 20 (term_years * 12)%Z;
      let total_debt_mo := monthly_debts + new_loan_monthly_est in
      let dti_ratio := if PyNum.ltb 0 monthly_income
                       then total_debt_mo / monthly_income * 100 else 100 in
      let '(apr_low, apr_high) := _get_apr_range credit_score in
      monthly_low ← _monthly_payment loan_amount apr_low (term_years * 12)%Z;
      monthly_high ← _monthly_payment loan_amount apr_high (term_years * 12)%Z;
      let credit_tier := _get_credit_tier credit_score in
      let eligibility :=
        if (680 <=? credit_score)%Z && PyNum.ltb dti_ratio 36 then "LIKELY"
        else if (580 <=? credit_score)%Z && PyNum.ltb dti_ratio 50 then "POSSIBLE"
        else "UNLIKELY" in
      let credit_factor :=
        if (720 <=? credit_score)%Z then "Strong"
        else if (650 <=? credit_score)%Z then "Adequate" else "Weak" in
      let dti_factor :=
        if PyNum.ltb dti_ratio 28 then "Good"
        else if PyNum.ltb dti_ratio 36 then "Adequate" else "High" in
      let income_factor :=
        if PyNum.leb 40000 annual_income then "Good"
        else if PyNum.leb 20000 annual_income then "Adequate" else "Low" in
      Ok {| eligibility := eligibility;
            estimated_apr_low := apr_low;
            estimated_apr_high := apr_high;
            estimated_monthly_low := PyNum.round2 monthly_low;
            estimated_monthly_high := PyNum.round2 monthly_high;
            dti_ratio := PyNum.round1 dti_ratio;
            credit_tier := credit_tier;
            factors := {| factor_credit_score := credit_factor;
                          factor_dti := dti_factor;
                          factor_income := income_factor |} |} in
    match computed with
    | Ok d => Json200 d
    | Raise e => Uncaught e
    end
  end.

(** *** Auto loan or lease *)

Record auto_loan_request := {
  vehicle_price : num_field;
  al_down_payment : num_field;
  loan_rate : num_field;
  loan_term_months : num_field;
  residual_value_pct : num_field;
  money_factor : num_field;
  lease_term_months : num_field;
  trade_in_value : num_field;
  sales_tax_rate : num_field
}.

Record loan_figures := {
  al_monthly_payment : Qc;
  al_total_paid : Qc;
  al_total_interest : Qc;
  equity_at_end : Qc
}.

Record lease_figures := {
  ls_monthly_payment : Qc;
  ls_total_paid : Qc;
  residual_value : Qc;
  equiv_apr : Qc;
  buyout_option : Qc
}.

(** The comparison; what the recommendation text is built from is kept
    in place of the text: the amount it shows and the lease term. *)
Record comparison := {
  cheaper_option : string;
  difference : Qc;
  saving_shown : Qc;
  over_months : Z
}.

Record auto_loan_data := {
  loan : loan_figures;
  lease : lease_figures;
  compared : comparison
}.

(** [abs(x)]. *)
Definition py_abs (x : Qc) : Qc := if PyNum.ltb x 0 then - x else x.

(** What the [try] block of the handler binds. *)
Definition auto_loan_parse (data : auto_loan_request)
  : result (Qc * Qc * Qc * Z * Qc * Qc * Z * Qc * Qc) :=
  vehicle_price ← float_required "vehicle_price" (vehicle_price data);
  down_payment ← float_default 0 (al_down_payment data);
  loan_rate ← float_default 7.0 (loan_rate data);
  loan_term_months ← int_default 60 (loan_term_months data);
  residual_pct ← float_default 55 (residual_value_pct data);
  money_factor ← float_default 0.00125 (money_factor data);
  lease_term_months ← int_default 36 (lease_term_months data);
  trade_in ← float_default 0 (trade_in_value data);
  sales_tax_rate ← float_default 8.0 (sales_tax_rate data);
  Ok (vehicle_price, down_payment, loan_rate, loan_term_months, residual_pct,
      money_factor, lease_term_months, trade_in, sales_tax_rate).

Definition api_auto_loan (data : auto_loan_request) : response auto_loan_data :=
  match auto_loan_parse data with
  | Raise exc => Json422 (ExceptionText exc)
  | Ok (vehicle_price, down_payment, loan_rate, loan_term_months, residual_pct,
        money_factor, lease_term_months, trade_in, sales_tax_rate) =>
    let computed :=
      let cap_cost_loan := vehicle_price - down_payment - trade_in in
      let tax_amount := vehicle_price * sales_tax_rate / 100 in
      let loan_amount := cap_cost_loan + tax_amount in
      loan_monthly ← _monthly_payment loan_amount loan_rate loan_term_months;
      let loan_total := loan_monthly * Qc_of_Z loan_term_months + down_payment in
      let loan_interest := loan_monthly * Qc_of_Z loan_term_months - loan_amount in
      let residual_value := vehicle_price * residual_pct / 100 in
      let equity_at_end := residual_value in
      let cap_cost_lease := vehicle_price - down_payment - trade_in in
      let residual_val := vehicle_price * residual_pct / 100 in
      depreciation_mo ←
        pydiv (cap_cost_lease - residual_val) (Qc_of_Z lease_term_months);
      let finance_charge := (cap_cost_lease + residual_val) * money_factor in
      let lease_monthly := depreciation_mo + finance_charge in
      let lease_total := lease_monthly * Qc_of_Z lease_term_months + down_payment in
      let apr_equiv := money_factor * 2400 in
      loan_monthly_same ← _monthly_payment loan_amount loan_rate lease_term_months;
      let loan_total_same :=
        loan_monthly_same * Qc_of_Z lease_term_months + down_payment in
      let diff := loan_total_same - lease_total in
      let '(cheaper, shown) :=
        if PyNum.ltb 0 diff then ("LEASE", diff) else ("LOAN", - diff) in
      Ok {| loan :=
              {| al_monthly_payment := PyNum.round2 loan_monthly;
                 al_total_paid := PyNum.round2 loan_total;
                 al_total_interest := PyNum.round2 loan_interest;
                 equity_at_end := PyNum.round2 equity_at_end |};
            lease :=
              {| ls_monthly_payment := PyNum.round2 lease_monthly;
                 ls_total_paid := PyNum.round2 lease_total;
                 residual_value := PyNum.round2 residual_val;
                 equiv_apr := PyNum.round2 apr_equiv;
                 buyout_option := PyNum.round2 residual_val |};
            compared :=
              {| cheaper_option := cheaper;
                 difference := PyNum.round2 (py_abs diff);
                 saving_shown := shown;
                 over_months := lease_term_months |} |} in
    match computed with
    | Ok d => Json200 d
    | Raise e => Uncaught e
    end
  end.

End Debt.

(* ================================================================== *)
(** ** Vocabulary of the statements *)

Module Spec.

(** A bracket table: upper bounds strictly increasing from the lower end
    [prev] of the first band, and the last one unbounded. *)
Fixpoint increasing_from (prev : bound) (bs : brackets) : Prop :=
  match bs with
  | [] => True
  | (upper, _) :: rest => bound_lt prev upper /\ increasing_from upper rest
  end.

Definition last_unbounded (bs : brackets) : Prop :=
  exists rate, last bs = Some (Inf, rate).

Definition bracket_table (bs : brackets) : Prop :=
  increasing_from (Fin 0) bs /\ last_unbounded bs.

Definition rates_nonneg (bs : brackets) : Prop :=
  Forall (fun b => 0 <= snd b) bs.

(** The tax of each band the bracket loop goes through, before any
    rounding. *)
Fixpoint band_taxes (taxable_income : Qc) (bs : brackets) (prev_upper : bound)
  : list Qc :=
  match bs with
  | [] => []
  | (upper, rate) :: rest =>
    match prev_upper with
    | Inf => []
    | Fin prev =>
      if PyNum.leb taxable_income prev then []
      else
        let band_tax := (min_bound taxable_income upper - prev) * rate in
        if le_bound taxable_income upper then [band_tax]
        else band_tax :: band_taxes taxable_income rest upper
    end
  end.

(** Position [i] of a table holds the band that contains [x] when [x] is
    at most its upper bound and above the upper bound of the band before
    it: bands closed above, [(previous, upper]], the first one taking
    everything below its upper bound. *)
Definition in_closed_band (bs : brackets) (i : nat) (x : Qc) : Prop :=
  (exists u r, bs !! i = Some (u, r) /\ le_bound x u = true)
  /\ match i with
     | O => True
     | S j => exists u r, bs !! j = Some (u, r) /\ le_bound x u = false
     end.

(** Following the specification's words: the rate of the band
    [[previousUpperBound, currentUpperBound)] that contains [x], the
    first band starting at [prev]. *)
Fixpoint half_open_rate (x : Qc) (prev : Qc) (bs : brackets) : option Qc :=
  match bs with
  | [] => None
  | (Fin u, rate) :: rest =>
    if PyNum.leb prev x && PyNum.ltb x u then Some rate
    else half_open_rate x u rest
  | (Inf, rate) :: _ => if PyNum.leb prev x then Some rate else None
  end.

(** The taxable income of the two take-home functions with a
    marginal-rate loop over a dollar or pound table. *)
Definition us_taxable (gross : Qc) (filing : string) : Qc :=
  PyNum.max (gross - default (15000 : Qc) (Config.US_STANDARD_DEDUCTION !! filing)) 0.

Definition uk_taxable (gross : Qc) : Qc :=
  let pa := Config.UK_PERSONAL_ALLOWANCE in
  let pa := if PyNum.ltb Config.UK_PA_TAPER_START gross
            then PyNum.max (pa - (gross - Config.UK_PA_TAPER_START) / 2) 0
            else pa in
  PyNum.max (gross - pa) 0.

(** The filing status [_us_take_home] goes on with. *)
Definition us_filing (filing : string) : string :=
  if decide (is_Some (Config.US_TAX_BRACKETS !! filing)) then filing else "single".

(** The balance after each month of an amortization, before it is
    rounded for the schedule. *)
Fixpoint exact_balances (n : nat) (r payment balance : Qc) : list Qc :=
  match n with
  | O => []
  | S n' =>
    let balance := PyNum.max (balance - (payment - balance * r)) 0 in
    balance :: exact_balances n' r payment balance
  end.

(** Each entry is at most the one before it. *)
Fixpoint non_increasing (l : list Qc) : Prop :=
  match l with
  | x :: (y :: _) as rest => y <= x /\ non_increasing rest
  | _ => True
  end.

(** In a yearly row the buyer's net worth has reached the renter's. *)
Definition crossing (row : Mortgage.yearly_row) : Prop :=
  Mortgage.rent_net_worth row <= Mortgage.buy_net_worth row.

(** [be] is the year of the first crossing row of [rows], or nothing when
    no row crosses. *)
Definition first_crossing (rows : list Mortgage.yearly_row) (be : option Z)
  : Prop :=
  match be with
  | Some y =>
    exists before row after,
      rows = before ++ row :: after
      /\ Mortgage.year row = y /\ crossing row
      /\ Forall (fun r => ~ crossing r) before
  | None => Forall (fun r => ~ crossing r) rows
  end.

(** The same in terms of years: the rows are those of the years 1 to
    [horizon], and [be] is the smallest of these years whose row crosses,
    or nothing when there is none. *)
Definition smallest_crossing_year (horizon : Z)
    (rows : list Mortgage.yearly_row) (be : option Z) : Prop :=
  map Mortgage.year rows = map Z.of_nat (seq 1 (Z.to_nat horizon))
  /\ match be with
     | Some y =>
       (1 <= y <= horizon)%Z
       /\ (exists row, In row rows /\ Mortgage.year row = y /\ crossing row)
       /\ (forall row, In row rows -> (Mortgage.year row < y)%Z -> ~ crossing row)
     | None => forall row, In row rows -> ~ crossing row
     end.

(** One pass of the payoff loop on the balance alone. *)
Definition next_balance (monthly_rate min_pct min_floor extra b : Qc) : Qc :=
  let interest := b * monthly_rate in
  let min_pmt := PyNum.max (b * min_pct / 100) min_floor in
  let payment := PyNum.min (min_pmt + extra) (b + interest) in
  let principal := payment - interest in
  PyNum.max (b - principal) 0.

(** The balance [k] passes after [b], were the loop never to stop. *)
Fixpoint balance_after (monthly_rate min_pct min_floor extra : Qc)
    (k : nat) (b : Qc) : Qc :=
  match k with
  | O => b
  | S k' =>
    balance_after monthly_rate min_pct min_floor extra k'
      (next_balance monthly_rate min_pct min_floor extra b)
  end.

(** The balance is above 0.01 now and after each of the next [k]
    passes. *)
Fixpoint above_for (monthly_rate min_pct min_floor extra : Qc)
    (k : nat) (b : Qc) : bool :=
  PyNum.ltb 0.01 b
  && match k with
     | O => true
     | S k' =>
       above_for monthly_rate min_pct min_floor extra k'
         (next_balance monthly_rate min_pct min_floor extra b)
     end.

(** The simulation reaches the cap of 600 months with the balance still
    above 0.01: the balance is above 0.01 before every one of the 600
    passes, and after the last. *)
Definition capped (monthly_rate min_pct min_floor extra bal : Qc) : Prop :=
  above_for monthly_rate min_pct min_floor extra 600 bal = true.

(** The simulation pays the balance off: it is at most 0.01 after some
    number of passes, no more than 600. *)
Definition paid_off (monthly_rate min_pct min_floor extra bal : Qc) : Prop :=
  exists k, (k <= 600)%nat
    /\ balance_after monthly_rate min_pct min_floor extra k bal <= 0.01.

(** The number of entries of a list, as a number. *)
Definition count {A : Type} (l : list A) : Qc := Qc_of_Z (Z.of_nat (length l)).

(** What holds of the breakdown of a bracket routine [f]: every amount
    is its band's tax rounded to cents, the total is the rounded sum of
    the exact band taxes, and so the amounts add up to the total within
    half a cent per amount and half a cent for the total. *)
Definition breakdown_within_rounding
    (f : Qc -> brackets -> Qc * list Tax.applied_row)
    (taxable_income : Qc) (bs : brackets) : Prop :=
  let exact := band_taxes taxable_income bs (Fin 0) in
  let '(total, applied) := f taxable_income bs in
  map Tax.tax applied = map PyNum.round2 exact
  /\ total = PyNum.round2 (PyNum.sum exact)
  /\ - ((count applied + 1) * (1 # 200)%Q)
     <= PyNum.sum (map Tax.tax applied) - total
     <= (count applied + 1) * (1 # 200)%Q.

(** Every rate of a table lies between 0 and [rmax]. *)
Definition rates_within (rmax : Qc) (bs : brackets) : Prop :=
  Forall (fun b => 0 <= snd b /\ snd b <= rmax) bs.

(** A request field holds a number from [lo] to [hi]. *)
Definition number_within (f : num_field) (lo hi : Qc) : Prop :=
  exists v, f = Number v /\ lo <= v /\ v <= hi.

(** The figures of two student-loan answers agree: every key but the
    warning. *)
Definition same_figures (d d' : Debt.student_loan_data) : Prop :=
  Debt.sl_current_monthly d = Debt.sl_current_monthly d'
  /\ Debt.sl_new_monthly d = Debt.sl_new_monthly d'
  /\ Debt.sl_monthly_savings d = Debt.sl_monthly_savings d'
  /\ Debt.sl_total_interest_current d = Debt.sl_total_interest_current d'
  /\ Debt.sl_total_interest_new d = Debt.sl_total_interest_new d'
  /\ Debt.lifetime_savings d = Debt.lifetime_savings d'
  /\ Debt.sl_breakeven_months d = Debt.sl_breakeven_months d'
  /\ Debt.idr_monthly d = Debt.idr_monthly d'.

(** The tax and the take-home pay of an answer both lie between 0 and
    the gross pay. *)
Definition within_gross (r : Tax.take_home) : Prop :=
  0 <= Tax.total_tax r /\ Tax.total_tax r <= Tax.gross_annual r
  /\ 0 <= Tax.take_home_annual r /\ Tax.take_home_annual r <= Tax.gross_annual r.

(** [1 + a + ... + a^(n-1)]. *)
Fixpoint geometric_sum (a : Qc) (n : nat) : Qc :=
  match n with
  | O => 0
  | S k => geometric_sum a k + a ^ k
  end.

End Spec.

(* ================================================================== *)
(** * Properties *)

(** ** Arithmetic on [Qc], through the fractions underneath *)

Section ToQ.

Lemma this_plus (x y : Qc) : (this (x + y) == this x + this y)%Q.
Proof. apply Qred_correct. Qed.

Lemma this_mult (x y : Qc) : (this (x * y) == this x * this y)%Q.
Proof. apply Qred_correct. Qed.

Lemma this_opp (x : Qc) : (this (- x) == - this x)%Q.
Proof. apply Qred_correct. Qed.

Lemma this_minus (x y : Qc) : (this (x - y) == this x - this y)%Q.
Proof. unfold Qcminus. rewrite this_plus, this_opp. reflexivity. Qed.

Lemma this_inv (x : Qc) : (this (/ x) == / this x)%Q.
Proof. apply Qred_correct. Qed.

Lemma this_div (x y : Qc) : (this (x / y) == this x / this y)%Q.
Proof. unfold Qcdiv. rewrite this_mult, this_inv. reflexivity. Qed.

Lemma this_Q2Qc (q : Q) : (this (Q2Qc q) == q)%Q.
Proof. apply Qred_correct. Qed.

Lemma this_of_Z (z : Z) : this (Qc_of_Z z) = inject_Z z.
Proof. reflexivity. Qed.

Lemma Qc_eq_this (x y : Qc) : x = y <-> (this x == this y)%Q.
Proof. split; [intros ->; reflexivity | apply Qc_is_canon]. Qed.

End ToQ.

(** Move [this] inwards, through every operation, everywhere. *)
Ltac qc_push :=
  repeat match goal with
  | H : context [this (_ + _)] |- _ => rewrite this_plus in H
  | H : context [this (_ * _)] |- _ => rewrite this_mult in H
  | H : context [this (_ - _)] |- _ => rewrite this_minus in H
  | H : context [this (_ / _)] |- _ => rewrite this_div in H
  | H : context [this (- _)] |- _ => rewrite this_opp in H
  | H : context [this (/ _)] |- _ => rewrite this_inv in H
  | H : context [this (Q2Qc _)] |- _ => rewrite this_Q2Qc in H
  | H : context [this (Qc_of_Z _)] |- _ => rewrite this_of_Z in H
  | |- context [this (_ + _)] => rewrite this_plus
  | |- context [this (_ * _)] => rewrite this_mult
  | |- context [this (_ - _)] => rewrite this_minus
  | |- context [this (_ / _)] => rewrite this_div
  | |- context [this (- _)] => rewrite this_opp
  | |- context [this (/ _)] => rewrite this_inv
  | |- context [this (Q2Qc _)] => rewrite this_Q2Qc
  | |- context [this (Qc_of_Z _)] => rewrite this_of_Z
  end.

(** A division by a literal is a multiplication by its inverse, which
    the linear solver accepts. *)
Ltac q_consts :=
  unfold Qdiv in *;
  repeat match goal with
  | H : context [Qinv (Qmake ?n ?d)] |- _ =>
      let v := eval compute in (Qinv (Qmake n d)) in
      change (Qinv (Qmake n d)) with v in H
  | |- context [Qinv (Qmake ?n ?d)] =>
      let v := eval compute in (Qinv (Qmake n d)) in
      change (Qinv (Qmake n d)) with v
  end.

(** Turn every order or equality on [Qc], in the goal and the context,
    into one on [Q], where [lra], [nra] and [field] apply. *)
Ltac to_Q :=
  repeat match goal with
  | H : @eq Qc _ _ |- _ => apply Qc_eq_this in H
  | H : ~ @eq Qc _ _ |- _ => rewrite Qc_eq_this in H
  | H : Qcle _ _ |- _ => unfold Qcle in H
  | H : Qclt _ _ |- _ => unfold Qclt in H
  | H : ~ Qcle _ _ |- _ => apply Qcnot_le_lt in H
  | H : ~ Qclt _ _ |- _ => apply Qcnot_lt_le in H
  | H : _ /\ _ |- _ => destruct H
  end;
  repeat match goal with
  | |- _ /\ _ => split
  end;
  try match goal with
  | |- @eq Qc _ _ => apply Qc_is_canon
  | |- ~ @eq Qc _ _ => rewrite Qc_eq_this
  | |- Qcle _ _ => unfold Qcle
  | |- Qclt _ _ => unfold Qclt
  end;
  qc_push; q_consts.

Ltac qc_lra := to_Q; lra.
Ltac qc_nra := to_Q; nra.

(** ** Comparisons, [max], [min] *)

Section Comparisons.

Lemma leb_true (x y : Qc) : PyNum.leb x y = true <-> x <= y.
Proof. unfold PyNum.leb. apply bool_decide_eq_true. Qed.

Lemma leb_false (x y : Qc) : PyNum.leb x y = false <-> y < x.
Proof.
  unfold PyNum.leb. rewrite bool_decide_eq_false. split.
  - apply Qcnot_le_lt.
  - apply Qclt_not_le.
Qed.

Lemma ltb_true (x y : Qc) : PyNum.ltb x y = true <-> x < y.
Proof. unfold PyNum.ltb. apply bool_decide_eq_true. Qed.

Lemma ltb_false (x y : Qc) : PyNum.ltb x y = false <-> y <= x.
Proof.
  unfold PyNum.ltb. rewrite bool_decide_eq_false. split.
  - apply Qcnot_lt_le.
  - apply Qcle_not_lt.
Qed.

Lemma eqb_true (x y : Qc) : PyNum.eqb x y = true <-> x = y.
Proof. unfold PyNum.eqb. apply bool_decide_eq_true. Qed.

Lemma eqb_false (x y : Qc) : PyNum.eqb x y = false <-> x <> y.
Proof. unfold PyNum.eqb. apply bool_decide_eq_false. Qed.

Lemma max_spec (a b : Qc) :
  (a < b /\ PyNum.max a b = b) \/ (b <= a /\ PyNum.max a b = a).
Proof.
  unfold PyNum.max. destruct (PyNum.ltb a b) eqn:E.
  - left. split; [now apply ltb_true | reflexivity].
  - right. split; [now apply ltb_false | reflexivity].
Qed.

Lemma min_spec (a b : Qc) :
  (b < a /\ PyNum.min a b = b) \/ (a <= b /\ PyNum.min a b = a).
Proof.
  unfold PyNum.min. destruct (PyNum.ltb b a) eqn:E.
  - left. split; [now apply ltb_true | reflexivity].
  - right. split; [now apply ltb_false | reflexivity].
Qed.

End Comparisons.

(** Case analysis on every comparison, [max] and [min] in sight. *)
Ltac py_cases :=
  repeat match goal with
  | |- context [PyNum.max ?a ?b] =>
      let H := fresh "Hmax" in
      destruct (max_spec a b) as [[? H] | [? H]]; rewrite H in *; clear H
  | |- context [PyNum.min ?a ?b] =>
      let H := fresh "Hmin" in
      destruct (min_spec a b) as [[? H] | [? H]]; rewrite H in *; clear H
  | H0 : context [PyNum.max ?a ?b] |- _ =>
      let H := fresh "Hmax" in
      destruct (max_spec a b) as [[? H] | [? H]]; rewrite H in *; clear H
  | H0 : context [PyNum.min ?a ?b] |- _ =>
      let H := fresh "Hmin" in
      destruct (min_spec a b) as [[? H] | [? H]]; rewrite H in *; clear H
  end.

(** ** Rounding *)

Section Rounding.

Lemma round_half_even_near (x : Qc) :
  (inject_Z (PyNum.round_half_even x) - (1 # 2) <= this x
   <= inject_Z (PyNum.round_half_even x) + (1 # 2))%Q.
Proof.
  unfold PyNum.round_half_even.
  pose proof (Qfloor_le (this x)) as Hlo.
  pose proof (Qlt_floor (this x)) as Hhi.
  rewrite inject_Z_plus in Hhi. change (inject_Z 1) with 1%Q in Hhi.
  set (f := Qfloor (this x)) in *.
  destruct (Qccompare (x - Qc_of_Z f) (1 # 2)%Q) eqn:E.
  - apply Qceq_alt in E.
    destruct (Z.even f); to_Q; rewrite ?inject_Z_plus;
      change (inject_Z 1) with 1%Q; lra.
  - apply Qclt_alt in E. to_Q; lra.
  - apply Qcgt_alt in E. to_Q;
      rewrite inject_Z_plus; change (inject_Z 1) with 1%Q; lra.
Qed.

Lemma round_half_even_mono (x y : Qc) :
  x <= y -> (PyNum.round_half_even x <= PyNum.round_half_even y)%Z.
Proof.
  intros Hxy.
  assert (Hf : (Qfloor (this x) <= Qfloor (this y))%Z)
    by (apply Qfloor_resp_le; exact Hxy).
  unfold PyNum.round_half_even.
  pose proof (Qfloor_le (this x)) as Hlx.
  pose proof (Qlt_floor (this x)) as Hhx.
  pose proof (Qfloor_le (this y)) as Hly.
  pose proof (Qlt_floor (this y)) as Hhy.
  rewrite inject_Z_plus in Hhx, Hhy. change (inject_Z 1) with 1%Q in Hhx, Hhy.
  set (f := Qfloor (this x)) in *. set (g := Qfloor (this y)) in *.
  destruct (Z.eq_dec f g) as [Heq | Hne].
  - rewrite <- Heq in *.
    destruct (Qccompare (x - Qc_of_Z f) (1 # 2)%Q) eqn:Ex;
    destruct (Qccompare (y - Qc_of_Z f) (1 # 2)%Q) eqn:Ey;
    try (destruct (Z.even f)); try lia;
    repeat match goal with
    | H : Qccompare _ _ = Eq |- _ => apply Qceq_alt in H
    | H : Qccompare _ _ = Lt |- _ => apply Qclt_alt in H
    | H : Qccompare _ _ = Gt |- _ => apply Qcgt_alt in H
    end; exfalso; to_Q; lra.
  - assert ((f + 1 <= g)%Z) by lia.
    destruct (Qccompare (x - Qc_of_Z f) (1 # 2)%Q);
    destruct (Qccompare (y - Qc_of_Z g) (1 # 2)%Q);
    try (destruct (Z.even f)); try (destruct (Z.even g)); lia.
Qed.

Lemma round2_near (x : Qc) :
  x - (1 # 200)%Q <= PyNum.round2 x <= x + (1 # 200)%Q.
Proof.
  unfold PyNum.round2.
  destruct (round_half_even_near (x * 100)) as [H1 H2].
  to_Q; lra.
Qed.

Lemma round2_mono (x y : Qc) : x <= y -> PyNum.round2 x <= PyNum.round2 y.
Proof.
  intros Hxy. unfold PyNum.round2.
  assert (H : x * 100 <= y * 100) by qc_lra.
  apply round_half_even_mono in H. rewrite Zle_Qle in H.
  to_Q. lra.
Qed.

Lemma round2_zero : PyNum.round2 0 = 0.
Proof. apply Qc_is_canon. reflexivity. Qed.

Lemma round2_nonneg (x : Qc) : 0 <= x -> 0 <= PyNum.round2 x.
Proof. intros H. rewrite <- round2_zero. now apply round2_mono. Qed.

End Rounding.

(** ** Progressive brackets *)

Section Brackets.

Import Tax Spec.

Lemma apply_loop_total sign x bs : forall t prev acc,
  fst (apply_loop sign x bs t prev acc) = fold_left Qcplus (band_taxes x bs prev) t.
Proof.
  induction bs as [| [u r] rest IH]; intros t prev acc; simpl; [reflexivity |].
  destruct prev as [p |]; [| reflexivity].
  destruct (PyNum.leb x p); [reflexivity |].
  destruct (le_bound x u); simpl; [reflexivity | apply IH].
Qed.

Lemma apply_loop_rows sign x bs : forall t prev acc,
  map tax (snd (apply_loop sign x bs t prev acc))
  = map tax acc ++ map PyNum.round2 (band_taxes x bs prev).
Proof.
  induction bs as [| [u r] rest IH]; intros t prev acc; simpl;
    [now rewrite app_nil_r |].
  destruct prev as [p |]; [| now rewrite app_nil_r].
  destruct (PyNum.leb x p); [now rewrite app_nil_r |].
  destruct (le_bound x u); simpl.
  - now rewrite map_app.
  - rewrite IH, map_app, <- app_assoc. reflexivity.
Qed.

Lemma count_nil {A : Type} : count (@nil A) = 0.
Proof. apply Qc_is_canon. reflexivity. Qed.

Lemma count_cons {A : Type} (a : A) (l : list A) : count (a :: l) = count l + 1.
Proof.
  unfold count. simpl length. rewrite Nat2Z.inj_succ. unfold Z.succ.
  to_Q. rewrite inject_Z_plus. reflexivity.
Qed.

(** Summing the rounded amounts instead of the exact ones moves the sum
    by at most half a cent per amount. *)
Lemma fold_round2_near (l : list Qc) : forall a b,
  a - b - count l * (1 # 200)%Q
  <= fold_left Qcplus (map PyNum.round2 l) a - fold_left Qcplus l b
  <= a - b + count l * (1 # 200)%Q.
Proof.
  induction l as [| x l IH]; intros a b.
  - simpl. rewrite count_nil. qc_lra.
  - simpl fold_left. simpl map. simpl fold_left.
    specialize (IH (a + PyNum.round2 x) (b + x)).
    rewrite count_cons. pose proof (round2_near x).
    set (u := fold_left Qcplus (map PyNum.round2 l) (a + PyNum.round2 x)) in *.
    set (v := fold_left Qcplus l (b + x)) in *.
    qc_lra.
Qed.

Lemma breakdown_near sign x bs :
  let '(total, applied) := apply_loop sign x bs 0 (Fin 0) [] in
  - ((count applied + 1) * (1 # 200)%Q)
  <= PyNum.sum (map tax applied) - PyNum.round2 total
  <= (count applied + 1) * (1 # 200)%Q.
Proof.
  pose proof (apply_loop_total sign x bs 0 (Fin 0) []) as Ht.
  pose proof (apply_loop_rows sign x bs 0 (Fin 0) []) as Hr.
  destruct (apply_loop sign x bs 0 (Fin 0) []) as [total applied].
  simpl in Ht, Hr. subst total. unfold PyNum.sum. rewrite Hr.
  assert (Hc : count applied = count (band_taxes x bs (Fin 0))).
  { unfold count. rewrite <- (length_map tax applied), Hr.
    now rewrite length_map. }
  rewrite Hc.
  pose proof (fold_round2_near (band_taxes x bs (Fin 0)) 0 0) as Hs.
  pose proof (round2_near (fold_left Qcplus (band_taxes x bs (Fin 0)) 0)) as Hn.
  set (s := fold_left Qcplus (map PyNum.round2 (band_taxes x bs (Fin 0))) 0) in *.
  set (e := fold_left Qcplus (band_taxes x bs (Fin 0)) 0) in *.
  set (c := count (band_taxes x bs (Fin 0))) in *.
  qc_lra.
Qed.

Lemma apply_brackets_breakdown sign x bs :
  breakdown_within_rounding
    (fun ti tbl => let '(t, a) := apply_loop sign ti tbl 0 (Fin 0) [] in
                   (PyNum.round2 t, a)) x bs.
Proof.
  unfold breakdown_within_rounding.
  pose proof (apply_loop_total sign x bs 0 (Fin 0) []) as Ht.
  pose proof (apply_loop_rows sign x bs 0 (Fin 0) []) as Hr.
  pose proof (breakdown_near sign x bs) as Hn.
  destruct (apply_loop sign x bs 0 (Fin 0) []) as [total applied].
  simpl in Ht, Hr. subst total.
  split; [exact Hr | split; [reflexivity | exact Hn]].
Qed.

(** *** Monotonicity of the accumulated tax *)

Lemma increasing_from_head prev u r rest :
  increasing_from prev ((u, r) :: rest) -> bound_lt prev u /\ increasing_from u rest.
Proof. intros H. exact H. Qed.

Lemma apply_loop_lower sign x bs : forall t prev acc,
  increasing_from prev bs -> rates_nonneg bs ->
  t <= fst (apply_loop sign x bs t prev acc).
Proof.
  induction bs as [| [u r] rest IH]; intros t prev acc Hinc Hr; simpl.
  - apply Qcle_refl.
  - destruct Hinc as [Hpu Hinc]. inversion Hr as [| ? ? Hr0 Hr']; subst.
    simpl in Hr0.
    destruct prev as [p |]; [| apply Qcle_refl].
    destruct (PyNum.leb x p) eqn:Exp; [apply Qcle_refl |].
    apply leb_false in Exp.
    destruct u as [q |]; simpl.
    + simpl in Hpu. destruct (PyNum.leb x q) eqn:Exq; simpl.
      * apply leb_true in Exq. py_cases; qc_nra.
      * apply leb_false in Exq.
        eapply Qcle_trans; [| apply IH; assumption].
        py_cases; qc_nra.
    + qc_nra.
Qed.

Lemma apply_loop_mono sign x y bs : forall t prev acc acc',
  increasing_from prev bs -> rates_nonneg bs -> x <= y ->
  fst (apply_loop sign x bs t prev acc) <= fst (apply_loop sign y bs t prev acc').
Proof.
  induction bs as [| [u r] rest IH]; intros t prev acc acc' Hinc Hr Hxy.
  - apply Qcle_refl.
  - pose proof (apply_loop_lower sign y ((u, r) :: rest) t prev acc' Hinc Hr) as Hlow.
    simpl in Hlow |- *.
    destruct Hinc as [Hpu Hinc]. inversion Hr as [| ? ? Hr0 Hr']; subst.
    simpl in Hr0.
    destruct prev as [p |]; [| apply Qcle_refl].
    destruct (PyNum.leb x p) eqn:Exp; [exact Hlow |].
    apply leb_false in Exp.
    assert (Eyp : PyNum.leb y p = false) by (apply leb_false; qc_lra).
    rewrite Eyp in Hlow |- *.
    destruct u as [q |]; simpl in *.
    + destruct (PyNum.leb x q) eqn:Exq; destruct (PyNum.leb y q) eqn:Eyq; simpl.
      * apply leb_true in Exq, Eyq. py_cases; qc_nra.
      * apply leb_true in Exq. apply leb_false in Eyq.
        eapply Qcle_trans; [| apply apply_loop_lower; assumption].
        py_cases; qc_nra.
      * apply leb_false in Exq. apply leb_true in Eyq. exfalso. qc_lra.
      * apply leb_false in Exq, Eyq.
        assert (Hm : PyNum.min x q = q)
          by (destruct (min_spec x q) as [[_ E] | [E _]];
              [exact E | exfalso; qc_lra]).
        assert (Hm' : PyNum.min y q = q)
          by (destruct (min_spec y q) as [[_ E] | [E _]];
              [exact E | exfalso; qc_lra]).
        rewrite Hm, Hm'. apply IH; assumption.
    + qc_nra.
Qed.

End Brackets.

Ltac qc_decide := apply (bool_decide_unpack _); vm_compute; exact I.

(** C1 (as amended).  For every bracket table and taxable income, both
    bracket routines return one breakdown amount per band gone through,
    each the band's tax rounded to cents, and a total that is the rounded
    sum of the exact band taxes; the amounts therefore add up to the
    total within half a cent per amount plus half a cent. *)
Theorem breakdown_sum_near_total (taxable_income : Qc) (bs : brackets) :
  Spec.breakdown_within_rounding Tax._apply_brackets taxable_income bs
  /\ Spec.breakdown_within_rounding Tax._india_apply_brackets taxable_income bs.
Proof.
  split.
  - exact (apply_brackets_breakdown "$" taxable_income bs).
  - exact (apply_brackets_breakdown "₹" taxable_income bs).
Qed.

(** C1 as written fails: on the table [(10.04, 10%), (inf, 10%)] and a
    taxable income of 20.08 the two breakdown amounts are 1.00 each and
    the total is 2.01. *)
Lemma breakdown_sum_counterexample :
  let bs := [band (Fin 10.04) 0.1; band Inf 0.1] in
  let r := Tax._apply_brackets 20.08 bs in
  Spec.bracket_table bs /\ 0 <= 20.08
  /\ length (snd r) = 2%nat
  /\ PyNum.sum (map Tax.tax (snd r)) = 2
  /\ fst r = 2.01
  /\ PyNum.sum (map Tax.tax (snd r)) <> fst r.
Proof.
  split; [split |].
  - simpl. repeat split.
  - exists 0.1. reflexivity.
  - repeat split; qc_decide.
Qed.

(** C2.  On a bracket table with non-negative rates the total tax does
    not decrease when the taxable income grows. *)
Theorem total_tax_monotone (bs : brackets) (x y : Qc) :
  Spec.bracket_table bs -> Spec.rates_nonneg bs -> 0 <= x -> x <= y ->
  fst (Tax._apply_brackets x bs) <= fst (Tax._apply_brackets y bs).
Proof.
  intros [Hinc _] Hr _ Hxy. unfold Tax._apply_brackets.
  pose proof (apply_loop_mono "$" x y bs 0 (Fin 0) [] [] Hinc Hr Hxy) as H.
  destruct (Tax.apply_loop "$" x bs 0 (Fin 0) []) as [tx ax].
  destruct (Tax.apply_loop "$" y bs 0 (Fin 0) []) as [ty ay].
  simpl in *. now apply round2_mono.
Qed.

Lemma total_tax_monotone_witness :
  fst (Tax._apply_brackets 50000 Config.UK_TAX_BRACKETS)
  <= fst (Tax._apply_brackets 60000 Config.UK_TAX_BRACKETS).
Proof.
  apply total_tax_monotone.
  - split.
    + simpl. repeat split.
    + exists 0.45. reflexivity.
  - repeat constructor; qc_decide.
  - qc_decide.
  - qc_decide.
Defined.

(** ** Take-home pay *)

Section TakeHome.

Import Tax Spec Config.

Lemma bind_Ok {A B : Type} (a : A) (k : A -> result B) : (Ok a ≫= k) = k a.
Proof. reflexivity. Qed.

Lemma getitem_some {V : Type} (d : gmap string V) (key : string) (v : V) :
  d !! key = Some v -> getitem d key = Ok v.
Proof. intros H. unfold getitem. now rewrite H. Qed.

Lemma us_filing_table (filing : string) :
  exists table, US_TAX_BRACKETS !! us_filing filing = Some table.
Proof.
  unfold us_filing. destruct (decide (is_Some (US_TAX_BRACKETS !! filing))) as [[t Ht] | _].
  - exists t. exact Ht.
  - eexists. reflexivity.
Qed.

Lemma us_filing_unknown (filing : string) :
  filing <> "single" -> filing <> "mfj" -> filing <> "hoh" ->
  us_filing filing = "single".
Proof.
  intros H1 H2 H3. unfold us_filing.
  destruct (decide (is_Some (US_TAX_BRACKETS !! filing))) as [[t Ht] | _];
    [| reflexivity].
  unfold US_TAX_BRACKETS in Ht.
  rewrite !lookup_insert_ne in Ht by congruence.
  rewrite lookup_empty in Ht. discriminate.
Qed.

Lemma us_filing_single : us_filing "single" = "single".
Proof. reflexivity. Qed.

Lemma state_other : getitem US_STATE_TAX "other" = Ok (0.05 : Qc).
Proof. reflexivity. Qed.

(** [_us_take_home] never raises, and its marginal rate is the loop's
    result on the taxable income and the table of the filing status. *)
Lemma us_take_home_returns (gross : Qc) (filing state : string) :
  exists res table,
    _us_take_home gross filing state = Ok res
    /\ US_TAX_BRACKETS !! us_filing filing = Some table
    /\ marginal_rate res
       = PyNum.round1 (marg_rate_loop (us_taxable gross (us_filing filing)) table).
Proof.
  destruct (us_filing_table filing) as [table Ht].
  unfold _us_take_home. fold (us_filing filing).
  rewrite !(getitem_some _ _ _ Ht), bind_Ok.
  fold (us_taxable gross (us_filing filing)).
  destruct (_apply_brackets _ table) as [fed applied].
  rewrite state_other, !bind_Ok.
  eexists. exists table. split; [reflexivity |]. split; [exact Ht |].
  reflexivity.
Qed.

Lemma uk_marginal_rate (gross : Qc) :
  marginal_rate (_uk_take_home gross)
  = PyNum.round1 (marg_rate_loop (uk_taxable gross) UK_TAX_BRACKETS).
Proof.
  unfold _uk_take_home. fold (uk_taxable gross).
  destruct (_apply_brackets (uk_taxable gross) UK_TAX_BRACKETS). reflexivity.
Qed.

(** Once [x] is above a bound of an increasing table, the loop skips
    everything up to it. *)
Lemma le_bound_false_lt (x : Qc) (u v : bound) :
  le_bound x v = false -> bound_lt u v -> le_bound x u = false.
Proof.
  destruct v as [q |]; simpl; [| discriminate].
  destruct u as [p |]; simpl; [| contradiction].
  intros H Hlt. apply leb_false in H. apply leb_false. qc_lra.
Qed.

Lemma marg_rate_in_band (x : Qc) (bs : brackets) : forall prev i u r,
  increasing_from prev bs -> bs !! i = Some (u, r) -> in_closed_band bs i x ->
  marg_rate_loop x bs = r * 100.
Proof.
  induction bs as [| [u0 r0] rest IH]; intros prev i u r Hinc Hi Hband.
  - discriminate.
  - destruct Hinc as [_ Hinc]. destruct Hband as [(u1 & r1 & Hi' & Hle) Hprev].
    rewrite Hi in Hi'. injection Hi' as <- <-.
    destruct i as [| j]; simpl in Hi |- *.
    + injection Hi as -> ->. now rewrite Hle.
    + assert (Hskip : le_bound x u0 = false).
      { destruct Hprev as (u' & r' & Hj & Hgt).
        destruct j as [| k]; simpl in Hj.
        - injection Hj as -> ->. exact Hgt.
        - clear IH Hi Hle. revert u0 Hinc k Hj.
          induction rest as [| [u2 r2] rest IHr]; intros u0 Hinc k Hj;
            [discriminate |].
          destruct Hinc as [Hlt Hinc].
          destruct k as [| k]; simpl in Hj.
          + injection Hj as -> ->. eapply le_bound_false_lt; eauto.
          + eapply le_bound_false_lt; [| exact Hlt]. eapply IHr; eauto. }
      rewrite Hskip. eapply IH; [exact Hinc | exact Hi |].
      split; [exists u, r; split; assumption |].
      destruct j as [| k]; [exact I | exact Hprev].
Qed.

Lemma us_tables_increasing (filing : string) (table : brackets) :
  US_TAX_BRACKETS !! filing = Some table -> increasing_from (Fin 0) table.
Proof.
  unfold US_TAX_BRACKETS. intros H.
  destruct (decide (filing = "single")) as [-> | N1];
    [rewrite lookup_insert_eq in H; injection H as <-; simpl; repeat split |].
  rewrite lookup_insert_ne in H by congruence.
  destruct (decide (filing = "mfj")) as [-> | N2];
    [rewrite lookup_insert_eq in H; injection H as <-; simpl; repeat split |].
  rewrite lookup_insert_ne in H by congruence.
  destruct (decide (filing = "hoh")) as [-> | N3];
    [rewrite lookup_insert_eq in H; injection H as <-; simpl; repeat split |].
  rewrite lookup_insert_ne in H by congruence.
  rewrite lookup_empty in H. discriminate.
Qed.

Lemma uk_table_increasing : increasing_from (Fin 0) UK_TAX_BRACKETS.
Proof. simpl. repeat split. Qed.

Lemma us_unknown_filing (gross : Qc) (filing state : string) :
  filing <> "single" -> filing <> "mfj" -> filing <> "hoh" ->
  _us_take_home gross filing state = _us_take_home gross "single" state.
Proof.
  intros H1 H2 H3. unfold _us_take_home.
  fold (us_filing filing). fold (us_filing "single").
  now rewrite (us_filing_unknown filing H1 H2 H3), us_filing_single.
Qed.

Lemma us_unknown_state (gross : Qc) (filing state : string) :
  US_STATE_TAX !! state = None ->
  _us_take_home gross filing state = _us_take_home gross filing "other".
Proof.
  intros Hs. unfold _us_take_home. rewrite Hs.
  change (US_STATE_TAX !! "other") with (Some (0.05 : Qc)).
  rewrite state_other. reflexivity.
Qed.

Lemma api_take_home_country (data : take_home_request) (gross : Qc) :
  gross_income data = Number gross ->
  let c := upper (default "US" (country data)) in
  (c = "US" \/ c = "UK" \/ c = "IN" -> exists r, api_take_home_pay data = Json200 r)
  /\ (c <> "US" -> c <> "UK" -> c <> "IN" ->
      api_take_home_pay data = Json422 (Message "Country must be US, UK, or IN")).
Proof.
  intros Hg c. unfold api_take_home_pay. rewrite Hg. simpl float_required.
  fold c. split.
  - intros Hc.
    destruct (decide (c = "US")) as [_ | N1].
    { destruct (us_take_home_returns gross
                  (lower (default "single" (filing_status data)))
                  (default "other" (state data))) as (res & table & -> & _).
      eexists. reflexivity. }
    destruct (decide (c = "UK")) as [_ | N2]; [eexists; reflexivity |].
    destruct (decide (c = "IN")) as [_ | N3]; [eexists; reflexivity |].
    destruct Hc as [? | [? | ?]]; contradiction.
  - intros N1 N2 N3.
    destruct (decide (c = "US")); [contradiction |].
    destruct (decide (c = "UK")); [contradiction |].
    destruct (decide (c = "IN")); [contradiction |].
    reflexivity.
Qed.

End TakeHome.

(** C7 (as amended).  The marginal rate the US and UK take-home
    functions report is the rate, in percent and rounded to one decimal,
    of the first bracket whose upper bound is at least the taxable
    income: a band is closed at its upper bound, so a taxable income equal
    to a bracket's upper bound is still in that bracket. *)
Theorem marginal_rate_closed_band
    (gross : Qc) (filing state : string) (us_table : brackets) :
  Config.US_TAX_BRACKETS !! Spec.us_filing filing = Some us_table ->
  (forall i u r,
     us_table !! i = Some (u, r) ->
     Spec.in_closed_band us_table i (Spec.us_taxable gross (Spec.us_filing filing)) ->
     exists res, Tax._us_take_home gross filing state = Ok res
                 /\ Tax.marginal_rate res = PyNum.round1 (r * 100))
  /\ (forall i u r,
       Config.UK_TAX_BRACKETS !! i = Some (u, r) ->
       Spec.in_closed_band Config.UK_TAX_BRACKETS i (Spec.uk_taxable gross) ->
       Tax.marginal_rate (Tax._uk_take_home gross) = PyNum.round1 (r * 100)).
Proof.
  intros Ht. split.
  - intros i u r Hi Hband.
    destruct (us_take_home_returns gross filing state) as (res & table & Hres & Ht' & Hm).
    rewrite Ht in Ht'. injection Ht' as <-.
    exists res. split; [exact Hres |]. rewrite Hm. f_equal.
    eapply marg_rate_in_band; eauto using us_tables_increasing.
  - intros i u r Hi Hband. rewrite uk_marginal_rate. f_equal.
    eapply marg_rate_in_band; eauto using uk_table_increasing.
Qed.

Lemma marginal_rate_closed_band_witness :
  (exists res, Tax._us_take_home 26925 "single" "TX" = Ok res
               /\ Tax.marginal_rate res = PyNum.round1 (0.10 * 100))
  /\ Tax.marginal_rate (Tax._uk_take_home 62840) = PyNum.round1 (0.20 * 100).
Proof.
  split.
  - refine (proj1 (marginal_rate_closed_band 26925 "single" "TX" _ eq_refl)
              0%nat (Fin 11925) 0.10 eq_refl _).
    split; [| exact I]. eexists _, _. split; [reflexivity | qc_decide].
  - refine (proj2 (marginal_rate_closed_band 62840 "single" "TX" _ eq_refl)
              0%nat (Fin 50270) 0.20 eq_refl _).
    split; [| exact I]. eexists _, _. split; [reflexivity | qc_decide].
Defined.

(** C7 as written fails: a single filer with a gross income of 26925 has
    a taxable income of 11925, the upper bound of the 10% bracket; the
    half-open band that contains it is the 12% one, and the reported
    marginal rate is 10.  The same at 50270 taxable in the UK. *)
Lemma marginal_rate_counterexample :
  let table := default [] (Config.US_TAX_BRACKETS !! "single") in
  Spec.us_taxable 26925 "single" = 11925
  /\ Spec.half_open_rate 11925 0 table = Some (0.12 : Qc)
  /\ (exists res, Tax._us_take_home 26925 "single" "TX" = Ok res
                  /\ Tax.marginal_rate res = 10
                  /\ Tax.marginal_rate res <> PyNum.round1 (0.12 * 100))
  /\ Spec.uk_taxable 62840 = 50270
  /\ Spec.half_open_rate 50270 0 Config.UK_TAX_BRACKETS = Some (0.40 : Qc)
  /\ Tax.marginal_rate (Tax._uk_take_home 62840) = 20.
Proof.
  split; [qc_decide |]. split; [qc_decide |]. split.
  - destruct (us_take_home_returns 26925 "single" "TX") as (res & table & Hres & Ht & Hm).
    exists res. split; [exact Hres |].
    change (Spec.us_filing "single") with "single" in *.
    injection Ht as <-. rewrite Hm. split; qc_decide.
  - split; [qc_decide |]. split; qc_decide.
Qed.

(** C10.  In [_us_take_home] a filing status outside single, mfj and hoh
    gives exactly the result of single, a state outside the state table
    gives exactly the result of 'other', and no input makes it raise; in
    the handler, once the gross income is a number, the answer is an
    error exactly when the country is none of US, UK and IN. *)
Theorem us_take_home_fallbacks :
  (forall gross filing state,
     filing <> "single" -> filing <> "mfj" -> filing <> "hoh" ->
     Tax._us_take_home gross filing state = Tax._us_take_home gross "single" state)
  /\ (forall gross filing state,
       Config.US_STATE_TAX !! state = None ->
       Tax._us_take_home gross filing state = Tax._us_take_home gross filing "other")
  /\ (forall gross filing state,
       exists res, Tax._us_take_home gross filing state = Ok res)
  /\ (forall data gross,
       Tax.gross_income data = Number gross ->
       let c := upper (default "US" (Tax.country data)) in
       (c = "US" \/ c = "UK" \/ c = "IN" ->
        exists r, Tax.api_take_home_pay data = Json200 r)
       /\ (c <> "US" -> c <> "UK" -> c <> "IN" ->
           Tax.api_take_home_pay data
           = Json422 (Message "Country must be US, UK, or IN"))).
Proof.
  split; [exact us_unknown_filing |].
  split; [exact us_unknown_state |].
  split; [| exact api_take_home_country].
  intros gross filing state.
  destruct (us_take_home_returns gross filing state) as (res & _ & Hres & _).
  exists res. exact Hres.
Qed.

Lemma us_take_home_fallbacks_witness :
  Tax._us_take_home 80000 "widow" "ZZ" = Tax._us_take_home 80000 "single" "other"
  /\ (exists r,
        Tax.api_take_home_pay
          {| Tax.gross_income := Number 80000; Tax.country := Some "us";
             Tax.filing_status := Some "widow"; Tax.state := Some "ZZ";
             Tax.pay_frequency := None; Tax.regime := None |} = Json200 r)
  /\ Tax.api_take_home_pay
       {| Tax.gross_income := Number 80000; Tax.country := Some "fr";
          Tax.filing_status := None; Tax.state := None;
          Tax.pay_frequency := None; Tax.regime := None |}
     = Json422 (Message "Country must be US, UK, or IN").
Proof.
  destruct us_take_home_fallbacks as (Hf & Hs & _ & Hapi).
  split; [| split].
  - rewrite (Hf 80000 "widow" "ZZ") by discriminate.
    apply Hs. reflexivity.
  - match goal with |- exists r, Tax.api_take_home_pay ?d = _ =>
      refine (proj1 (Hapi d 80000 eq_refl) _) end.
    left. reflexivity.
  - match goal with |- Tax.api_take_home_pay ?d = _ =>
      refine (proj2 (Hapi d 80000 eq_refl) _ _ _) end; discriminate.
Defined.

(** ** The annuity formula *)

Section Annuity.

Lemma pow_ge1 (a : Qc) (n : nat) : 1 <= a -> 1 <= a ^ n.
Proof.
  intros Ha. induction n as [| n IH]; simpl.
  - apply Qcle_refl.
  - set (p := a ^ n) in *. qc_nra.
Qed.

Lemma pow_gt1 (a : Qc) (n : nat) : 1 < a -> (0 < n)%nat -> 1 < a ^ n.
Proof.
  intros Ha Hn. destruct n as [| n]; [lia |]. simpl.
  assert (Hp : 1 <= a ^ n) by (apply pow_ge1; qc_lra).
  set (p := a ^ n) in *. qc_nra.
Qed.

Lemma pow_mono (a : Qc) (k n : nat) : 1 <= a -> (k <= n)%nat -> a ^ k <= a ^ n.
Proof.
  intros Ha Hkn. induction Hkn as [| n Hkn IH].
  - apply Qcle_refl.
  - simpl. assert (Hp : 1 <= a ^ k) by now apply pow_ge1.
    set (p := a ^ n) in *. set (q := a ^ k) in *. qc_nra.
Qed.

(** [n * r * (1 + r)^n >= (1 + r)^n - 1]: what makes the payments cover
    the principal. *)
Lemma annuity_bernoulli (r : Qc) (n : nat) :
  0 <= r -> (1 + r) ^ n - 1 <= Qc_of_Z (Z.of_nat n) * r * (1 + r) ^ n.
Proof.
  intros Hr. induction n as [| n IH].
  - simpl. to_Q. change (inject_Z (Z.of_nat 0)) with 0%Q. lra.
  - assert (Hp : 1 <= (1 + r) ^ n) by (apply pow_ge1; qc_lra).
    rewrite Nat2Z.inj_succ. unfold Z.succ. simpl Qcpower.
    set (p := (1 + r) ^ n) in *. to_Q. rewrite inject_Z_plus.
    change (inject_Z 1) with 1%Q.
    set (m := inject_Z (Z.of_nat n)) in *.
    assert (0 <= m)%Q.
    { unfold m. rewrite <- (Zle_Qle 0). lia. }
    nra.
Qed.

Lemma monthly_rate_pos (rate : Qc) : 0 < rate -> 0 < rate / 100 / 12.
Proof. intros H. qc_lra. Qed.

Lemma monthly_rate_nonneg (rate : Qc) : 0 <= rate -> 0 <= rate / 100 / 12.
Proof. intros H. qc_lra. Qed.

Lemma pydiv_ok (a b : Qc) : b <> 0 -> pydiv a b = Ok (a / b).
Proof.
  intros Hb. unfold pydiv.
  destruct (PyNum.eqb b 0) eqn:E; [apply eqb_true in E; contradiction | reflexivity].
Qed.

Lemma Qc_of_Z_nonzero (z : Z) : z <> 0%Z -> Qc_of_Z z <> 0.
Proof.
  intros Hz H. apply Qc_eq_this in H. simpl in H.
  unfold Qeq in H. simpl in H. lia.
Qed.

(** The payment at a positive rate and a term of at least one month. *)
Lemma monthly_payment_annuity (principal rate : Qc) (term : Z) :
  0 < rate -> (1 <= term)%Z ->
  let r := rate / 100 / 12 in
  let a := (1 + r) ^ Z.to_nat term in
  1 < a /\ Mortgage._monthly_payment principal rate term
           = Ok (principal * (r * a) / (a - 1)).
Proof.
  intros Hrate Hterm r a.
  assert (Hr : 0 < r) by now apply monthly_rate_pos.
  assert (Ha : 1 < a) by (apply pow_gt1; [qc_lra | lia]).
  split; [exact Ha |].
  unfold Mortgage._monthly_payment.
  destruct (PyNum.eqb rate 0) eqn:E.
  { apply eqb_true in E. subst rate. exfalso. qc_lra. }
  fold r. unfold pypow.
  assert (Hneg : (term <? 0)%Z = false) by (apply Z.ltb_ge; lia).
  rewrite Hneg. fold a. rewrite !bind_Ok.
  apply pydiv_ok. intros H. qc_lra.
Qed.

Lemma monthly_payment_zero_rate (principal : Qc) (term : Z) :
  Mortgage._monthly_payment principal 0 term
  = if (term =? 0)%Z then Ok 0 else Ok (principal / Qc_of_Z term).
Proof.
  unfold Mortgage._monthly_payment. change (PyNum.eqb 0 0) with true. cbv iota.
  destruct (term =? 0)%Z eqn:E; [reflexivity |].
  apply pydiv_ok, Qc_of_Z_nonzero. now apply Z.eqb_neq.
Qed.

Lemma debt_monthly_payment_same (principal rate : Qc) (term : Z) :
  Debt._monthly_payment principal rate term
  = Mortgage._monthly_payment principal rate term.
Proof. reflexivity. Qed.

Lemma monthly_payment_never_invalid (principal rate : Qc) (term : Z) :
  Mortgage._monthly_payment principal rate term <> Raise InvalidInput.
Proof.
  unfold Mortgage._monthly_payment, pydiv, pypow.
  repeat match goal with
  | |- context [if ?c then _ else _] => destruct c
  end; cbn; try discriminate;
  repeat match goal with
  | |- context [if ?c then _ else _] => destruct c
  end; discriminate.
Qed.

End Annuity.




(** ** Amortization schedules *)

Section Amortize.

Import Mortgage Spec.

Lemma amortize_loop_app (n : nat) : forall m r pmt b sched,
  amortize_loop n m r pmt b sched = sched ++ amortize_loop n m r pmt b [].
Proof.
  induction n as [| n IH]; intros m r pmt b sched; simpl.
  - now rewrite app_nil_r.
  - rewrite IH. rewrite (IH _ _ _ _ [_]). now rewrite <- app_assoc.
Qed.

Lemma amortize_loop_months (n : nat) : forall m r pmt b,
  map month (amortize_loop n m r pmt b [])
  = map (fun i => (m + Z.of_nat i)%Z) (seq 0 n).
Proof.
  induction n as [| n IH]; intros m r pmt b; [reflexivity |].
  simpl. rewrite amortize_loop_app, map_app, IH. simpl.
  rewrite Z.add_0_r. f_equal.
  rewrite <- seq_shift, map_map. apply map_ext. intros i. lia.
Qed.

Lemma amortize_loop_balances (n : nat) : forall m r pmt b,
  map balance (amortize_loop n m r pmt b [])
  = map PyNum.round2 (exact_balances n r pmt b).
Proof.
  induction n as [| n IH]; intros m r pmt b; [reflexivity |].
  simpl. rewrite amortize_loop_app, map_app, IH. reflexivity.
Qed.

Lemma exact_balances_decrease (r pmt : Qc) (n : nat) : forall b,
  0 <= r -> 0 <= b -> b * r <= pmt ->
  non_increasing (b :: exact_balances n r pmt b)
  /\ Forall (fun x => 0 <= x) (exact_balances n r pmt b).
Proof.
  induction n as [| n IH]; intros b Hr Hb Hpay.
  - split; [exact I | constructor].
  - cbn [exact_balances].
    set (b' := PyNum.max (b - (pmt - b * r)) 0).
    assert (Hb' : 0 <= b' /\ b' <= b).
    { unfold b'. destruct (max_spec (b - (pmt - b * r)) 0) as [[H ->] | [H ->]];
        split; qc_lra. }
    destruct Hb' as [H0 H1].
    assert (Hpay' : b' * r <= pmt) by qc_nra.
    destruct (IH b' Hr H0 Hpay') as [IH1 IH2].
    split.
    + split; [exact H1 | exact IH1].
    + constructor; assumption.
Qed.

Lemma non_increasing_round2 (l : list Qc) :
  non_increasing l -> non_increasing (map PyNum.round2 l).
Proof.
  induction l as [| x [| y l] IH]; intros H; try exact I.
  destruct H as [Hyx H]. split; [now apply round2_mono | now apply IH].
Qed.

Lemma non_increasing_tail (x : Qc) (l : list Qc) :
  non_increasing (x :: l) -> non_increasing l.
Proof. destruct l as [| y l]; [intros _; exact I | intros [_ H]; exact H]. Qed.

(** Closed form of the balance at a positive rate: after [j] of [n]
    months it is [P * (a - (1 + r)^j) / (a - 1)] with [a = (1 + r)^n]. *)
Lemma exact_balances_last (P r : Qc) (n : nat) :
  0 <= P -> 0 < r ->
  let a := (1 + r) ^ n in
  let pmt := P * (r * a) / (a - 1) in
  forall k j, (j + S k = n)%nat ->
    last (exact_balances (S k) r pmt (P * (a - (1 + r) ^ j) / (a - 1))) = Some 0.
Proof.
  intros HP Hr a pmt.
  assert (Hbase : 1 < 1 + r) by qc_lra.
  induction k as [| k IH]; intros j Hj.
  - cbn [exact_balances last].
    assert (Ha : a = (1 + r) * (1 + r) ^ j).
    { unfold a. replace n with (S j) by lia. reflexivity. }
    f_equal. unfold pmt. set (q := (1 + r) ^ j) in *.
    unfold Qcdiv. set (id := / (a - 1)).
    assert (E : P * (a - q) * id - (P * (r * a) * id - P * (a - q) * id * r) = 0).
    { rewrite Ha. to_Q. ring. }
    rewrite E. reflexivity.
  - cbn [exact_balances].
    set (b := P * (a - (1 + r) ^ j) / (a - 1)).
    assert (Hstep : PyNum.max (b - (pmt - b * r)) 0
                    = P * (a - (1 + r) ^ S j) / (a - 1)).
    { assert (Hge : (1 + r) ^ S j <= a)
        by (apply pow_mono; [qc_lra | lia]).
      assert (Ha1 : 1 < a) by (apply pow_gt1; [exact Hbase | lia]).
      assert (Hinv : (a - 1) * / (a - 1) = 1)
        by (apply Qcmult_inv_r; intros H; qc_lra).
      unfold b, pmt. simpl Qcpower in *. unfold Qcdiv.
      set (q := (1 + r) ^ j) in *. set (id := / (a - 1)) in *.
      assert (Eq : P * (a - q) * id - (P * (r * a) * id - P * (a - q) * id * r)
                   = P * (a - (1 + r) * q) * id) by (to_Q; ring).
      rewrite Eq.
      assert (Hid : 0 <= id) by qc_nra.
      assert (Hnum : 0 <= P * (a - (1 + r) * q)) by qc_nra.
      assert (Hnn : 0 <= P * (a - (1 + r) * q) * id).
      { set (u := P * (a - (1 + r) * q)) in *. qc_nra. }
      destruct (max_spec (P * (a - (1 + r) * q) * id) 0) as [[H ->] | [H ->]];
        [| reflexivity].
      exfalso. qc_lra. }
    rewrite Hstep.
    specialize (IH (S j) ltac:(lia)).
    cbn [exact_balances] in IH.
    destruct (exact_balances k r pmt _) eqn:El; exact IH.
Qed.

End Amortize.

Section Schedule.

Import Mortgage Spec.

Lemma last_map {A B : Type} (f : A -> B) (l : list A) :
  last (map f l) = option_map f (last l).
Proof.
  induction l as [| x [| y l] IH]; try reflexivity. exact IH.
Qed.

Lemma inv_pos (d : Qc) : 0 < d -> 0 < / d /\ d * / d = 1.
Proof.
  intros Hd.
  assert (H : d * / d = 1) by (apply Qcmult_inv_r; intros ->; qc_lra).
  split; [| exact H]. set (i := / d) in *. qc_nra.
Qed.

(** The payment covers the first month's interest, hence every month's. *)
Lemma payment_covers_interest (P rate : Qc) (term : Z) :
  0 <= P -> 0 <= rate -> (1 <= term)%Z ->
  exists pmt, _monthly_payment P rate term = Ok pmt
              /\ P * (rate / 100 / 12) <= pmt.
Proof.
  intros HP Hrate Hterm.
  destruct (Qc_eq_dec rate 0) as [-> | Hne].
  - rewrite monthly_payment_zero_rate.
    assert (E : (term =? 0)%Z = false) by (apply Z.eqb_neq; lia).
    rewrite E. eexists. split; [reflexivity |].
    assert (Ht : 0 < Qc_of_Z term).
    { unfold Qclt. simpl. rewrite <- (Zlt_Qlt 0). lia. }
    destruct (inv_pos _ Ht) as [Hi _]. unfold Qcdiv at 3.
    set (i := / Qc_of_Z term) in *. qc_nra.
  - assert (Hpos : 0 < rate).
    { destruct (Qclt_le_dec 0 rate) as [H | H]; [exact H |].
      exfalso. apply Hne. apply Qcle_antisym; assumption. }
    destruct (monthly_payment_annuity P rate term Hpos Hterm) as [Ha ->].
    pose proof (monthly_rate_pos rate Hpos) as Hr.
    set (r := rate / 100 / 12) in *. set (a := (1 + r) ^ Z.to_nat term) in *.
    eexists. split; [reflexivity |].
    destruct (inv_pos (a - 1)) as [Hi Hone]; [qc_lra |].
    unfold Qcdiv. set (i := / (a - 1)) in *.
    assert (Hu : 0 <= P * r) by qc_nra.
    set (u := P * r) in *.
    assert (Hui : 0 <= u * i) by qc_nra.
    assert (E : P * (r * a) * i = u * ((a - 1) * i) + u * i) by (unfold u; to_Q; ring).
    rewrite E, Hone. qc_lra.
Qed.





End Schedule.

(** ** Rent versus buy: the breakeven year *)

Section RentVsBuy.

Import Mortgage Spec.

Lemma year_step_row (i : rvb_inputs) (loan pmt : Qc) (amort : list amort_row)
    (yr : Z) (s : rvb_state) :
  exists row,
    yearly (year_step i loan pmt amort yr s) = yearly s ++ [row]
    /\ year row = yr
    /\ breakeven_year (year_step i loan pmt amort yr s)
       = match breakeven_year s with
         | None => if PyNum.leb (rent_net_worth row) (buy_net_worth row)
                   then Some yr else None
         | Some y => Some y
         end.
Proof. eexists. split; [reflexivity |]. split; reflexivity. Qed.

Lemma year_step_first_crossing i loan pmt amort yr s :
  first_crossing (yearly s) (breakeven_year s) ->
  first_crossing (yearly (year_step i loan pmt amort yr s))
                 (breakeven_year (year_step i loan pmt amort yr s)).
Proof.
  intros Hinv.
  destruct (year_step_row i loan pmt amort yr s) as (row & -> & Hy & ->).
  destruct (breakeven_year s) as [y |]; simpl in Hinv |- *.
  - destruct Hinv as (before & r & after & -> & Hyr & Hc & Hb).
    exists before, r, (after ++ [row]).
    split; [now rewrite <- app_assoc | auto].
  - destruct (PyNum.leb (rent_net_worth row) (buy_net_worth row)) eqn:E; simpl.
    + apply leb_true in E. exists (yearly s), row, []. auto.
    + apply leb_false in E. apply Forall_app. split; [exact Hinv |].
      constructor; [| constructor]. unfold crossing. now apply Qclt_not_le.
Qed.

Lemma year_loop_inv i loan pmt amort (n : nat) : forall yr s,
  first_crossing (yearly s) (breakeven_year s) ->
  let s' := year_loop i loan pmt amort n yr s in
  first_crossing (yearly s') (breakeven_year s')
  /\ map year (yearly s')
     = map year (yearly s) ++ map (fun k => (yr + Z.of_nat k)%Z) (seq 0 n).
Proof.
  induction n as [| n IH]; intros yr s Hinv; simpl.
  - split; [exact Hinv | now rewrite app_nil_r].
  - pose proof (year_step_first_crossing i loan pmt amort yr s Hinv) as Hstep.
    destruct (IH (yr + 1)%Z _ Hstep) as [H1 H2]. split; [exact H1 |].
    rewrite H2.
    destruct (year_step_row i loan pmt amort yr s) as (row & -> & Hy & _).
    rewrite map_app, <- app_assoc. simpl. rewrite Hy, Z.add_0_r. do 2 f_equal.
    rewrite <- seq_shift, List.map_map. apply map_ext. intros k. lia.
Qed.

(** Where an entry sits in the list of the years from [s] on. *)
Lemma years_split (l1 l2 : list Z) (x : Z) : forall s h,
  l1 ++ x :: l2 = map Z.of_nat (seq s h) ->
  x = Z.of_nat (s + length l1)
  /\ (length l1 < h)%nat
  /\ (forall z, In z l1 -> (z < x)%Z)
  /\ (forall z, In z l2 -> (x < z)%Z).
Proof.
  induction l1 as [| a l1 IH]; intros s h H.
  - destruct h as [| h]; [discriminate |]. simpl in H. injection H as -> ->.
    split; [simpl; f_equal; lia |]. split; [simpl; lia |].
    split; [intros z [] |].
    intros z Hz. apply in_map_iff in Hz. destruct Hz as (k & <- & Hk).
    apply in_seq in Hk. lia.
  - destruct h as [| h]; [discriminate |]. simpl in H. injection H as -> H.
    destruct (IH _ _ H) as (Hx & Hlen & Hlt & Hgt).
    split; [rewrite Hx; simpl; f_equal; lia |]. split; [simpl; lia |].
    split; [| exact Hgt].
    intros z [<- | Hz]; [rewrite Hx; lia | now apply Hlt].
Qed.

Lemma first_crossing_smallest (h : Z) (rows : list yearly_row) (be : option Z) :
  map year rows = map Z.of_nat (seq 1 (Z.to_nat h)) ->
  first_crossing rows be -> smallest_crossing_year h rows be.
Proof.
  intros Hy Hf. split; [exact Hy |].
  destruct be as [y |]; simpl in Hf.
  - destruct Hf as (before & row & after & -> & Hyr & Hc & Hb).
    rewrite map_app in Hy. simpl in Hy.
    destruct (years_split _ _ _ _ _ Hy) as (Hx & Hlen & Hlt & Hgt).
    rewrite length_map in Hx, Hlen. rewrite Hyr in Hx, Hlt, Hgt.
    split; [lia |]. split.
    + exists row. split; [apply in_elt | auto].
    + intros r Hin Hr. apply in_app_or in Hin.
      destruct Hin as [Hin | [<- | Hin]].
      * rewrite List.Forall_forall in Hb. now apply Hb.
      * lia.
      * assert (y < year r)%Z by (apply Hgt; now apply in_map). lia.
  - intros row Hin. rewrite List.Forall_forall in Hf. now apply Hf.
Qed.

Lemma rvb_compute_breakeven (i : rvb_inputs) (d : rvb_data) :
  rvb_compute i = Ok d ->
  smallest_crossing_year (Z.min (in_years i) 30)
    (yearly_comparison d) (data_breakeven_year d).
Proof.
  unfold rvb_compute. intros H.
  destruct (_monthly_payment _ _ _) as [pmt | e]; [| discriminate].
  rewrite bind_Ok in H.
  destruct (_amortize _ _ _) as [amort | e]; [| discriminate].
  rewrite bind_Ok in H. cbv zeta in H.
  match type of H with
  | context [year_loop ?a ?b ?c ?e ?n ?y ?s0] =>
      pose proof (year_loop_inv a b c e n y s0) as Hinv;
      set (s := year_loop a b c e n y s0) in *
  end.
  destruct Hinv as [Hf Hy]; [simpl; constructor |].
  simpl in Hy.
  destruct (last (yearly s)) as [last_row |]; [| discriminate].
  injection H as <-. simpl.
  apply first_crossing_smallest; [| exact Hf].
  rewrite Hy, <- seq_shift, List.map_map. apply map_ext. intros k. lia.
Qed.

End RentVsBuy.

(** C8.  Whenever the rent-versus-buy handler answers with data, the
    yearly rows are those of the years 1 to the horizon (the requested
    years, at most 30), and breakeven_year is the smallest of these
    years whose rounded buyer net worth is at least the rounded renter
    net worth, null when no year has it. *)
Theorem breakeven_is_first_crossing
    (data : Mortgage.rvb_request) (d : Mortgage.rvb_data) :
  Mortgage.api_rent_vs_buy data = Json200 d ->
  exists i,
    Mortgage.rvb_parse data = Ok i
    /\ Spec.smallest_crossing_year (Z.min (Mortgage.in_years i) 30)
         (Mortgage.yearly_comparison d) (Mortgage.data_breakeven_year d).
Proof.
  unfold Mortgage.api_rent_vs_buy. intros H.
  destruct (Mortgage.rvb_parse data) as [i | e]; [| discriminate].
  exists i. split; [reflexivity |].
  destruct (Mortgage.rvb_compute i) as [d' | e] eqn:E; [| discriminate].
  injection H as <-. now apply rvb_compute_breakeven.
Qed.

Lemma breakeven_is_first_crossing_witness :
  let data :=
    {| Mortgage.home_price := Number 100000;
       Mortgage.down_payment_pct := Absent;
       Mortgage.mortgage_rate := Number 6;
       Mortgage.term_years := Number 2;
       Mortgage.annual_home_growth := Number 0;
       Mortgage.monthly_rent := Number 250;
       Mortgage.annual_rent_increase := Number 0;
       Mortgage.investment_return := Number 0;
       Mortgage.property_tax_rate := Absent;
       Mortgage.maintenance_pct := Absent;
       Mortgage.insurance_monthly := Absent;
       Mortgage.years := Number 2 |} in
  exists d i,
    Mortgage.api_rent_vs_buy data = Json200 d
    /\ Mortgage.data_breakeven_year d = Some 2%Z
    /\ Mortgage.rvb_parse data = Ok i
    /\ Spec.smallest_crossing_year (Z.min (Mortgage.in_years i) 30)
         (Mortgage.yearly_comparison d) (Mortgage.data_breakeven_year d).
Proof.
  intros data.
  assert (Hb : match Mortgage.api_rent_vs_buy data with
               | Json200 d => Mortgage.data_breakeven_year d
               | _ => None
               end = Some 2%Z) by (vm_compute; reflexivity).
  destruct (Mortgage.api_rent_vs_buy data) as [d | e | e] eqn:E;
    [| discriminate Hb | discriminate Hb].
  destruct (breakeven_is_first_crossing data d E) as (i & Hp & Hs).
  exists d, i.
  split; [reflexivity |]. split; [exact Hb |]. split; [exact Hp | exact Hs].
Defined.

(** ** Credit-card payoff *)

Section Payoff.

Import Debt Spec.

Variables rate pct floor : Qc.

Lemma payoff_loop_step (extra : Qc) (fuel : nat) (m : Z) (b ti tp : Qc)
    (sched : list sim_row) :
  PyNum.ltb 0.01 b && (m <? 600)%Z = true ->
  exists tp' sched',
    payoff_loop rate pct floor extra (S fuel) m b ti tp sched
    = payoff_loop rate pct floor extra fuel (m + 1)%Z
        (next_balance rate pct floor extra b) (ti + b * rate) tp' sched'.
Proof.
  intros Hc. simpl. rewrite Hc. eexists _, _. reflexivity.
Qed.

Lemma payoff_loop_stop (extra : Qc) (fuel : nat) (m : Z) (b ti tp : Qc)
    (sched : list sim_row) :
  PyNum.ltb 0.01 b && (m <? 600)%Z = false ->
  payoff_loop rate pct floor extra fuel m b ti tp sched
  = {| months := m; total_interest := ti; total_paid := tp; schedule := sched |}.
Proof.
  intros Hc. destruct fuel as [| fuel]; simpl; [reflexivity |].
  now rewrite Hc.
Qed.

Lemma next_balance_nonneg (extra b : Qc) : 0 <= next_balance rate pct floor extra b.
Proof.
  unfold next_balance.
  match goal with
  | |- 0 <= PyNum.max ?x 0 =>
      destruct (max_spec x 0) as [[H ->] | [H ->]]; [apply Qcle_refl | exact H]
  end.
Qed.

(** A lower balance and an extra payment leave a lower balance. *)
Lemma next_balance_mono (extra be b0 : Qc) :
  0 <= rate -> 0 <= extra -> 0 <= be -> be <= b0 ->
  next_balance rate pct floor extra be <= next_balance rate pct floor 0 b0.
Proof.
  intros Hr He Hbe Hle. unfold next_balance.
  assert (Hir : be * rate <= b0 * rate) by qc_nra.
  destruct (Qclt_le_dec (1 + rate - pct / 100) 0) as [Hneg | Hpos].
  - assert (H1 : be * (1 + rate - pct / 100) <= 0) by qc_nra.
    assert (H2 : b0 * (1 + rate - pct / 100) <= 0) by qc_nra.
    py_cases; qc_lra.
  - assert (H1 : be * (1 + rate - pct / 100) <= b0 * (1 + rate - pct / 100))
      by qc_nra.
    py_cases; qc_lra.
Qed.

(** A run never lowers the month count or the accumulated interest. *)
Lemma payoff_loop_grows (extra : Qc) (fuel : nat) : forall m b ti tp sched,
  0 <= rate -> 0 <= b ->
  let s := payoff_loop rate pct floor extra fuel m b ti tp sched in
  (m <= months s)%Z /\ ti <= total_interest s.
Proof.
  induction fuel as [| fuel IH]; intros m b ti tp sched Hr Hb.
  - simpl. split; [lia | apply Qcle_refl].
  - destruct (PyNum.ltb 0.01 b && (m <? 600)%Z) eqn:Hc.
    + destruct (payoff_loop_step extra fuel m b ti tp sched Hc) as (tp' & sched' & ->).
      destruct (IH (m + 1)%Z (next_balance rate pct floor extra b)
                   (ti + b * rate) tp' sched' Hr
                   (next_balance_nonneg extra b)) as [H1 H2].
      split; [lia |]. assert (0 <= b * rate) by qc_nra. qc_lra.
    + rewrite payoff_loop_stop by exact Hc. simpl.
      split; [lia | apply Qcle_refl].
Qed.

(** Two runs side by side: the one with the extra payment, started from
    a balance that is not higher, ends no later and adds no more
    interest. *)
Lemma payoff_loop_lockstep (extra : Qc) (fuel : nat) :
  forall m be b0 tie ti0 tpe tp0 se s0,
  0 <= rate -> 0 <= extra -> 0 <= be -> be <= b0 ->
  let re := payoff_loop rate pct floor extra fuel m be tie tpe se in
  let r0 := payoff_loop rate pct floor 0 fuel m b0 ti0 tp0 s0 in
  (months re <= months r0)%Z
  /\ total_interest re - tie <= total_interest r0 - ti0.
Proof.
  induction fuel as [| fuel IH]; intros m be b0 tie ti0 tpe tp0 se s0 Hr He Hbe Hle.
  - simpl. split; [lia | qc_lra].
  - assert (Hb0 : 0 <= b0) by qc_lra.
    destruct (PyNum.ltb 0.01 be && (m <? 600)%Z) eqn:Hce.
    + assert (Hc0 : PyNum.ltb 0.01 b0 && (m <? 600)%Z = true).
      { apply andb_true_iff in Hce. destruct Hce as [H1 H2].
        apply andb_true_iff. split; [| exact H2].
        apply ltb_true in H1. apply ltb_true. qc_lra. }
      destruct (payoff_loop_step extra fuel m be tie tpe se Hce) as (tpe' & se' & ->).
      destruct (payoff_loop_step 0 fuel m b0 ti0 tp0 s0 Hc0) as (tp0' & s0' & ->).
      destruct (IH (m + 1)%Z (next_balance rate pct floor extra be)
                   (next_balance rate pct floor 0 b0)
                   (tie + be * rate) (ti0 + b0 * rate) tpe' tp0' se' s0'
                   Hr He (next_balance_nonneg extra be)
                   (next_balance_mono extra be b0 Hr He Hbe Hle)) as [H1 H2].
      split; [exact H1 |].
      assert (Hir : be * rate <= b0 * rate) by qc_nra.
      qc_lra.
    + rewrite (payoff_loop_stop extra (S fuel)) by exact Hce.
      pose proof (payoff_loop_grows 0 (S fuel) m b0 ti0 tp0 s0 Hr Hb0) as Hg.
      cbv zeta in Hg.
      set (r0 := payoff_loop rate pct floor 0 (S fuel) m b0 ti0 tp0 s0) in *.
      destruct Hg as [H1 H2]. cbn [months total_interest].
      split; [exact H1 | qc_lra].
Qed.

(** The month count stays between where it starts and the cap. *)
Lemma payoff_loop_range (extra : Qc) (fuel : nat) : forall m b ti tp sched,
  (0 <= m <= 600)%Z ->
  (m <= months (payoff_loop rate pct floor extra fuel m b ti tp sched) <= 600)%Z.
Proof.
  induction fuel as [| fuel IH]; intros m b ti tp sched Hm; [simpl; lia |].
  destruct (PyNum.ltb 0.01 b && (m <? 600)%Z) eqn:Hc.
  - destruct (payoff_loop_step extra fuel m b ti tp sched Hc) as (tp' & sched' & ->).
    apply andb_true_iff in Hc. destruct Hc as [_ Hlt]. apply Z.ltb_lt in Hlt.
    specialize (IH (m + 1)%Z (next_balance rate pct floor extra b)
                   (ti + b * rate) tp' sched' ltac:(lia)). lia.
  - rewrite payoff_loop_stop by exact Hc. simpl. lia.
Qed.

(** A balance that stays above 0.01 runs the loop to the cap. *)
Lemma payoff_loop_capped (extra : Qc) (fuel : nat) : forall m b ti tp sched,
  (m + Z.of_nat fuel = 600)%Z ->
  above_for rate pct floor extra fuel b = true ->
  months (payoff_loop rate pct floor extra fuel m b ti tp sched) = 600%Z.
Proof.
  induction fuel as [| fuel IH]; intros m b ti tp sched Hm Hab.
  - simpl. lia.
  - simpl in Hab. apply andb_true_iff in Hab. destruct Hab as [Hb Hnext].
    assert (Hc : PyNum.ltb 0.01 b && (m <? 600)%Z = true).
    { rewrite Hb. simpl. apply Z.ltb_lt. lia. }
    destruct (payoff_loop_step extra fuel m b ti tp sched Hc) as (tp' & sched' & ->).
    apply IH; [lia | exact Hnext].
Qed.

End Payoff.



(** What the credit-card handler answers to a parsed request. *)
Lemma credit_card_answer
    (data : Debt.cc_request) (bal apr pct floor extra : Qc) :
  Debt.cc_parse data = Ok (bal, apr, pct, floor, extra) ->
  let rate := apr / 100 / 12 in
  exists d,
    Debt.api_credit_card data = Json200 d
    /\ Debt.mo_months_to_payoff (Debt.minimum_only d)
       = Debt.months (Debt.payoff_sim rate pct floor bal 0)
    /\ Debt.we_months_to_payoff (Debt.with_extra d)
       = Debt.months (Debt.payoff_sim rate pct floor bal extra)
    /\ (0 <= Debt.mo_months_to_payoff (Debt.minimum_only d) <= 600)%Z
    /\ (0 <= Debt.we_months_to_payoff (Debt.with_extra d) <= 600)%Z
    /\ (Spec.capped rate pct floor 0 bal ->
        Debt.mo_months_to_payoff (Debt.minimum_only d) = 600%Z)
    /\ (Spec.capped rate pct floor extra bal ->
        Debt.we_months_to_payoff (Debt.with_extra d) = 600%Z).
Proof.
  intros Hparse rate. unfold Debt.api_credit_card. rewrite Hparse. fold rate.
  eexists. split; [reflexivity |]. cbn [Debt.minimum_only Debt.with_extra
    Debt.mo_months_to_payoff Debt.we_months_to_payoff].
  split; [reflexivity |]. split; [reflexivity |].
  unfold Debt.payoff_sim.
  split; [apply payoff_loop_range; lia |].
  split; [apply payoff_loop_range; lia |].
  split; intros Hc; (apply payoff_loop_capped; [lia | exact Hc]).
Qed.




(* ================================================================== *)
(** * Further properties of the calculators *)

Section MoreRounding.

Lemma round_half_even_of_Z (z : Z) : PyNum.round_half_even (Qc_of_Z z) = z.
Proof.
  pose proof (round_half_even_near (Qc_of_Z z)) as [H1 H2].
  rewrite this_of_Z in H1, H2.
  set (w := PyNum.round_half_even (Qc_of_Z z)) in *.
  assert (Hlo : (inject_Z w < inject_Z (z + 1))%Q)
    by (rewrite inject_Z_plus; change (inject_Z 1) with 1%Q; lra).
  assert (Hhi : (inject_Z z < inject_Z (w + 1))%Q)
    by (rewrite inject_Z_plus; change (inject_Z 1) with 1%Q; lra).
  rewrite <- Zlt_Qlt in Hlo, Hhi. lia.
Qed.

(** Rounding to cents a number of cents changes nothing. *)
Lemma round2_idem (x : Qc) : PyNum.round2 (PyNum.round2 x) = PyNum.round2 x.
Proof.
  unfold PyNum.round2 at 1.
  set (z := PyNum.round_half_even (x * 100)).
  assert (E : PyNum.round2 x * 100 = Qc_of_Z z).
  { unfold PyNum.round2. fold z. to_Q. field. }
  rewrite E, round_half_even_of_Z. reflexivity.
Qed.

Lemma round2_div_1 (x : Qc) : PyNum.round2 (PyNum.round2 x / 1) = PyNum.round2 x.
Proof.
  assert (E : PyNum.round2 x / 1 = PyNum.round2 x) by (to_Q; field).
  rewrite E. apply round2_idem.
Qed.

End MoreRounding.

Section PerPeriod.

Import Tax Spec Config.

Lemma us_take_home_annual (gross : Qc) (filing state : string) (r : take_home) :
  _us_take_home gross filing state = Ok r ->
  exists y, take_home_annual r = PyNum.round2 y.
Proof.
  destruct (us_filing_table filing) as [table Ht].
  unfold _us_take_home. fold (us_filing filing).
  rewrite !(getitem_some _ _ _ Ht), bind_Ok.
  destruct (_apply_brackets _ table) as [fed applied].
  rewrite state_other, !bind_Ok.
  intros H. injection H as <-. eexists. reflexivity.
Qed.

Lemma uk_take_home_annual (gross : Qc) :
  exists y, take_home_annual (_uk_take_home gross) = PyNum.round2 y.
Proof.
  unfold _uk_take_home. destruct (_apply_brackets _ UK_TAX_BRACKETS).
  eexists. reflexivity.
Qed.

Lemma india_take_home_annual (gross : Qc) (regime : string) :
  exists y, take_home_annual (_india_take_home gross regime) = PyNum.round2 y.
Proof.
  unfold _india_take_home. destruct (_india_apply_brackets _ _).
  eexists. reflexivity.
Qed.

Lemma api_take_home_shape (data : take_home_request) (r : take_home) :
  api_take_home_pay data = Json200 r ->
  exists r0 y,
    r = with_per_period
          (default 1 (freq_divisor_table !! default "annual" (pay_frequency data))) r0
    /\ take_home_annual r0 = PyNum.round2 y.
Proof.
  unfold api_take_home_pay.
  destruct (float_required "gross_income" (gross_income data)) as [gross | exc];
    [| discriminate].
  cbv zeta.
  destruct (decide (upper (default "US" (country data)) = "US")).
  { destruct (_us_take_home gross _ _) as [r0 | err] eqn:E; [| discriminate].
    intros H. injection H as <-.
    destruct (us_take_home_annual _ _ _ _ E) as [y Hy]. eauto. }
  destruct (decide (upper (default "US" (country data)) = "UK")).
  { intros H. injection H as <-.
    destruct (uk_take_home_annual gross) as [y Hy]. eauto. }
  destruct (decide (upper (default "US" (country data)) = "IN")); [| discriminate].
  intros H. injection H as <-.
  destruct (india_take_home_annual gross (default "new" (regime data))) as [y Hy].
  eauto.
Qed.

Lemma freq_divisor_other (f : string) :
  f <> "monthly" -> f <> "biweekly" -> default 1 (freq_divisor_table !! f) = 1.
Proof.
  intros H1 H2. unfold freq_divisor_table.
  destruct (decide (f = "annual")) as [-> | H0]; [reflexivity |].
  rewrite !lookup_insert_ne by congruence. now rewrite lookup_empty.
Qed.

End PerPeriod.

(** X1.  Whenever the take-home handler answers with data, the amount
    per pay period is the yearly take-home pay itself unless the pay
    frequency is monthly or biweekly (an unknown frequency counts as
    annual), a twelfth of it rounded to cents for monthly and a
    twenty-sixth for biweekly. *)
Theorem take_home_per_period_of_frequency
    (data : Tax.take_home_request) (r : Tax.take_home) :
  Tax.api_take_home_pay data = Json200 r ->
  let f := default "annual" (Tax.pay_frequency data) in
  (f <> "monthly" -> f <> "biweekly" ->
   Tax.take_home_per_period r = Some (Tax.take_home_annual r))
  /\ (f = "monthly" ->
      Tax.take_home_per_period r = Some (PyNum.round2 (Tax.take_home_annual r / 12)))
  /\ (f = "biweekly" ->
      Tax.take_home_per_period r = Some (PyNum.round2 (Tax.take_home_annual r / 26))).
Proof.
  intros H f. destruct (api_take_home_shape data r H) as (r0 & y & -> & Hy).
  fold f. cbn [Tax.with_per_period Tax.take_home_per_period Tax.take_home_annual].
  split; [| split].
  - intros H1 H2. rewrite (freq_divisor_other f H1 H2), Hy, round2_div_1.
    reflexivity.
  - intros ->. reflexivity.
  - intros ->. reflexivity.
Qed.

Lemma take_home_per_period_of_frequency_witness :
  let data :=
    {| Tax.gross_income := Number 80000; Tax.country := Some "uk";
       Tax.filing_status := None; Tax.state := None;
       Tax.pay_frequency := Some "weekly"; Tax.regime := None |} in
  exists r, Tax.api_take_home_pay data = Json200 r
            /\ Tax.take_home_per_period r = Some (Tax.take_home_annual r).
Proof.
  intros data.
  exists (Tax.with_per_period 1 (Tax._uk_take_home 80000)).
  assert (E : Tax.api_take_home_pay data
              = Json200 (Tax.with_per_period 1 (Tax._uk_take_home 80000)))
    by reflexivity.
  split; [exact E |].
  refine (proj1 (take_home_per_period_of_frequency data _ E) _ _); discriminate.
Defined.

(** ** Bounds on the bracket tax *)

Section BracketBounds.

Import Tax Spec Config.

Lemma rates_within_nonneg (rmax : Qc) (bs : brackets) :
  rates_within rmax bs -> rates_nonneg bs.
Proof.
  unfold rates_within, rates_nonneg. intros H.
  induction H as [| b l [H0 _] _ IH]; constructor; assumption.
Qed.

(** Above the lower end [p] of the next band the accumulated tax grows
    by at most [rmax] per unit of income. *)
Lemma apply_loop_upper sign (rmax y : Qc) (bs : brackets) : forall t p acc,
  0 <= rmax -> increasing_from (Fin p) bs -> rates_within rmax bs -> p <= y ->
  fst (apply_loop sign y bs t (Fin p) acc) <= t + rmax * (y - p).
Proof.
  induction bs as [| [u r] rest IH]; intros t p acc Hm Hinc Hr Hpy; simpl.
  - qc_nra.
  - destruct Hinc as [Hpu Hinc]. inversion Hr as [| ? ? [Hr0 Hr1] Hr']; subst.
    simpl in Hr0, Hr1.
    destruct (PyNum.leb y p) eqn:Eyp; simpl; [qc_nra |].
    apply leb_false in Eyp.
    destruct u as [q |]; simpl in *.
    + destruct (PyNum.leb y q) eqn:Eyq; simpl.
      * apply leb_true in Eyq.
        assert (Hmin : PyNum.min y q = y)
          by (destruct (min_spec y q) as [[Hlt E] | [_ E]];
              [exfalso; qc_lra | exact E]).
        rewrite Hmin. qc_nra.
      * apply leb_false in Eyq.
        assert (Hmin : PyNum.min y q = q)
          by (destruct (min_spec y q) as [[_ E] | [Hle E]];
              [exact E | exfalso; qc_lra]).
        rewrite Hmin.
        eapply Qcle_trans; [apply IH; try assumption; qc_lra |].
        qc_nra.
    + qc_nra.
Qed.

Lemma apply_loop_lipschitz sign (rmax x y : Qc) (bs : brackets) :
  forall t p acc acc',
  0 <= rmax -> increasing_from (Fin p) bs -> rates_within rmax bs -> x <= y ->
  fst (apply_loop sign y bs t (Fin p) acc')
  <= fst (apply_loop sign x bs t (Fin p) acc) + rmax * (y - x).
Proof.
  induction bs as [| [u r] rest IH]; intros t p acc acc' Hm Hinc Hr Hxy.
  - simpl. qc_nra.
  - destruct (Qclt_le_dec p x) as [Hpx | Hxp].
    + simpl. destruct Hinc as [Hpu Hinc].
      inversion Hr as [| ? ? [Hr0 Hr1] Hr']; subst. simpl in Hr0, Hr1.
      assert (Ex : PyNum.leb x p = false) by now apply leb_false.
      assert (Ey : PyNum.leb y p = false) by (apply leb_false; qc_lra).
      rewrite Ex, Ey.
      destruct u as [q |]; simpl in *.
      * destruct (PyNum.leb x q) eqn:Exq; destruct (PyNum.leb y q) eqn:Eyq; simpl.
        -- apply leb_true in Exq, Eyq.
           assert (Hx : PyNum.min x q = x)
             by (destruct (min_spec x q) as [[Hlt E] | [_ E]];
                 [exfalso; qc_lra | exact E]).
           assert (Hy : PyNum.min y q = y)
             by (destruct (min_spec y q) as [[Hlt E] | [_ E]];
                 [exfalso; qc_lra | exact E]).
           rewrite Hx, Hy. qc_nra.
        -- apply leb_true in Exq. apply leb_false in Eyq.
           assert (Hx : PyNum.min x q = x)
             by (destruct (min_spec x q) as [[Hlt E] | [_ E]];
                 [exfalso; qc_lra | exact E]).
           assert (Hy : PyNum.min y q = q)
             by (destruct (min_spec y q) as [[_ E] | [Hle E]];
                 [exact E | exfalso; qc_lra]).
           rewrite Hx, Hy.
           eapply Qcle_trans;
             [apply (apply_loop_upper sign rmax y rest); try assumption; qc_lra |].
           qc_nra.
        -- apply leb_false in Exq. apply leb_true in Eyq. exfalso. qc_lra.
        -- apply leb_false in Exq, Eyq.
           assert (Hx : PyNum.min x q = q)
             by (destruct (min_spec x q) as [[_ E] | [Hle E]];
                 [exact E | exfalso; qc_lra]).
           assert (Hy : PyNum.min y q = q)
             by (destruct (min_spec y q) as [[_ E] | [Hle E]];
                 [exact E | exfalso; qc_lra]).
           rewrite Hx, Hy. apply IH; assumption.
      * qc_nra.
    + assert (Ex : fst (apply_loop sign x ((u, r) :: rest) t (Fin p) acc) = t).
      { simpl. assert (E : PyNum.leb x p = true) by now apply leb_true.
        now rewrite E. }
      rewrite Ex.
      destruct (Qclt_le_dec p y) as [Hpy | Hyp].
      * eapply Qcle_trans;
          [apply (apply_loop_upper sign rmax y); try assumption; qc_lra |].
        qc_nra.
      * simpl. assert (E : PyNum.leb y p = true) by now apply leb_true.
        rewrite E. simpl. qc_nra.
Qed.

Lemma apply_brackets_nonpositive (x : Qc) (bs : brackets) :
  x <= 0 -> _apply_brackets x bs = (0, []).
Proof.
  intros Hx. unfold _apply_brackets.
  assert (E : apply_loop "$" x bs 0 (Fin 0) [] = (0, [])).
  { destruct bs as [| [u r] rest]; [reflexivity |]. simpl.
    assert (El : PyNum.leb x 0 = true) by now apply leb_true.
    now rewrite El. }
  rewrite E. now rewrite round2_zero.
Qed.

(** The tax of a higher income exceeds the tax of a lower one by at most
    [rmax] per unit, up to a cent of rounding. *)
Lemma apply_brackets_diff (rmax x y : Qc) (bs : brackets) :
  0 <= rmax -> increasing_from (Fin 0) bs -> rates_within rmax bs -> x <= y ->
  0 <= fst (_apply_brackets y bs) - fst (_apply_brackets x bs)
  /\ fst (_apply_brackets y bs) - fst (_apply_brackets x bs)
     <= rmax * (y - x) + (1 # 100)%Q.
Proof.
  intros Hm Hinc Hr Hxy. unfold _apply_brackets.
  pose proof (apply_loop_mono "$" x y bs 0 (Fin 0) [] [] Hinc
                (rates_within_nonneg rmax bs Hr) Hxy) as Hmono.
  pose proof (apply_loop_lipschitz "$" rmax x y bs 0 0 [] [] Hm Hinc Hr Hxy) as Hlip.
  destruct (apply_loop "$" x bs 0 (Fin 0) []) as [tx ax].
  destruct (apply_loop "$" y bs 0 (Fin 0) []) as [ty ay]. simpl in *.
  pose proof (round2_mono tx ty Hmono) as H1.
  pose proof (round2_near tx) as [H2 H3]. pose proof (round2_near ty) as [H4 H5].
  set (a := PyNum.round2 tx) in *. set (b := PyNum.round2 ty) in *.
  split; qc_lra.
Qed.

End BracketBounds.



(** ** Capital gains *)

Section CapitalGains.

Import Tax Spec Config.

Lemma us_single_table :
  getitem US_TAX_BRACKETS "single"
  = Ok [ band (Fin 11925) 0.10; band (Fin 48475) 0.12; band (Fin 103350) 0.22;
         band (Fin 197300) 0.24; band (Fin 250525) 0.32; band (Fin 626350) 0.35;
         band Inf 0.37 ].
Proof. reflexivity. Qed.

Lemma us_tables_rates (filing : string) (table : brackets) :
  US_TAX_BRACKETS !! filing = Some table -> Spec.rates_within 0.37 table.
Proof.
  unfold US_TAX_BRACKETS. intros H.
  destruct (decide (filing = "single")) as [-> | N1];
    [rewrite lookup_insert_eq in H; injection H as <-;
     repeat constructor; qc_decide |].
  rewrite lookup_insert_ne in H by congruence.
  destruct (decide (filing = "mfj")) as [-> | N2];
    [rewrite lookup_insert_eq in H; injection H as <-;
     repeat constructor; qc_decide |].
  rewrite lookup_insert_ne in H by congruence.
  destruct (decide (filing = "hoh")) as [-> | N3];
    [rewrite lookup_insert_eq in H; injection H as <-;
     repeat constructor; qc_decide |].
  rewrite lookup_insert_ne in H by congruence.
  rewrite lookup_empty in H. discriminate.
Qed.

(** The table the freelance and capital-gains functions take:
    [US_TAX_BRACKETS.get(filing, US_TAX_BRACKETS["single"])]. *)
Lemma us_table_or_single (filing : string) (single : brackets) :
  getitem US_TAX_BRACKETS "single" = Ok single ->
  increasing_from (Fin 0) (default single (US_TAX_BRACKETS !! filing))
  /\ Spec.rates_within 0.37 (default single (US_TAX_BRACKETS !! filing)).
Proof.
  intros Hs.
  assert (Hl : US_TAX_BRACKETS !! "single" = Some single).
  { unfold getitem in Hs. destruct (US_TAX_BRACKETS !! "single"); congruence. }
  destruct (US_TAX_BRACKETS !! filing) as [t |] eqn:E; simpl.
  - split; [eapply us_tables_increasing | eapply us_tables_rates]; eauto.
  - split; [eapply us_tables_increasing | eapply us_tables_rates]; eauto.
Qed.

Lemma ltcg_table (filing : string) :
  exists single,
    getitem US_LTCG_BRACKETS "single" = Ok single
    /\ (default single (US_LTCG_BRACKETS !! filing)
        = [ band (Fin 48350) 0.0; band (Fin 533400) 0.15; band Inf 0.20 ]
        \/ default single (US_LTCG_BRACKETS !! filing)
           = [ band (Fin 96700) 0.0; band (Fin 600050) 0.15; band Inf 0.20 ]).
Proof.
  eexists. split; [reflexivity |]. unfold US_LTCG_BRACKETS.
  destruct (decide (filing = "single")) as [-> | N1]; [left; reflexivity |].
  rewrite (lookup_insert_ne _ "single" filing) by congruence.
  destruct (decide (filing = "mfj")) as [-> | N2]; [right; reflexivity |].
  rewrite (lookup_insert_ne _ "mfj" filing) by congruence.
  rewrite lookup_empty. left. reflexivity.
Qed.

Lemma ltcg_loop_bounds (gain income : Qc) (table : brackets) :
  table = [ band (Fin 48350) 0.0; band (Fin 533400) 0.15; band Inf 0.20 ]
  \/ table = [ band (Fin 96700) 0.0; band (Fin 600050) 0.15; band Inf 0.20 ] ->
  0 <= gain ->
  0 <= fst (ltcg_loop gain income table)
  /\ fst (ltcg_loop gain income table) <= 0.20 * gain.
Proof.
  intros [-> | ->] Hg; unfold band; simpl;
    repeat match goal with
    | |- context [PyNum.leb ?a ?b] => destruct (PyNum.leb a b)
    end; simpl; qc_nra.
Qed.

End CapitalGains.

Ltac map_lookup :=
  repeat (rewrite lookup_insert_ne by discriminate); rewrite lookup_insert_eq.

(** X3.  For a gain that is not negative [_us_cgt] never raises, whatever
    the filing status; the capital-gains tax it reports is at least 0 and
    at most 20% of the gain when the asset was held 12 months or more,
    at most 37% of the gain plus a cent otherwise; the net investment
    income tax is between 0 and 3.8% of the gain, and is 0 when income
    plus gain do not exceed the threshold of the filing status. *)
Theorem us_capital_gains_bounds
    (gain income holding_months : Qc) (filing asset_type : string) :
  0 <= gain ->
  exists r cg niit,
    Tax._us_cgt gain income filing holding_months asset_type = Ok r
    /\ Tax.is_long_term r = PyNum.leb 12 holding_months
    /\ Tax.cgt_breakdown r !! "capital_gains_tax" = Some cg
    /\ Tax.cgt_breakdown r !! "niit" = Some niit
    /\ 0 <= cg
    /\ (12 <= holding_months -> cg <= PyNum.round2 (0.20 * gain))
    /\ (holding_months < 12 -> cg <= PyNum.round2 (0.37 * gain + 0.01))
    /\ 0 <= niit /\ niit <= PyNum.round2 (0.038 * gain)
    /\ (income + gain <= default (200000 : Qc) (Config.US_NIIT_THRESHOLD !! filing) ->
        niit = 0).
Proof.
  intros Hg. unfold Tax._us_cgt.
  change Config.US_LTCG_HOLDING_MONTHS with (12 : Qc).
  set (thr := default (200000 : Qc) (Config.US_NIIT_THRESHOLD !! filing)).
  assert (Hniit : forall n, n = PyNum.min (PyNum.max (income + gain - thr) 0) gain
                                  * Config.US_NIIT_RATE ->
                  0 <= PyNum.round2 n /\ PyNum.round2 n <= PyNum.round2 (0.038 * gain)
                  /\ (income + gain <= thr -> PyNum.round2 n = 0)).
  { intros n ->. change Config.US_NIIT_RATE with (0.038 : Qc).
    split; [apply round2_nonneg; py_cases; qc_nra |].
    split; [apply round2_mono; py_cases; qc_nra |].
    intros Hle.
    assert (E : PyNum.min (PyNum.max (income + gain - thr) 0) gain * 0.038 = 0)
      by (py_cases; qc_nra).
    rewrite E. apply round2_zero. }
  destruct (PyNum.leb 12 holding_months) eqn:Elt; cbn [negb].
  - apply leb_true in Elt.
    destruct (ltcg_table filing) as (single & -> & Ht). rewrite bind_Ok.
    pose proof (ltcg_loop_bounds gain income _ Ht Hg) as [Hlo Hhi].
    destruct (Tax.ltcg_loop gain income _) as [gain_tax rate].
    rewrite bind_Ok. simpl in Hlo, Hhi.
    destruct (Hniit _ eq_refl) as (Hn0 & Hn1 & Hn2).
    eexists _, _, _. split; [reflexivity |].
    cbn [Tax.is_long_term Tax.cgt_breakdown].
    split; [reflexivity |]. split; [map_lookup; reflexivity |].
    split; [map_lookup; reflexivity |].
    split; [now apply round2_nonneg |].
    split; [intros _; now apply round2_mono |].
    split; [intros Hc; exfalso; qc_lra |].
    split; [exact Hn0 |]. split; [exact Hn1 | exact Hn2].
  - apply leb_false in Elt.
    rewrite us_single_table, !bind_Ok.
    destruct (us_table_or_single filing _ us_single_table) as [Hinc Hr].
    set (table := default _ (Config.US_TAX_BRACKETS !! filing)) in *.
    assert (Hxy : income <= income + gain) by qc_lra.
    assert (Hm : 0 <= 0.37) by qc_decide.
    pose proof (apply_brackets_diff 0.37 income (income + gain) table
                  Hm Hinc Hr Hxy) as [Hlo Hhi].
    destruct (Tax._apply_brackets (income + gain) table) as [tax a].
    rewrite !bind_Ok. fold table.
    destruct (Tax._apply_brackets income table) as [base b].
    rewrite !bind_Ok. simpl in Hlo, Hhi.
    destruct (Hniit _ eq_refl) as (Hn0 & Hn1 & Hn2).
    eexists _, _, _. split; [reflexivity |].
    cbn [Tax.is_long_term Tax.cgt_breakdown].
    split; [reflexivity |]. split; [map_lookup; reflexivity |].
    split; [map_lookup; reflexivity |].
    split; [now apply round2_nonneg |].
    split; [intros Hc; exfalso; qc_lra |].
    split; [intros _; apply round2_mono; qc_lra |].
    split; [exact Hn0 |]. split; [exact Hn1 | exact Hn2].
Qed.

Lemma us_capital_gains_bounds_witness :
  exists r cg niit,
    Tax._us_cgt 10000 75000 "single" 6 "equity" = Ok r
    /\ Tax.cgt_breakdown r !! "capital_gains_tax" = Some cg
    /\ Tax.cgt_breakdown r !! "niit" = Some niit
    /\ 0 <= cg /\ cg <= PyNum.round2 (0.37 * 10000 + 0.01) /\ niit = 0.
Proof.
  destruct (us_capital_gains_bounds 10000 75000 6 "single" "equity")
    as (r & cg & niit & Hr & _ & Hcg & Hn & H0 & _ & Hst & _ & _ & Hz);
    [qc_decide |].
  exists r, cg, niit. split; [exact Hr |]. split; [exact Hcg |].
  split; [exact Hn |]. split; [exact H0 |].
  split; [apply Hst; qc_decide | apply Hz; qc_decide].
Defined.

(** X4.  [_uk_cgt] ignores the asset type; a gain of 3000 or less is not
    taxed and is kept whole; the tax is never negative and, for a gain
    that is not negative, never above 24% of it. *)
Theorem uk_capital_gains_exempt_amount (gain income : Qc) (asset_type : string) :
  Tax._uk_cgt gain income asset_type = Tax._uk_cgt gain income "equity"
  /\ 0 <= Tax.tax_owed (Tax._uk_cgt gain income asset_type)
  /\ (gain <= 3000 ->
      Tax.tax_owed (Tax._uk_cgt gain income asset_type) = 0
      /\ Tax.net_proceeds (Tax._uk_cgt gain income asset_type) = PyNum.round2 gain)
  /\ (0 <= gain ->
      Tax.tax_owed (Tax._uk_cgt gain income asset_type) <= PyNum.round2 (0.24 * gain)).
Proof.
  split; [reflexivity |].
  unfold Tax._uk_cgt. cbn [Tax.tax_owed Tax.net_proceeds].
  change (Config.annual_exempt Config.UK_CGT) with (3000 : Qc).
  change (Config.higher_rate Config.UK_CGT) with (0.24 : Qc).
  change (Config.basic_rate Config.UK_CGT) with (0.18 : Qc).
  set (rate := if PyNum.ltb _ income then (0.24 : Qc) else (0.18 : Qc)).
  assert (Hrate : 0 <= rate /\ rate <= 0.24).
  { unfold rate. destruct (PyNum.ltb _ income); split; qc_decide. }
  destruct Hrate as [Hr0 Hr1].
  split; [apply round2_nonneg; py_cases; qc_nra |].
  split.
  - intros Hle.
    assert (E : PyNum.max (gain - 3000) 0 * rate = 0) by (py_cases; qc_nra).
    rewrite E. split; [apply round2_zero |]. f_equal. qc_lra.
  - intros Hg. apply round2_mono. py_cases; qc_nra.
Qed.

Lemma uk_capital_gains_exempt_amount_witness :
  Tax.tax_owed (Tax._uk_cgt 2500 60000 "property") = 0
  /\ Tax.net_proceeds (Tax._uk_cgt 2500 60000 "property") = PyNum.round2 2500.
Proof.
  refine (proj1 (proj2 (proj2 (uk_capital_gains_exempt_amount 2500 60000 "property"))) _).
  qc_decide.
Defined.

(** X5.  In [_india_cgt] equity held 12 months or more is taxed on the
    gain above 125000 only: up to 125000 nothing is owed and the gain is
    kept whole, and the tax is never negative.  Any other sale is taxed
    on the whole gain, so that a loss of 1 or more gives a negative tax. *)
Theorem india_capital_gains_exemption (gain holding_months : Qc) (asset_type : string) :
  (asset_type = "equity" -> 12 <= holding_months ->
   0 <= Tax.tax_owed (Tax._india_cgt gain asset_type holding_months)
   /\ (gain <= 125000 ->
       Tax.tax_owed (Tax._india_cgt gain asset_type holding_months) = 0
       /\ Tax.net_proceeds (Tax._india_cgt gain asset_type holding_months)
          = PyNum.round2 gain))
  /\ (asset_type <> "equity" \/ holding_months < 12 -> gain <= - (1) ->
      Tax.tax_owed (Tax._india_cgt gain asset_type holding_months) < 0).
Proof.
  unfold Tax._india_cgt.
  change (Config.equity_holding_months Config.INDIA_CGT) with (12 : Qc).
  change (Config.property_holding_months Config.INDIA_CGT) with (24 : Qc).
  change (Config.equity_ltcg_exemption Config.INDIA_CGT) with (125000 : Qc).
  change (Config.equity_ltcg_rate Config.INDIA_CGT) with (0.125 : Qc).
  change (Config.equity_stcg_rate Config.INDIA_CGT) with (0.20 : Qc).
  change (Config.property_ltcg_rate Config.INDIA_CGT) with (0.20 : Qc).
  change (Config.cess_rate Config.INDIA_NEW_REGIME) with (0.04 : Qc).
  split.
  - intros -> Hh. apply leb_true in Hh.
    destruct (decide ("equity" = "equity")) as [_ | N]; [| congruence].
    rewrite Hh. cbn [Tax.tax_owed Tax.net_proceeds].
    split; [apply round2_nonneg; py_cases; qc_nra |].
    intros Hle.
    assert (E : PyNum.max (gain - 125000) 0 * 0.125
                + PyNum.max (gain - 125000) 0 * 0.125 * 0.04 = 0)
      by (py_cases; qc_nra).
    rewrite E. split; [apply round2_zero |]. f_equal. qc_lra.
  - intros Hcase Hloss.
    assert (Hneg : forall rate, 0.20 <= rate ->
              PyNum.round2 (gain * rate + gain * rate * 0.04) < 0).
    { intros rate Hrate.
      pose proof (round2_near (gain * rate + gain * rate * 0.04)) as [_ Hup].
      set (v := PyNum.round2 _) in *. qc_nra. }
    destruct (decide (asset_type = "equity")) as [-> | Hne].
    + destruct Hcase as [N | Hlt]; [congruence |].
      assert (E : PyNum.leb 12 holding_months = false) by now apply leb_false.
      rewrite E. cbn [Tax.tax_owed]. apply Hneg. qc_decide.
    + destruct (PyNum.leb 24 holding_months); cbn [Tax.tax_owed];
        apply Hneg; qc_decide.
Qed.

Lemma india_capital_gains_exemption_witness :
  Tax.tax_owed (Tax._india_cgt 100000 "equity" 13) = 0
  /\ Tax.tax_owed (Tax._india_cgt (-5000)%Q "property" 30) < 0.
Proof.
  destruct (india_capital_gains_exemption 100000 13 "equity") as [H1 _].
  destruct (india_capital_gains_exemption (-5000)%Q 30 "property") as [_ H2].
  split.
  - refine (proj1 (proj2 (H1 eq_refl _) _)); qc_decide.
  - apply H2; [left; discriminate | qc_decide].
Defined.

(** ** India: surcharge and the rebate *)

Section India.

Import Tax Spec Config.

Lemma india_regime_cases (regime : string) :
  let cfg := if decide (regime = "new") then INDIA_NEW_REGIME else INDIA_OLD_REGIME in
  increasing_from (Fin 0) (regime_brackets cfg)
  /\ rates_within 0.30 (regime_brackets cfg)
  /\ 0 <= standard_deduction cfg /\ 0 <= rebate_87a_limit cfg
  /\ cess_rate cfg = 0.04
  /\ fst (apply_loop "₹" (rebate_87a_limit cfg) (regime_brackets cfg) 0 (Fin 0) [])
     = (if decide (regime = "new") then 60000 else 12500).
Proof.
  destruct (decide (regime = "new")); cbv zeta.
  - split; [simpl; repeat split |].
    split; [repeat constructor; qc_decide |].
    split; [qc_decide |]. split; [qc_decide |]. split; [reflexivity |].
    apply Qc_is_canon. vm_compute. reflexivity.
  - split; [simpl; repeat split |].
    split; [repeat constructor; qc_decide |].
    split; [qc_decide |]. split; [qc_decide |]. split; [reflexivity |].
    apply Qc_is_canon. vm_compute. reflexivity.
Qed.

Lemma surcharge_loop_zero (income : Qc) (slabs : brackets) :
  surcharge_loop 0 income slabs = 0.
Proof.
  induction slabs as [| [u r] rest IH]; [reflexivity |]. simpl.
  destruct (le_bound income u); [| exact IH].
  assert (E : 0 * r = 0) by ring. rewrite E. apply round2_zero.
Qed.

Lemma surcharge_loop_bounds (rmax base income : Qc) (slabs : brackets) :
  0 <= base -> rates_within rmax slabs -> 0 <= rmax ->
  0 <= surcharge_loop base income slabs
  /\ surcharge_loop base income slabs <= PyNum.round2 (base * rmax).
Proof.
  intros Hb Hr Hm. induction Hr as [| [u r] rest [Hr0 Hr1] _ IH]; simpl.
  - split; [apply Qcle_refl | apply round2_nonneg; qc_nra].
  - simpl in Hr0, Hr1. destruct (le_bound income u); [| exact IH].
    split; [apply round2_nonneg; qc_nra | apply round2_mono; qc_nra].
Qed.

Lemma india_surcharge_rates : rates_within 0.25 INDIA_SURCHARGE.
Proof. repeat constructor; qc_decide. Qed.

End India.

(** X15.  [_india_surcharge] is 0 for an income up to 5000000 and a
    quarter of the base tax, rounded to cents, for an income above
    20000000; for a base tax that is not negative it always lies between
    0 and that quarter. *)
Theorem india_surcharge_bounds (base_tax income : Qc) :
  (income <= 5000000 -> Tax._india_surcharge base_tax income = 0)
  /\ (20000000 < income ->
      Tax._india_surcharge base_tax income = PyNum.round2 (base_tax * 0.25))
  /\ (0 <= base_tax ->
      0 <= Tax._india_surcharge base_tax income
      /\ Tax._india_surcharge base_tax income <= PyNum.round2 (base_tax * 0.25)).
Proof.
  split; [| split].
  - intros H. unfold Tax._india_surcharge, Config.INDIA_SURCHARGE, band.
    cbn [Tax.surcharge_loop le_bound].
    apply leb_true in H. rewrite H.
    assert (E : base_tax * 0.0 = 0) by (apply Qc_is_canon; qc_push; lra).
    rewrite E. apply round2_zero.
  - intros H. unfold Tax._india_surcharge, Config.INDIA_SURCHARGE, band.
    cbn [Tax.surcharge_loop le_bound].
    assert (E1 : PyNum.leb income 5000000 = false) by (apply leb_false; qc_lra).
    assert (E2 : PyNum.leb income 10000000 = false) by (apply leb_false; qc_lra).
    assert (E3 : PyNum.leb income 20000000 = false) by (apply leb_false; qc_lra).
    rewrite E1, E2, E3. destruct (PyNum.leb income 50000000); reflexivity.
  - intros H.
    apply (surcharge_loop_bounds 0.25 base_tax income Config.INDIA_SURCHARGE H
             india_surcharge_rates).
    qc_decide.
Qed.

Lemma india_surcharge_bounds_witness :
  Tax._india_surcharge 1000000 4000000 = 0
  /\ Tax._india_surcharge 1000000 30000000 = PyNum.round2 (1000000 * 0.25)
  /\ 0 <= Tax._india_surcharge 1000000 7000000.
Proof.
  destruct (india_surcharge_bounds 1000000 4000000) as (H1 & _ & _).
  destruct (india_surcharge_bounds 1000000 30000000) as (_ & H2 & _).
  destruct (india_surcharge_bounds 1000000 7000000) as (_ & _ & H3).
  split; [apply H1; qc_decide |]. split; [apply H2; qc_decide |].
  apply H3. qc_decide.
Defined.

(** X16.  In [_india_take_home] a gross income up to the standard
    deduction plus the rebate limit (1275000 in the new regime, 550000 in
    the old) owes nothing and is taken home whole; right above it the
    whole tax is due at once, at least 62400 in the new regime and 13000
    in the old. *)
Theorem india_rebate_cliff (gross : Qc) (regime : string) :
  let cfg := if decide (regime = "new") then Config.INDIA_NEW_REGIME
             else Config.INDIA_OLD_REGIME in
  let r := Tax._india_take_home gross regime in
  (gross <= Config.standard_deduction cfg + Config.rebate_87a_limit cfg ->
   Tax.total_tax r = 0 /\ Tax.effective_rate r = 0
   /\ Tax.take_home_annual r = PyNum.round2 gross)
  /\ (Config.standard_deduction cfg + Config.rebate_87a_limit cfg < gross ->
      (if decide (regime = "new") then 62400 else 13000) <= Tax.total_tax r).
Proof.
  intros cfg r. unfold r, Tax._india_take_home. fold cfg.
  destruct (india_regime_cases regime) as (Hinc & Hr & Hsd & Hlim & Hcess & Hat).
  fold cfg in Hinc, Hr, Hsd, Hlim, Hcess, Hat.
  set (sd := Config.standard_deduction cfg) in *.
  set (lim := Config.rebate_87a_limit cfg) in *.
  set (taxable := PyNum.max (gross - sd) 0).
  pose proof (apply_loop_mono "₹" lim taxable (Config.regime_brackets cfg)
                0 (Fin 0) [] [] Hinc (rates_within_nonneg _ _ Hr)) as Hmono.
  unfold Tax._india_apply_brackets.
  destruct (Tax.apply_loop "₹" taxable (Config.regime_brackets cfg) 0 (Fin 0) [])
    as [t applied].
  cbn [Tax.total_tax Tax.effective_rate Tax.take_home_annual]. rewrite Hcess.
  cbn [fst] in Hmono. split.
  - intros Hle.
    assert (El : PyNum.leb taxable lim = true).
    { apply leb_true. unfold taxable.
      destruct (max_spec (gross - sd) 0) as [[_ ->] | [_ ->]]; [exact Hlim | qc_lra]. }
    rewrite El. unfold Tax._india_surcharge. rewrite surcharge_loop_zero.
    assert (E0 : (0 : Qc) + 0 + (0 + 0) * 0.04 = 0) by (apply Qc_is_canon; reflexivity).
    rewrite E0. split; [apply round2_zero |]. split.
    + destruct (PyNum.ltb 0 gross); [| apply round2_zero].
      assert (E1 : (0 : Qc) / gross * 100 = 0) by (unfold Qcdiv; ring).
      rewrite E1. apply round2_zero.
    + f_equal. ring.
  - intros Hgt.
    assert (Ht : lim < taxable).
    { unfold taxable.
      destruct (max_spec (gross - sd) 0) as [[Hlt ->] | [_ ->]]; qc_lra. }
    assert (El : PyNum.leb taxable lim = false) by now apply leb_false.
    rewrite El.
    specialize (Hmono ltac:(qc_lra)). rewrite Hat in Hmono.
    set (base := PyNum.round2 t).
    assert (Hbase : PyNum.round2 (if decide (regime = "new") then 60000 else 12500)
                    <= base) by now apply round2_mono.
    assert (Hb0 : 0 <= base).
    { apply round2_nonneg. destruct (decide (regime = "new")); qc_lra. }
    destruct (surcharge_loop_bounds 0.25 base gross Config.INDIA_SURCHARGE Hb0
                india_surcharge_rates ltac:(qc_decide)) as [Hs0 _].
    fold (Tax._india_surcharge base gross) in Hs0.
    set (s := Tax._india_surcharge base gross) in *.
    destruct (decide (regime = "new")).
    + assert (E : PyNum.round2 60000 = 60000) by (apply Qc_is_canon; vm_compute; reflexivity).
      assert (E' : PyNum.round2 62400 = 62400) by (apply Qc_is_canon; vm_compute; reflexivity).
      rewrite E in Hbase. rewrite <- E'. apply round2_mono. qc_lra.
    + assert (E : PyNum.round2 12500 = 12500) by (apply Qc_is_canon; vm_compute; reflexivity).
      assert (E' : PyNum.round2 13000 = 13000) by (apply Qc_is_canon; vm_compute; reflexivity).
      rewrite E in Hbase. rewrite <- E'. apply round2_mono. qc_lra.
Qed.

Lemma india_rebate_cliff_witness :
  Tax.total_tax (Tax._india_take_home 1275000 "new") = 0
  /\ 62400 <= Tax.total_tax (Tax._india_take_home 1275001 "new").
Proof.
  destruct (india_rebate_cliff 1275000 "new") as [H1 _].
  destruct (india_rebate_cliff 1275001 "new") as [_ H2].
  split; [apply H1; qc_decide | apply H2; qc_decide].
Defined.

(** ** Freelance tax *)

Section Freelance.

Import Tax Spec Config.

Lemma us_freelance_answer (gross expenses : Qc) (filing state : string) :
  exists r,
    _us_freelance gross expenses filing state = Ok r
    /\ amounts r !! "net_profit" = Some (PyNum.round2 (gross - expenses))
    /\ amounts r !! "self_employment_tax"
       = Some (PyNum.round2 ((gross - expenses) * 0.9235 * 0.153)).
Proof.
  unfold _us_freelance. rewrite us_single_table, bind_Ok.
  destruct (_apply_brackets _ _) as [income_tax applied].
  rewrite state_other, bind_Ok.
  eexists. split; [reflexivity |]. cbn [amounts].
  split; map_lookup; reflexivity.
Qed.

Lemma us_single_lookup :
  @eq (option brackets) (US_TAX_BRACKETS !! "single")
    (Some [ band (Fin 11925) 0.10; band (Fin 48475) 0.12; band (Fin 103350) 0.22;
           band (Fin 197300) 0.24; band (Fin 250525) 0.32; band (Fin 626350) 0.35;
           band Inf 0.37 ]).
Proof. reflexivity. Qed.

Lemma us_single_deduction : US_STANDARD_DEDUCTION !! "single" = Some (15000 : Qc).
Proof. reflexivity. Qed.

Lemma Qc_two : Qcplus 1 1 = Q2Qc 2.
Proof. apply Qc_is_canon. reflexivity. Qed.

Lemma us_deduction_unknown (filing : string) :
  US_TAX_BRACKETS !! filing = None -> US_STANDARD_DEDUCTION !! filing = None.
Proof.
  unfold US_TAX_BRACKETS, US_STANDARD_DEDUCTION. intros H.
  destruct (decide (filing = "single")) as [-> | N1];
    [rewrite lookup_insert_eq in H; discriminate H |].
  rewrite lookup_insert_ne in H by congruence.
  destruct (decide (filing = "mfj")) as [-> | N2];
    [rewrite lookup_insert_eq in H; discriminate H |].
  rewrite lookup_insert_ne in H by congruence.
  destruct (decide (filing = "hoh")) as [-> | N3];
    [rewrite lookup_insert_eq in H; discriminate H |].
  rewrite !lookup_insert_ne by congruence. apply lookup_empty.
Qed.

End Freelance.

(** X17.  [_us_freelance] never raises.  A filing status without a
    bracket table is treated as single and a state without a rate as
    other; the self-employment tax is 15.3% of 92.35% of the net profit,
    with no floor, so that a loss gives a tax that is not positive. *)
Theorem us_freelance_fallbacks (gross expenses : Qc) (filing state : string) :
  (Config.US_TAX_BRACKETS !! filing = None ->
   Tax._us_freelance gross expenses filing state
   = Tax._us_freelance gross expenses "single" state)
  /\ (Config.US_STATE_TAX !! state = None ->
      Tax._us_freelance gross expenses filing state
      = Tax._us_freelance gross expenses filing "other")
  /\ exists r se,
       Tax._us_freelance gross expenses filing state = Ok r
       /\ Tax.amounts r !! "self_employment_tax" = Some se
       /\ se = PyNum.round2 ((gross - expenses) * 0.9235 * 0.153)
       /\ (gross <= expenses -> se <= 0).
Proof.
  split; [| split].
  - intros H. unfold Tax._us_freelance.
    rewrite H, (us_deduction_unknown filing H), us_single_lookup, us_single_deduction.
    rewrite us_single_table, !bind_Ok. cbn [default from_option id]. reflexivity.
  - intros H. unfold Tax._us_freelance. rewrite H.
    change (Config.US_STATE_TAX !! "other") with (Some (0.05 : Qc)).
    rewrite state_other. reflexivity.
  - destruct (us_freelance_answer gross expenses filing state) as (r & Hr & _ & Hse).
    exists r, (PyNum.round2 ((gross - expenses) * 0.9235 * 0.153)).
    split; [exact Hr |]. split; [exact Hse |]. split; [reflexivity |].
    intros Hloss. rewrite <- round2_zero. apply round2_mono. qc_nra.
Qed.

Lemma us_freelance_fallbacks_witness :
  Tax._us_freelance 90000 10000 "widow" "ZZ"
  = Tax._us_freelance 90000 10000 "single" "other".
Proof.
  destruct (us_freelance_fallbacks 90000 10000 "widow" "ZZ") as (H1 & _ & _).
  destruct (us_freelance_fallbacks 90000 10000 "single" "ZZ") as (_ & H2 & _).
  rewrite H1 by reflexivity. apply H2. reflexivity.
Defined.

(** X18.  [_uk_freelance] gives a net profit up to 125140 the taxable
    income an employee with that gross pay has; above 125140 its
    personal allowance goes below zero, and the taxable income it
    reports is the profit plus half of what exceeds 125140, where an
    employee is taxed on the gross pay itself. *)
Theorem uk_freelance_allowance (gross expenses : Qc) :
  let net := gross - expenses in
  let r := Tax._uk_freelance gross expenses in
  (net <= 125140 ->
   Tax.amounts r !! "taxable_income" = Some (PyNum.round2 (Spec.uk_taxable net)))
  /\ (125140 < net ->
      Tax.amounts r !! "taxable_income"
      = Some (PyNum.round2 (net + (net - 125140) / 2))
      /\ Spec.uk_taxable net = net).
Proof.
  intros net r. unfold r, Tax._uk_freelance. fold net. clear r. clearbody net.
  destruct (Tax._apply_brackets _ Config.UK_TAX_BRACKETS) as [income_tax applied].
  cbn [Tax.amounts]. unfold Spec.uk_taxable.
  change Config.UK_PERSONAL_ALLOWANCE with (12570 : Qc).
  change Config.UK_PA_TAPER_START with (100000 : Qc).
  split.
  - intros Hle. map_lookup. do 2 f_equal. rewrite ?Qc_two.
    destruct (PyNum.ltb 100000 net) eqn:E;
      [apply ltb_true in E | apply ltb_false in E]; py_cases; qc_lra.
  - intros Hgt. rewrite ?Qc_two. split.
    + map_lookup. do 2 f_equal. py_cases; qc_lra.
    + assert (E : PyNum.ltb 100000 net = true) by (apply ltb_true; qc_lra).
      rewrite E. py_cases; qc_lra.
Qed.

Lemma uk_freelance_allowance_witness :
  Tax.amounts (Tax._uk_freelance 200000 0) !! "taxable_income"
  = Some (PyNum.round2 (200000 - 0 + (200000 - 0 - 125140) / 2))
  /\ Spec.uk_taxable (200000 - 0) = 200000 - 0.
Proof.
  apply (proj2 (uk_freelance_allowance 200000 0)). qc_decide.
Defined.

(** X19.  [_india_freelance] under the presumptive scheme takes half of
    the gross revenue as profit whatever the expenses are.  Its four
    advance-tax instalments, with the cumulative percentages 15, 45, 75
    and 100, add up to the total tax it reports to within 2.5
    hundredths. *)
Theorem india_freelance_instalments
    (gross expenses other : Qc) (presumptive : bool) :
  let r := Tax._india_freelance gross expenses presumptive in
  Tax._india_freelance gross expenses true = Tax._india_freelance gross other true
  /\ exists total rows,
       Tax.amounts r !! "total_tax" = Some total
       /\ Tax.india_advance_tax_schedule r = Some rows
       /\ map Tax.pct rows = [15; 45; 75; 100]%Z
       /\ - (1 # 40)%Q <= PyNum.sum (map Tax.amount rows) - total
       /\ PyNum.sum (map Tax.amount rows) - total <= (1 # 40)%Q.
Proof.
  intros r. split; [reflexivity |].
  unfold r, Tax._india_freelance. clear r.
  destruct (Tax._india_apply_brackets _ _) as [base_tax applied].
  cbn [Tax.amounts Tax.india_advance_tax_schedule].
  match goal with
  | |- context [Tax.Build_advance_row "June 15" _ (PyNum.round2 (?t * _))] =>
      set (total := t)
  end.
  eexists _, _. split; [map_lookup; reflexivity |].
  split; [reflexivity |]. split; [reflexivity |]. clearbody total.
  unfold PyNum.sum. cbn [map Tax.amount fold_left].
  pose proof (round2_near total) as [H0 H0'].
  pose proof (round2_near (total * 0.15)) as [H1 H1'].
  pose proof (round2_near (total * 0.30)) as [H2 H2'].
  pose proof (round2_near (total * 0.25)) as [H3 H3'].
  set (a := PyNum.round2 total) in *.
  set (b := PyNum.round2 (total * 0.15)) in *.
  set (c := PyNum.round2 (total * 0.30)) in *.
  set (d := PyNum.round2 (total * 0.25)) in *.
  split; qc_lra.
Qed.

(** X20.  [api_freelance] never lets an exception through.  It answers
    with data exactly when gross_revenue is a number, business_expenses
    is a number or missing, and the country, in any letter case, is US,
    UK or IN; every other request gets a 422. *)
Theorem freelance_handler_outcomes (data : Tax.freelance_request) :
  let country := upper (default "US" (Tax.fl_country data)) in
  let accepted :=
    (exists g, Tax.gross_revenue data = Number g)
    /\ Tax.business_expenses data <> NotNumeric
    /\ (country = "US" \/ country = "UK" \/ country = "IN") in
  (accepted -> exists r, Tax.api_freelance data = Json200 r)
  /\ (~ accepted -> exists e, Tax.api_freelance data = Json422 e).
Proof.
  intros country accepted. unfold accepted, Tax.api_freelance. fold country.
  destruct (Tax.gross_revenue data) as [| g |]; cbn [float_required].
  - split; [intros ((g & E) & _); discriminate E | intros _].
    eexists. reflexivity.
  - rewrite bind_Ok.
    destruct (Tax.business_expenses data) as [| e |]; cbn [float_default].
    + rewrite bind_Ok.
      destruct (decide (country = "US")) as [Eus | Nus].
      { destruct (us_freelance_answer g 0 (lower (default "single" (Tax.fl_filing_status data)))
                    (default "other" (Tax.fl_state data))) as (r & -> & _).
        split; [intros _; eexists; reflexivity |].
        intros N. exfalso. apply N. split; [eexists; reflexivity |].
        split; [discriminate | auto]. }
      destruct (decide (country = "UK")) as [Euk | Nuk].
      { split; [intros _; eexists; reflexivity |].
        intros N. exfalso. apply N. split; [eexists; reflexivity |].
        split; [discriminate | auto]. }
      destruct (decide (country = "IN")) as [Ein | Nin].
      { split; [intros _; eexists; reflexivity |].
        intros N. exfalso. apply N. split; [eexists; reflexivity |].
        split; [discriminate | auto]. }
      split; [| intros _; eexists; reflexivity].
      intros (_ & _ & [E | [E | E]]); contradiction.
    + rewrite bind_Ok.
      destruct (decide (country = "US")) as [Eus | Nus].
      { destruct (us_freelance_answer g e (lower (default "single" (Tax.fl_filing_status data)))
                    (default "other" (Tax.fl_state data))) as (r & -> & _).
        split; [intros _; eexists; reflexivity |].
        intros N. exfalso. apply N. split; [eexists; reflexivity |].
        split; [discriminate | auto]. }
      destruct (decide (country = "UK")) as [Euk | Nuk].
      { split; [intros _; eexists; reflexivity |].
        intros N. exfalso. apply N. split; [eexists; reflexivity |].
        split; [discriminate | auto]. }
      destruct (decide (country = "IN")) as [Ein | Nin].
      { split; [intros _; eexists; reflexivity |].
        intros N. exfalso. apply N. split; [eexists; reflexivity |].
        split; [discriminate | auto]. }
      split; [| intros _; eexists; reflexivity].
      intros (_ & _ & [E | [E | E]]); contradiction.
    + split; [intros (_ & N & _); contradiction | intros _].
      eexists. reflexivity.
  - split; [intros ((g & E) & _); discriminate E | intros _].
    eexists. reflexivity.
Qed.

Lemma freelance_handler_outcomes_witness :
  exists r,
    Tax.api_freelance
      {| Tax.gross_revenue := Number 90000; Tax.business_expenses := Absent;
         Tax.fl_country := Some "uk"; Tax.fl_filing_status := None;
         Tax.fl_state := None; Tax.presumptive_scheme := None |} = Json200 r.
Proof.
  apply (proj1 (freelance_handler_outcomes _)).
  split; [eexists; reflexivity |]. split; [discriminate |].
  right. left. reflexivity.
Defined.

(** ** Take-home pay stays within the gross pay *)

Section WithinGross.

Import Tax Spec Config.

Lemma within_gross_rounded (gross total : Qc) (r : take_home) :
  0 <= total -> total <= gross ->
  gross_annual r = PyNum.round2 gross ->
  total_tax r = PyNum.round2 total ->
  take_home_annual r = PyNum.round2 (gross - total) ->
  within_gross r.
Proof.
  intros H0 H1 Eg Et Eh. unfold within_gross. rewrite Eg, Et, Eh.
  split; [now apply round2_nonneg |].
  split; [now apply round2_mono |].
  split; [apply round2_nonneg; qc_lra | apply round2_mono; qc_lra].
Qed.

(** What a bracket routine returns for an income that is not negative. *)
Lemma bracket_tax_bounds sign (rmax x : Qc) (bs : brackets) :
  0 <= rmax -> increasing_from (Fin 0) bs -> rates_within rmax bs -> 0 <= x ->
  let tax := PyNum.round2 (fst (apply_loop sign x bs 0 (Fin 0) [])) in
  0 <= tax /\ tax <= rmax * x + (1 # 200)%Q /\ (x = 0 -> tax = 0).
Proof.
  intros Hm Hinc Hr Hx tax.
  pose proof (apply_loop_lower sign x bs 0 (Fin 0) [] Hinc
                (rates_within_nonneg rmax bs Hr)) as Hlo.
  pose proof (apply_loop_upper sign rmax x bs 0 0 [] Hm Hinc Hr Hx) as Hhi.
  unfold tax. set (t := fst (apply_loop sign x bs 0 (Fin 0) [])) in *.
  pose proof (round2_near t) as [_ Hn].
  split; [now apply round2_nonneg |].
  split; [set (v := PyNum.round2 t) in *; qc_lra |].
  intros ->. assert (E : t = 0) by qc_lra. rewrite E. apply round2_zero.
Qed.

Lemma us_deduction_bounds (filing : string) :
  15000 <= default (15000 : Qc) (US_STANDARD_DEDUCTION !! filing).
Proof.
  unfold US_STANDARD_DEDUCTION.
  destruct (decide (filing = "single")) as [-> | N1];
    [rewrite lookup_insert_eq; qc_decide |].
  rewrite lookup_insert_ne by congruence.
  destruct (decide (filing = "mfj")) as [-> | N2];
    [rewrite lookup_insert_eq; qc_decide |].
  rewrite lookup_insert_ne by congruence.
  destruct (decide (filing = "hoh")) as [-> | N3];
    [rewrite lookup_insert_eq; qc_decide |].
  rewrite lookup_insert_ne by congruence.
  rewrite lookup_empty. qc_decide.
Qed.

Lemma us_state_rate_bounds (state : string) :
  0 <= default (0.05 : Qc) (US_STATE_TAX !! state)
  /\ default (0.05 : Qc) (US_STATE_TAX !! state) <= 0.093.
Proof.
  unfold US_STATE_TAX.
  repeat match goal with
  | |- context [<[?k := _]> _ !! state] =>
      destruct (decide (state = k)) as [-> | ?];
      [rewrite lookup_insert_eq; split; qc_decide
      | rewrite (lookup_insert_ne _ k state) by congruence]
  end.
  rewrite lookup_empty. split; qc_decide.
Qed.

Lemma us_take_home_within (gross : Qc) (filing state : string) (r : take_home) :
  0 <= gross -> _us_take_home gross filing state = Ok r -> within_gross r.
Proof.
  intros Hg. destruct (us_filing_table filing) as [table Ht].
  pose proof (us_tables_increasing _ _ Ht) as Hinc.
  pose proof (us_tables_rates _ _ Ht) as Hr.
  pose proof (us_deduction_bounds (us_filing filing)) as Hstd.
  pose proof (us_state_rate_bounds state) as [Hs0 Hs1].
  unfold _us_take_home. fold (us_filing filing).
  rewrite !(getitem_some _ _ _ Ht), bind_Ok.
  set (std := default (15000 : Qc) (US_STANDARD_DEDUCTION !! us_filing filing)) in *.
  set (taxable := PyNum.max (gross - std) 0).
  assert (Htx : 0 <= taxable /\ (taxable = 0 \/ taxable + 15000 <= gross)).
  { unfold taxable. destruct (max_spec (gross - std) 0) as [[H ->] | [H ->]].
    - split; [apply Qcle_refl | left; reflexivity].
    - split; [exact H | right; qc_lra]. }
  destruct Htx as [Htx0 Htx].
  pose proof (bracket_tax_bounds "$" 0.37 taxable table ltac:(qc_decide) Hinc Hr Htx0)
    as Hb.
  cbv zeta in Hb. unfold _apply_brackets.
  destruct (apply_loop "$" taxable table 0 (Fin 0) []) as [t applied].
  cbn [fst] in Hb. destruct Hb as (Hf0 & Hf1 & Hfz).
  rewrite state_other, !bind_Ok.
  set (rate := default (0.05 : Qc) (US_STATE_TAX !! state)) in *.
  change (ss_wage_base US_FICA) with (176100 : Qc).
  change (ss_rate US_FICA) with (0.062 : Qc).
  change (medicare_rate US_FICA) with (0.0145 : Qc).
  change (additional_medicare_threshold_single US_FICA) with (200000 : Qc).
  change (additional_medicare_rate US_FICA) with (0.009 : Qc).
  intros H. injection H as <-.
  set (fed := PyNum.round2 t) in *.
  assert (Hst : 0 <= gross * rate /\ gross * rate <= 0.093 * gross) by qc_nra.
  set (st := gross * rate) in *. destruct Hst as [Hst0 Hst1].
  assert (Hss : 0 <= PyNum.min gross 176100 * 0.062
                /\ PyNum.min gross 176100 * 0.062 <= 0.062 * gross)
    by (py_cases; qc_lra).
  set (ss := PyNum.min gross 176100 * 0.062) in *. destruct Hss as [Hss0 Hss1].
  assert (Ham : 0 <= PyNum.max (gross - 200000) 0 * 0.009
                /\ PyNum.max (gross - 200000) 0 * 0.009 <= 0.009 * gross)
    by (py_cases; qc_lra).
  set (am := PyNum.max (gross - 200000) 0 * 0.009) in *. destruct Ham as [Ham0 Ham1].
  eapply (within_gross_rounded gross (fed + ss + gross * 0.0145 + am + st));
    [| | reflexivity | reflexivity | reflexivity].
  - qc_lra.
  - destruct Htx as [Hz | Hpos].
    + specialize (Hfz Hz). rewrite Hfz. qc_lra.
    + qc_lra.
Qed.

Lemma uk_take_home_within (gross : Qc) :
  0 <= gross -> within_gross (_uk_take_home gross).
Proof.
  intros Hg. unfold _uk_take_home, _apply_brackets. cbv zeta.
  change UK_PERSONAL_ALLOWANCE with (12570 : Qc).
  change UK_PA_TAPER_START with (100000 : Qc).
  change (lower_earnings_limit UK_NI_EMPLOYEE) with (6396 : Qc).
  change (upper_earnings_limit UK_NI_EMPLOYEE) with (50270 : Qc).
  change (rate_main UK_NI_EMPLOYEE) with (0.08 : Qc).
  change (rate_upper UK_NI_EMPLOYEE) with (0.02 : Qc).
  rewrite ?Qc_two.
  match goal with
  | |- context [PyNum.max (gross - ?p) 0] => set (pa := p)
  end.
  assert (Hpa : 0 <= pa /\ (gross <= 100000 -> pa = 12570)).
  { unfold pa. destruct (PyNum.ltb 100000 gross) eqn:E.
    - apply ltb_true in E. split; [py_cases; qc_lra | intros H; exfalso; qc_lra].
    - split; [qc_decide | reflexivity]. }
  destruct Hpa as [Hpa0 Hpa1].
  set (taxable := PyNum.max (gross - pa) 0).
  assert (Htx : 0 <= taxable /\ (taxable = 0 \/ (taxable <= gross /\ 12570 <= gross))).
  { unfold taxable. destruct (max_spec (gross - pa) 0) as [[H ->] | [H ->]].
    - split; [apply Qcle_refl | left; reflexivity].
    - split; [exact H | right]. split; [qc_lra |].
      destruct (Qclt_le_dec 100000 gross) as [Hb | Hb]; [qc_lra |].
      specialize (Hpa1 Hb). rewrite Hpa1 in H. qc_lra. }
  destruct Htx as [Htx0 Htx].
  pose proof (bracket_tax_bounds "$" 0.45 taxable UK_TAX_BRACKETS ltac:(qc_decide)
                uk_table_increasing ltac:(repeat constructor; qc_decide) Htx0) as Hb.
  cbv zeta in Hb.
  destruct (apply_loop "$" taxable UK_TAX_BRACKETS 0 (Fin 0) []) as [t applied].
  cbn [fst] in Hb. destruct Hb as (Hf0 & Hf1 & Hfz).
  set (it := PyNum.round2 t) in *.
  match goal with
  | |- within_gross (Build_take_home _ (PyNum.round2 (it + ?n)) _ _ _ _ _ _) =>
      assert (Hni : 0 <= n /\ n <= 0.08 * gross);
      [| set (ni := n) in *]
  end.
  { destruct (PyNum.ltb 6396 gross) eqn:E1; [| split; qc_lra].
    apply ltb_true in E1.
    destruct (PyNum.ltb 50270 gross) eqn:E2;
      [apply ltb_true in E2 | apply ltb_false in E2]; (split; py_cases; qc_lra). }
  destruct Hni as [Hni0 Hni1].
  eapply (within_gross_rounded gross (it + ni));
    [| | reflexivity | reflexivity | reflexivity].
  - qc_lra.
  - destruct Htx as [Hz | [Hle Hbig]].
    + specialize (Hfz Hz). rewrite Hfz. qc_lra.
    + qc_lra.
Qed.

Lemma india_take_home_within (gross : Qc) (regime : string) :
  0 <= gross -> within_gross (_india_take_home gross regime).
Proof.
  intros Hg. unfold _india_take_home.
  destruct (india_regime_cases regime) as (Hinc & Hr & Hsd & Hlim & Hcess & _).
  set (cfg := if decide (regime = "new") then INDIA_NEW_REGIME else INDIA_OLD_REGIME) in *.
  set (sd := standard_deduction cfg) in *.
  set (lim := rebate_87a_limit cfg) in *.
  set (taxable := PyNum.max (gross - sd) 0).
  assert (Htx : 0 <= taxable /\ taxable <= gross) by (unfold taxable; py_cases; qc_lra).
  destruct Htx as [Htx0 Htx1].
  pose proof (bracket_tax_bounds "₹" 0.30 taxable (regime_brackets cfg)
                ltac:(qc_decide) Hinc Hr Htx0) as Hb.
  cbv zeta in Hb. unfold _india_apply_brackets.
  destruct (apply_loop "₹" taxable (regime_brackets cfg) 0 (Fin 0) []) as [t applied].
  cbn [fst] in Hb. destruct Hb as (Hf0 & Hf1 & _).
  rewrite Hcess.
  set (base := if PyNum.leb taxable lim then 0 else PyNum.round2 t).
  assert (Hbase : 0 <= base /\ (base = 0 \/ (base <= 0.30 * gross + (1 # 200)%Q
                                            /\ 1 <= gross))).
  { unfold base. destruct (PyNum.leb taxable lim) eqn:E.
    - split; [apply Qcle_refl | left; reflexivity].
    - apply leb_false in E. split; [exact Hf0 | right].
      set (v := PyNum.round2 t) in *.
      assert (Hl1 : 1 <= lim).
      { unfold lim, cfg. destruct (decide (regime = "new")); qc_decide. }
      split; qc_lra. }
  destruct Hbase as [Hb0 Hb1].
  destruct (surcharge_loop_bounds 0.25 base gross INDIA_SURCHARGE Hb0
              india_surcharge_rates ltac:(qc_decide)) as [Hs0 Hs1].
  fold (_india_surcharge base gross) in Hs0, Hs1.
  assert (Hsz : base = 0 -> _india_surcharge base gross = 0).
  { intros ->. apply surcharge_loop_zero. }
  pose proof (round2_near (base * 0.25)) as [_ Hsn].
  set (s := _india_surcharge base gross) in *.
  eapply (within_gross_rounded gross (base + s + (base + s) * 0.04));
    [| | reflexivity | reflexivity | reflexivity].
  - qc_lra.
  - destruct Hb1 as [Hz | [Hle Hbig]].
    + rewrite (Hsz Hz), Hz. qc_lra.
    + set (q := PyNum.round2 (base * 0.25)) in *. qc_lra.
Qed.

End WithinGross.

(** X21.  Whenever the take-home handler answers a gross income that is
    not negative, in any of the three countries, the total tax lies
    between 0 and the gross pay it reports, and so does the take-home
    pay. *)
Theorem take_home_within_gross
    (data : Tax.take_home_request) (gross : Qc) (r : Tax.take_home) :
  Tax.gross_income data = Number gross -> 0 <= gross ->
  Tax.api_take_home_pay data = Json200 r ->
  Spec.within_gross r.
Proof.
  intros Hf Hg. unfold Tax.api_take_home_pay. rewrite Hf. cbn [float_required].
  cbv zeta.
  assert (Hw : forall d r0, Spec.within_gross r0 -> Spec.within_gross (Tax.with_per_period d r0)).
  { intros d r0 H. exact H. }
  destruct (decide (upper (default "US" (Tax.country data)) = "US")).
  { destruct (Tax._us_take_home gross _ _) as [r0 | err] eqn:E; [| discriminate].
    intros H. injection H as <-. apply Hw.
    eapply us_take_home_within; eassumption. }
  destruct (decide (upper (default "US" (Tax.country data)) = "UK")).
  { intros H. injection H as <-. apply Hw. now apply uk_take_home_within. }
  destruct (decide (upper (default "US" (Tax.country data)) = "IN")); [| discriminate].
  intros H. injection H as <-. apply Hw. now apply india_take_home_within.
Qed.

Lemma take_home_within_gross_witness :
  let data :=
    {| Tax.gross_income := Number 80000; Tax.country := Some "uk";
       Tax.filing_status := None; Tax.state := None;
       Tax.pay_frequency := None; Tax.regime := None |} in
  exists r, Tax.api_take_home_pay data = Json200 r /\ Spec.within_gross r.
Proof.
  intros data. eexists. split; [reflexivity |].
  apply (take_home_within_gross data 80000); [reflexivity | qc_decide | reflexivity].
Defined.

(** ** The capital-gains handler *)

Section CapitalGainsHandler.

Import Tax Spec Config.

Lemma us_cgt_returns (gross_gain income holding : Qc) (filing asset : string) :
  exists r, _us_cgt gross_gain income filing holding asset = Ok r
            /\ gain r = PyNum.round2 gross_gain.
Proof.
  unfold _us_cgt. destruct (negb (PyNum.leb US_LTCG_HOLDING_MONTHS holding)).
  - rewrite us_single_table, !bind_Ok.
    destruct (_apply_brackets (income + gross_gain) _) as [tax a].
    rewrite !bind_Ok.
    destruct (_apply_brackets income _) as [base b].
    rewrite !bind_Ok. eexists. split; reflexivity.
  - destruct (ltcg_table filing) as (single & -> & _). rewrite bind_Ok.
    destruct (ltcg_loop gross_gain income _) as [gain_tax rate].
    rewrite bind_Ok. eexists. split; reflexivity.
Qed.

End CapitalGainsHandler.

(** X23.  [api_capital_gains] never lets an exception through.  It
    answers with data exactly when the purchase and the sale price are
    numbers, the holding period and the income are numbers or missing,
    and the country, in any letter case, is US, UK or IN; the gain it
    then reports is the sale price less the purchase price, rounded to
    cents.  Every other request gets a 422. *)
Theorem capital_gains_handler_outcomes (data : Tax.cgt_request) :
  let country := upper (default "US" (Tax.cg_country data)) in
  let accepted (p s : Qc) :=
    Tax.purchase_price data = Number p /\ Tax.sale_price data = Number s
    /\ Tax.holding_months_field data <> NotNumeric
    /\ Tax.annual_income data <> NotNumeric
    /\ (country = "US" \/ country = "UK" \/ country = "IN") in
  (forall p s, accepted p s ->
   exists r, Tax.api_capital_gains data = Json200 r
             /\ Tax.gain r = PyNum.round2 (s - p))
  /\ ((forall p s, ~ accepted p s) ->
      exists e, Tax.api_capital_gains data = Json422 e).
Proof.
  intros country accepted. unfold accepted, Tax.api_capital_gains. fold country.
  split.
  - intros p s (Hp & Hs & Hh & Hi & Hc). rewrite Hp, Hs. cbn [float_required].
    rewrite !bind_Ok.
    destruct (Tax.holding_months_field data) as [| h |]; [| | contradiction];
      cbn [float_default]; rewrite !bind_Ok;
      (destruct (Tax.annual_income data) as [| i |]; [| | contradiction]);
      cbn [float_default]; rewrite !bind_Ok;
      (destruct (decide (country = "US")) as [Eus | Nus];
       [match goal with
        | |- context [Tax._us_cgt ?g ?i ?f ?h ?a] =>
            destruct (us_cgt_returns g i h f a) as (r & -> & Hg)
        end; exists r; split; [reflexivity | exact Hg] |]);
      (destruct (decide (country = "UK")) as [Euk | Nuk];
       [eexists; split; reflexivity |]);
      (destruct (decide (country = "IN")) as [Ein | Nin];
       [eexists; split; [reflexivity |];
        unfold Tax._india_cgt;
        repeat match goal with
        | |- context [if ?c then _ else _] => destruct c
        end; reflexivity |]);
      exfalso; destruct Hc as [E | [E | E]]; contradiction.
  - intros Hrej.
    destruct (Tax.purchase_price data) as [| p |] eqn:Hp; cbn [float_required];
      [eexists; reflexivity | | eexists; reflexivity].
    rewrite !bind_Ok.
    destruct (Tax.sale_price data) as [| s |] eqn:Hs; cbn [float_required];
      [eexists; reflexivity | | eexists; reflexivity].
    rewrite !bind_Ok.
    destruct (Tax.holding_months_field data) as [| h |] eqn:Hh; cbn [float_default];
      [| | eexists; reflexivity];
      rewrite !bind_Ok;
      (destruct (Tax.annual_income data) as [| i |] eqn:Hi; cbn [float_default];
       [| | eexists; reflexivity]);
      rewrite !bind_Ok;
      (destruct (decide (country = "US")) as [Eus | Nus];
       [exfalso; apply (Hrej p s); repeat split; (discriminate || auto) |]);
      (destruct (decide (country = "UK")) as [Euk | Nuk];
       [exfalso; apply (Hrej p s); repeat split; (discriminate || auto) |]);
      (destruct (decide (country = "IN")) as [Ein | Nin];
       [exfalso; apply (Hrej p s); repeat split; (discriminate || auto) |]);
      eexists; reflexivity.
Qed.

Lemma capital_gains_handler_outcomes_witness :
  let data :=
    {| Tax.cg_country := Some "in"; Tax.asset_type_field := None;
       Tax.purchase_price := Number 1000; Tax.sale_price := Number 1500;
       Tax.holding_months_field := Absent; Tax.annual_income := Absent;
       Tax.cg_filing_status := None |} in
  exists r, Tax.api_capital_gains data = Json200 r
            /\ Tax.gain r = PyNum.round2 (1500 - 1000).
Proof.
  intros data.
  apply (proj1 (capital_gains_handler_outcomes data) 1000 1500).
  split; [reflexivity |]. split; [reflexivity |].
  split; [discriminate |]. split; [discriminate |].
  right. right. reflexivity.
Defined.

(** ** The yearly summary *)

Section YearlySummary.

Import Mortgage Spec.

Lemma year_count_eq (schedule : list amort_row) :
  year_count schedule = ((Z.of_nat (length schedule) + 11) / 12)%Z.
Proof.
  unfold year_count. set (n := Z.of_nat (length schedule)).
  assert (E : (this (Qc_of_Z n) / 12 == n # 12)%Q).
  { rewrite this_of_Z. unfold Qeq, Qdiv, Qmult, Qinv, inject_Z. simpl. lia. }
  rewrite (Qceiling_comp _ _ E). unfold Qceiling, Qfloor, Qopp. simpl.
  Z.div_mod_to_equations. lia.
Qed.

Lemma year_chunk_last (schedule : list amort_row) (yr : Z) :
  (1 <= yr)%Z -> ((yr - 1) * 12 < Z.of_nat (length schedule))%Z ->
  exists row, last (year_chunk schedule yr) = Some row
    /\ ((Z.of_nat (length schedule) <= yr * 12)%Z -> last schedule = Some row).
Proof.
  intros Hyr Hlt. unfold year_chunk.
  set (k := Z.to_nat ((yr - 1) * 12)).
  assert (Hk : (k < length schedule)%nat) by lia.
  rewrite last_lookup, length_take, length_drop.
  rewrite lookup_take_lt by lia. rewrite lookup_drop.
  destruct (lookup_lt_is_Some_2 schedule
              (k + Nat.pred (Nat.min 12 (length schedule - k)))) as [row Hrow];
    [lia |].
  exists row. split; [exact Hrow |].
  intros Hle. rewrite last_lookup, <- Hrow. f_equal. lia.
Qed.

Lemma summarize_loop_ok (schedule : list amort_row) (n : nat) : forall yr acc,
  (1 <= yr)%Z ->
  ((yr + Z.of_nat n - 2) * 12 < Z.of_nat (length schedule))%Z \/ n = 0%nat ->
  exists rows,
    summarize_loop schedule n yr acc = Ok (acc ++ rows)
    /\ map summary_year rows = map (fun i => (yr + Z.of_nat i)%Z) (seq 0 n)
    /\ ((Z.of_nat (length schedule) <= (yr + Z.of_nat n - 1) * 12)%Z ->
        (0 < n)%nat ->
        exists y row, last rows = Some y /\ last schedule = Some row
                      /\ summary_balance y = PyNum.round2 (balance row)).
Proof.
  induction n as [| n IH]; intros yr acc Hyr Hlen.
  - exists []. rewrite app_nil_r. split; [reflexivity |].
    split; [reflexivity | intros _ H; lia].
  - destruct Hlen as [Hlen | Hlen]; [| discriminate Hlen].
    destruct (year_chunk_last schedule yr Hyr ltac:(lia)) as (row & Hrow & Hend).
    cbn [summarize_loop]. rewrite Hrow.
    set (r := {| summary_year := yr;
                 principal_paid := _; interest_paid := _;
                 summary_balance := _ |}).
    destruct (IH (yr + 1)%Z (acc ++ [r]) ltac:(lia)) as (rows & Hloop & Hyears & Hlast).
    { destruct n; [right; reflexivity | left; lia]. }
    exists (r :: rows). split; [| split].
    + rewrite Hloop, <- app_assoc. reflexivity.
    + cbn [map seq]. rewrite Hyears, <- seq_shift, map_map. f_equal.
      * unfold r. cbn [summary_year]. lia.
      * apply map_ext. intros i. lia.
    + intros Hle _. destruct n as [| n'].
      * exists r, row.
        assert (Er : rows = []).
        { destruct rows; [reflexivity | discriminate Hyears]. }
        subst rows. split; [reflexivity |].
        split; [apply Hend; lia | reflexivity].
      * destruct (Hlast ltac:(lia) ltac:(lia)) as (y & row' & Hy & Hr' & Hb).
        exists y, row'. split; [| split; assumption].
        destruct rows as [| r' rows']; [discriminate Hy | exact Hy].
Qed.

Lemma summarize_by_year_rows (schedule : list amort_row) :
  exists yearly,
    _summarize_by_year schedule = Ok yearly
    /\ map summary_year yearly
       = map Z.of_nat (seq 1 ((length schedule + 11) / 12))
    /\ (forall row, last schedule = Some row ->
        exists y, last yearly = Some y
                  /\ summary_balance y = PyNum.round2 (balance row)).
Proof.
  unfold _summarize_by_year. rewrite year_count_eq.
  set (len := length schedule).
  assert (En : Z.to_nat ((Z.of_nat len + 11) / 12) = ((len + 11) / 12)%nat).
  { rewrite <- (Nat2Z.id ((len + 11) / 12)). f_equal.
    rewrite Nat2Z.inj_div. f_equal. lia. }
  rewrite En. set (n := ((len + 11) / 12)%nat).
  assert (Hn : (12 * n <= len + 11 < 12 * n + 12)%nat).
  { unfold n. pose proof (Nat.div_mod_eq (len + 11) 12) as Hd.
    pose proof (Nat.mod_upper_bound (len + 11) 12 ltac:(lia)). lia. }
  destruct (summarize_loop_ok schedule n 1 [] ltac:(lia)) as (rows & Hloop & Hyears & Hlast).
  { destruct n; [right; reflexivity | left; lia]. }
  exists rows. split; [exact Hloop |]. split.
  - rewrite Hyears, <- seq_shift, map_map. apply map_ext. intros i. lia.
  - intros row Hrow.
    assert (Hpos : (0 < len)%nat).
    { unfold len. destruct schedule; [discriminate Hrow | simpl; lia]. }
    destruct (Hlast ltac:(lia) ltac:(lia)) as (y & row' & Hy & Hr' & Hb).
    exists y. split; [exact Hy |]. rewrite Hrow in Hr'. injection Hr' as <-.
    exact Hb.
Qed.

End YearlySummary.

(** X6.  [_summarize_by_year] never fails on an empty chunk: for every
    schedule it returns one row per started year of twelve rows, numbered
    1, 2, ... in order, and the balance of its last row is the balance of
    the last row of the schedule, rounded to cents. *)
Theorem summarize_by_year_shape (schedule : list Mortgage.amort_row) :
  exists yearly,
    Mortgage._summarize_by_year schedule = Ok yearly
    /\ map Mortgage.summary_year yearly
       = map Z.of_nat (seq 1 ((length schedule + 11) / 12))
    /\ (forall row, last schedule = Some row ->
        exists y, last yearly = Some y
                  /\ Mortgage.summary_balance y = PyNum.round2 (Mortgage.balance row)).
Proof. exact (summarize_by_year_rows schedule). Qed.

(** ** The repayment handler *)

Section Repayment.

Import Mortgage Spec.

Lemma validate_number_cases (f : num_field) (lo hi : Z) (label : string) :
  label <> "" ->
  (number_within f (Qc_of_Z lo) (Qc_of_Z hi)
   /\ exists v, f = Number v /\ _validate_number f lo hi label = (Some v, None))
  \/ (~ number_within f (Qc_of_Z lo) (Qc_of_Z hi)
      /\ exists msg, _validate_number f lo hi label = (None, Some msg) /\ msg <> "").
Proof.
  intros Hl.
  assert (Hne : forall rest : string, (label ++ rest)%string <> "").
  { intros rest E. destruct label; [congruence | discriminate E]. }
  destruct f as [| v |]; unfold _validate_number.
  - right. split; [intros (v & E & _); discriminate E |].
    eexists. split; [reflexivity | apply Hne].
  - destruct (PyNum.leb (Qc_of_Z lo) v) eqn:E1;
      [destruct (PyNum.leb v (Qc_of_Z hi)) eqn:E2 |]; cbn [negb andb].
    + left. apply leb_true in E1, E2.
      split; [exists v; auto | exists v; auto].
    + right. apply leb_false in E2. split.
      * intros (w & Ew & _ & Hw). injection Ew as <-.
        apply Qcle_not_lt in Hw. contradiction.
      * eexists. split; [reflexivity | apply Hne].
    + right. apply leb_false in E1. split.
      * intros (w & Ew & Hw & _). injection Ew as <-.
        apply Qcle_not_lt in Hw. contradiction.
      * eexists. split; [reflexivity | apply Hne].
  - right. split; [intros (v & E & _); discriminate E |].
    eexists. split; [reflexivity | apply Hne].
Qed.

Lemma append_error_some (errors : list string) (msg : string) :
  msg <> "" -> append_error errors (Some msg) = errors ++ [msg].
Proof.
  intros H. unfold append_error. destruct (decide (msg = "")); [contradiction |].
  reflexivity.
Qed.

Lemma py_int_floor (q : Qc) : 0 <= q -> py_int q = Qfloor (this q).
Proof.
  intros H. unfold py_int, Qfloor, Qcle, Qle in *.
  destruct (this q) as [n d]. simpl in *. apply Z.quot_div_nonneg; lia.
Qed.

Lemma py_int_months (t : Qc) : 1 <= t -> Z.le 12 (py_int (t * 12)).
Proof.
  intros H. rewrite py_int_floor by qc_lra.
  assert (H12 : 12 <= t * 12) by qc_lra.
  exact (Qfloor_resp_le _ _ H12).
Qed.

(** The payments of the whole term add up to the principal at least. *)
Lemma payments_total (P rate : Qc) (term : Z) :
  0 <= P -> 0 <= rate -> (1 <= term)%Z ->
  exists pmt, _monthly_payment P rate term = Ok pmt
              /\ P <= pmt * Qc_of_Z term.
Proof.
  intros HP Hrate Hterm.
  assert (Ht : 0 < Qc_of_Z term).
  { unfold Qclt. simpl. rewrite <- (Zlt_Qlt 0). lia. }
  destruct (Qc_eq_dec rate 0) as [-> | Hne].
  - rewrite monthly_payment_zero_rate.
    assert (E : (term =? 0)%Z = false) by (apply Z.eqb_neq; lia).
    rewrite E. eexists. split; [reflexivity |].
    destruct (inv_pos _ Ht) as [Hi Hone]. unfold Qcdiv.
    rewrite <- Qcmult_assoc, (Qcmult_comm (/ Qc_of_Z term)), Hone, Qcmult_1_r.
    apply Qcle_refl.
  - assert (Hpos : 0 < rate).
    { destruct (Qclt_le_dec 0 rate) as [H | H]; [exact H |].
      exfalso. apply Hne. apply Qcle_antisym; assumption. }
    destruct (monthly_payment_annuity P rate term Hpos Hterm) as [Ha ->].
    pose proof (monthly_rate_pos rate Hpos) as Hr.
    set (r := rate / 100 / 12) in *. set (n := Z.to_nat term) in *.
    set (a := (1 + r) ^ n) in *.
    eexists. split; [reflexivity |].
    pose proof (annuity_bernoulli r n ltac:(qc_lra)) as Hbern.
    fold a in Hbern.
    assert (Hz : Qc_of_Z (Z.of_nat n) = Qc_of_Z term).
    { unfold n. rewrite Z2Nat.id by lia. reflexivity. }
    rewrite Hz in Hbern.
    destruct (inv_pos (a - 1)) as [Hi Hone]; [qc_lra |].
    unfold Qcdiv. set (i := / (a - 1)) in *. set (t := Qc_of_Z term) in *.
    assert (Hpi : 0 <= P * i) by qc_nra.
    set (u := P * i) in *.
    assert (Hmul : u * (a - 1) <= u * (t * r * a)) by qc_nra.
    assert (E1 : P * (r * a) * i * t = u * (t * r * a)) by (unfold u; to_Q; ring).
    assert (E2 : u * (a - 1) = P * ((a - 1) * i)) by (unfold u; to_Q; ring).
    rewrite Hone in E2. rewrite E1. qc_lra.
Qed.

Lemma amortize_loop_length (n : nat) (m : Z) (r pmt b : Qc) :
  length (amortize_loop n m r pmt b []) = n.
Proof.
  rewrite <- (length_map month), amortize_loop_months, length_map, length_seq.
  reflexivity.
Qed.

Lemma repayment_answer (P rate t : Qc) (data : repayment_request) :
  _validate_number (rp_principal data) 1000 100000000 "Loan amount" = (Some P, None) ->
  _validate_number (rp_annual_rate data) 0 30 "Annual interest rate" = (Some rate, None) ->
  _validate_number (rp_term_years data) 1 40 "Loan term" = (Some t, None) ->
  1000 <= P -> 0 <= rate -> 1 <= t ->
  exists d, api_repayment data = Json200 d
    /\ Z.of_nat (length (amortization_table d)) = py_int (t * 12)
    /\ effective_rate d = rate
    /\ 0 <= total_interest d.
Proof.
  intros E1 E2 E3 HP Hrate Ht.
  unfold api_repayment, repayment_errors. rewrite E1, E2, E3.
  cbn [fst snd append_error].
  pose proof (py_int_months t Ht) as Hm.
  set (term := py_int (t * 12)) in *.
  destruct (payments_total P rate term ltac:(qc_lra) Hrate ltac:(lia))
    as (pmt & Hpmt & Htot).
  unfold _amortize. rewrite Hpmt, !bind_Ok.
  destruct (summarize_by_year_rows
              (amortize_loop (Z.to_nat term) 1 (rate / 100 / 12) pmt P []))
    as (yearly & Hy & _).
  rewrite Hy, bind_Ok.
  eexists. split; [reflexivity |].
  cbn [amortization_table effective_rate total_interest].
  split; [rewrite amortize_loop_length; lia |].
  split; [reflexivity |].
  apply round2_nonneg. qc_lra.
Qed.

End Repayment.



(** ** Interest-free loans *)

Section InterestFree.

Import Mortgage Spec.

Lemma of_nat_succ (k : nat) :
  Qc_of_Z (Z.of_nat (S k)) = Qc_of_Z (Z.of_nat k) + 1.
Proof.
  apply Qc_is_canon. rewrite this_plus, !this_of_Z, Nat2Z.inj_succ.
  unfold Z.succ. rewrite inject_Z_plus. reflexivity.
Qed.

Lemma of_nat_nonneg (k : nat) : 0 <= Qc_of_Z (Z.of_nat k).
Proof. unfold Qcle. simpl. rewrite <- (Zle_Qle 0). lia. Qed.

Lemma amortize_loop_zero_rate (pmt : Qc) (n : nat) : forall m b,
  Forall (fun row => interest row = 0 /\ principal row = payment row
                     /\ payment row = PyNum.round2 pmt)
    (amortize_loop n m 0 pmt b []).
Proof.
  induction n as [| n IH]; intros m b; [constructor |].
  cbn [amortize_loop]. rewrite amortize_loop_app. cbn [app].
  constructor; [| apply IH].
  cbn [interest principal payment].
  assert (E0 : b * 0 = 0) by ring.
  assert (E1 : pmt - 0 = pmt) by ring.
  rewrite E0, E1. split; [apply round2_zero | split; reflexivity].
Qed.

Lemma exact_balances_zero_rate (pmt : Qc) (k : nat) : forall b,
  0 <= pmt -> b = pmt * Qc_of_Z (Z.of_nat (S k)) ->
  last (exact_balances (S k) 0 pmt b) = Some 0.
Proof.
  induction k as [| k IH]; intros b Hp Hb.
  - cbn [exact_balances last]. f_equal.
    assert (E1 : Qc_of_Z (Z.of_nat 1) = 1) by (apply Qc_is_canon; reflexivity).
    rewrite Hb, E1.
    assert (E : pmt * 1 - (pmt - pmt * 1 * 0) = 0) by ring.
    rewrite E. destruct (max_spec 0 0) as [[_ ->] | [_ ->]]; reflexivity.
  - assert (E : exact_balances (S (S k)) 0 pmt b
                = PyNum.max (b - (pmt - b * 0)) 0
                  :: exact_balances (S k) 0 pmt (PyNum.max (b - (pmt - b * 0)) 0))
      by reflexivity.
    rewrite E.
    assert (Hb' : PyNum.max (b - (pmt - b * 0)) 0 = pmt * Qc_of_Z (Z.of_nat (S k))).
    { rewrite Hb, (of_nat_succ (S k)).
      pose proof (of_nat_nonneg (S k)) as Hc.
      set (c := Qc_of_Z (Z.of_nat (S k))) in *.
      destruct (max_spec (pmt * (c + 1) - (pmt - pmt * (c + 1) * 0)) 0)
        as [[Hlt ->] | [_ ->]]; [exfalso; qc_nra | ring]. }
    specialize (IH _ Hp Hb').
    set (b' := PyNum.max (b - (pmt - b * 0)) 0) in *.
    set (l := exact_balances (S k) 0 pmt b') in *.
    destruct l as [| x l']; [discriminate IH | exact IH].
Qed.

Lemma amortize_loop_last (n : nat) (r pmt P : Qc) :
  (0 < n)%nat ->
  exists row, last (amortize_loop n 1 r pmt P []) = Some row
    /\ month row = Z.of_nat n
    /\ Some (balance row) = option_map PyNum.round2 (last (exact_balances n r pmt P)).
Proof.
  intros Hn.
  pose proof (amortize_loop_months n 1 r pmt P) as Hm.
  pose proof (amortize_loop_balances n 1 r pmt P) as Hb.
  destruct (last (amortize_loop n 1 r pmt P [])) as [row |] eqn:El.
  - exists row. split; [reflexivity |].
    pose proof (last_map month (amortize_loop n 1 r pmt P [])) as Elm.
    pose proof (last_map balance (amortize_loop n 1 r pmt P [])) as Elb.
    rewrite El in Elm, Elb. cbn [option_map] in Elm, Elb.
    rewrite Hm in Elm. rewrite Hb, last_map in Elb.
    assert (En : n = S (Nat.pred n)) by lia.
    rewrite En, seq_S, map_app in Elm. cbn [map] in Elm.
    rewrite last_snoc in Elm.
    split; [injection Elm as <-; lia | symmetry; exact Elb].
  - exfalso. apply last_None in El. apply (f_equal (@length _)) in El.
    rewrite amortize_loop_length in El. simpl in El. lia.
Qed.

End InterestFree.



(** ** Refinancing *)

Section Refinance.

Import Mortgage Spec.

Lemma py_int_zero (x : Qc) : 0 <= x -> (py_int x = 0%Z <-> x < 1).
Proof.
  intros Hx. rewrite (py_int_floor x Hx).
  pose proof (Qfloor_le (this x)) as Hlo.
  pose proof (Qlt_floor (this x)) as Hhi.
  rewrite inject_Z_plus in Hhi. change (inject_Z 1) with 1%Q in Hhi.
  assert (H0 : (0 <= Qfloor (this x))%Z).
  { change 0%Z with (Qfloor 0). apply Qfloor_resp_le. exact Hx. }
  rewrite Zle_Qle in H0. change (inject_Z 0) with 0%Q in H0.
  split.
  - intros E. rewrite E in Hhi. unfold Qclt. rewrite this_Q2Qc.
    change (inject_Z 0) with 0%Q in Hhi. lra.
  - intros H1. unfold Qclt in H1. rewrite this_Q2Qc in H1.
    assert (H2 : (Qfloor (this x) < 1)%Z).
    { rewrite Zlt_Qlt. change (inject_Z 1) with 1%Q. lra. }
    assert (H3 : (0 <= Qfloor (this x))%Z).
    { rewrite Zle_Qle. exact H0. }
    lia.
Qed.

Lemma py_int_below (x : Qc) (m : Z) :
  0 <= x -> ((py_int x < m)%Z <-> x < Qc_of_Z m).
Proof.
  intros Hx. rewrite (py_int_floor x Hx).
  pose proof (Qfloor_le (this x)) as Hlo.
  pose proof (Qlt_floor (this x)) as Hhi.
  rewrite inject_Z_plus in Hhi. change (inject_Z 1) with 1%Q in Hhi.
  unfold Qclt. rewrite this_of_Z. split.
  - intros H. assert (H' : (Qfloor (this x) + 1 <= m)%Z) by lia.
    rewrite Zle_Qle, inject_Z_plus in H'. change (inject_Z 1) with 1%Q in H'. lra.
  - intros H. rewrite Zlt_Qlt. lra.
Qed.

Lemma quotient_bounds (c s n : Qc) :
  0 < s -> 0 <= c ->
  0 <= c / s /\ (c / s < 1 <-> c < s) /\ (c / s < n <-> c < s * n).
Proof.
  intros Hs Hc. destruct (inv_pos s Hs) as [Hi Hone]. unfold Qcdiv.
  set (i := / s) in *.
  assert (E : forall y, y * i * s = y).
  { intros y. rewrite <- Qcmult_assoc, (Qcmult_comm i), Hone. ring. }
  assert (Hmono : forall a b, a < b <-> a * i < b * i).
  { intros a b. split; intros H.
    - qc_nra.
    - rewrite <- (E a), <- (E b). set (u := a * i) in *. set (v := b * i) in *.
      qc_nra. }
  split; [qc_nra |]. split.
  - rewrite (Hmono c s). rewrite Hone. reflexivity.
  - rewrite (Hmono c (s * n)).
    assert (E2 : s * n * i = n).
    { rewrite (Qcmult_comm s n), <- Qcmult_assoc, Hone. ring. }
    rewrite E2. reflexivity.
Qed.

End Refinance.



(** ** Rent versus buy: what nothing catches *)

Section RentVsBuyErrors.

Import Mortgage Spec.

Lemma monthly_payment_returns (P rate : Qc) (term : Z) :
  0 <= rate -> (1 <= term)%Z ->
  exists pmt, _monthly_payment P rate term = Ok pmt.
Proof.
  intros Hrate Hterm.
  destruct (Qc_eq_dec rate 0) as [-> | Hne].
  - rewrite monthly_payment_zero_rate.
    assert (E : (term =? 0)%Z = false) by (apply Z.eqb_neq; lia).
    rewrite E. eexists. reflexivity.
  - assert (Hpos : 0 < rate).
    { destruct (Qclt_le_dec 0 rate) as [H | H]; [exact H |].
      exfalso. apply Hne. apply Qcle_antisym; assumption. }
    destruct (monthly_payment_annuity P rate term Hpos Hterm) as [_ ->].
    eexists. reflexivity.
Qed.

Lemma monthly_payment_zero_term (P rate : Qc) :
  rate <> 0 -> _monthly_payment P rate 0 = Raise ZeroDivisionError.
Proof.
  intros Hne. unfold _monthly_payment.
  apply eqb_false in Hne. rewrite Hne.
  unfold pypow. cbn [Z.ltb Z.compare]. rewrite !bind_Ok. unfold pydiv.
  change (Z.to_nat 0) with 0%nat. cbn [Qcpower].
  assert (Eb : PyNum.eqb (1 - 1) 0 = true) by (apply eqb_true; ring).
  rewrite Eb. reflexivity.
Qed.

Lemma rvb_compute_outcomes (i : rvb_inputs) :
  (in_term_years i = 0%Z -> in_mortgage_rate i <> 0 ->
   rvb_compute i = Raise ZeroDivisionError)
  /\ ((1 <= in_term_years i)%Z -> 0 <= in_mortgage_rate i ->
      ((in_years i <= 0)%Z -> rvb_compute i = Raise IndexError)
      /\ ((1 <= in_years i)%Z ->
          exists d, rvb_compute i = Ok d
                    /\ Z.of_nat (length (yearly_comparison d))
                       = Z.min (in_years i) 30)).
Proof.
  split.
  - intros Ht Hr. unfold rvb_compute. rewrite Ht. cbn [Z.mul].
    rewrite (monthly_payment_zero_term _ _ Hr). reflexivity.
  - intros Ht Hr. unfold rvb_compute.
    set (loan := in_home_price i - in_home_price i * in_down_pct i / 100).
    destruct (monthly_payment_returns loan (in_mortgage_rate i)
                (in_term_years i * 12) Hr ltac:(lia)) as (pmt & Hpmt).
    unfold _amortize. rewrite Hpmt, !bind_Ok. cbv zeta.
    match goal with
    | |- context [year_loop ?a ?b ?c ?e ?n ?y ?s0] =>
        pose proof (year_loop_inv a b c e n y s0) as Hinv;
        set (s := year_loop a b c e n y s0) in *
    end.
    destruct Hinv as [_ Hy]; [simpl; constructor |].
    cbn [yearly map app] in Hy.
    apply (f_equal (@length _)) in Hy.
    rewrite !length_map, length_seq in Hy.
    split.
    + intros Hyears.
      assert (E0 : Z.to_nat (Z.min (in_years i) 30) = 0%nat) by lia.
      rewrite E0 in Hy.
      destruct (yearly s) as [| row rows]; [reflexivity | discriminate Hy].
    + intros Hyears.
      destruct (last (yearly s)) as [last_row |] eqn:El.
      * eexists. split; [reflexivity |]. cbn [yearly_comparison]. lia.
      * exfalso. apply last_None in El. rewrite El in Hy. simpl in Hy. lia.
Qed.

End RentVsBuyErrors.



(** ** The payment grows with the rate *)

Section RateMonotone.

Import Mortgage Spec.

Lemma geometric_sum_closed (a : Qc) (n : nat) :
  (a - 1) * geometric_sum a n = a ^ n - 1.
Proof.
  induction n as [| n IH]; [simpl; ring |].
  cbn [geometric_sum Qcpower].
  assert (E : (a - 1) * (geometric_sum a n + a ^ n)
              = (a - 1) * geometric_sum a n + (a - 1) * a ^ n) by ring.
  rewrite E, IH. ring.
Qed.

Lemma geometric_sum_one (n : nat) : geometric_sum 1 n = Qc_of_Z (Z.of_nat n).
Proof.
  induction n as [| n IH]; [apply Qc_is_canon; reflexivity |].
  cbn [geometric_sum]. rewrite IH, of_nat_succ.
  assert (E : (1 : Qc) ^ n = 1) by (clear; induction n; simpl; [reflexivity | rewrite IHn; ring]).
  rewrite E. reflexivity.
Qed.

Lemma pow_pos (a : Qc) (n : nat) : 0 < a -> 0 < a ^ n.
Proof.
  intros Ha. induction n as [| n IH]; simpl; [qc_decide |].
  set (p := a ^ n) in *. qc_nra.
Qed.

Lemma geometric_sum_pos (a : Qc) (n : nat) :
  0 < a -> (0 < n)%nat -> 0 < geometric_sum a n.
Proof.
  intros Ha Hn. destruct n as [| n]; [lia |]. clear Hn.
  induction n as [| n IH].
  - simpl. qc_lra.
  - cbn [geometric_sum] in *. pose proof (pow_pos a (S n) Ha) as Hp.
    set (g := geometric_sum a n + a ^ n) in *. set (p := a ^ S n) in *. qc_lra.
Qed.

Lemma ratio_mono (a b : Qc) (n : nat) :
  1 <= a -> a <= b ->
  a ^ n * geometric_sum b n <= b ^ n * geometric_sum a n.
Proof.
  intros Ha Hab. induction n as [| n IH]; [simpl; qc_lra |].
  cbn [geometric_sum Qcpower].
  assert (Hga : 0 <= geometric_sum a n).
  { destruct n; [simpl; qc_lra |].
    apply Qclt_le_weak, geometric_sum_pos; [qc_lra | lia]. }
  pose proof (pow_pos a n ltac:(qc_lra)) as Hpa.
  pose proof (pow_pos b n ltac:(qc_lra)) as Hpb.
  set (ga := geometric_sum a n) in *. set (gb := geometric_sum b n) in *.
  set (pa := a ^ n) in *. set (pb := b ^ n) in *.
  assert (H1 : 0 <= pb * ga) by qc_nra.
  assert (H2 : 0 < pa * pb) by qc_nra.
  set (x := pa * gb) in *. set (y := pb * ga) in *. set (z := pa * pb) in *.
  assert (E1 : a * pa * (gb + pb) = a * x + a * z) by (unfold x, z; ring).
  assert (E2 : b * pb * (ga + pa) = b * y + b * z) by (unfold y, z; ring).
  rewrite E1, E2. qc_nra.
Qed.

(** The payment of every rate that is not negative, in one formula. *)
Lemma payment_as_ratio (P rate : Qc) (term : Z) :
  0 <= rate -> (1 <= term)%Z ->
  let a := 1 + rate / 100 / 12 in
  let n := Z.to_nat term in
  0 < geometric_sum a n
  /\ _monthly_payment P rate term = Ok (P * a ^ n / geometric_sum a n).
Proof.
  intros Hrate Hterm a n.
  pose proof (monthly_rate_nonneg rate Hrate) as Hr.
  assert (Hg : 0 < geometric_sum a n).
  { apply geometric_sum_pos; [unfold a; qc_lra | lia]. }
  split; [exact Hg |].
  destruct (Qc_eq_dec rate 0) as [-> | Hne].
  - rewrite monthly_payment_zero_rate.
    assert (E : (term =? 0)%Z = false) by (apply Z.eqb_neq; lia).
    rewrite E. f_equal.
    assert (Ea : a = 1) by (unfold a; apply Qc_is_canon; reflexivity).
    rewrite Ea, geometric_sum_one.
    assert (E1 : (1 : Qc) ^ n = 1)
      by (clear; induction n; simpl; [reflexivity | rewrite IHn; ring]).
    rewrite E1. unfold n. rewrite Z2Nat.id by lia. unfold Qcdiv. ring.
  - assert (Hpos : 0 < rate).
    { destruct (Qclt_le_dec 0 rate) as [H | H]; [exact H |].
      exfalso. apply Hne. apply Qcle_antisym; assumption. }
    destruct (monthly_payment_annuity P rate term Hpos Hterm) as [Ha ->].
    pose proof (monthly_rate_pos rate Hpos) as Hr'.
    fold a. fold n. f_equal.
    pose proof (geometric_sum_closed a n) as Hc.
    assert (Ea : a - 1 = rate / 100 / 12) by (unfold a; ring).
    rewrite Ea in Hc. set (r := rate / 100 / 12) in *.
    set (g := geometric_sum a n) in *. set (p := a ^ n) in *.
    rewrite <- Hc.
    destruct (inv_pos g Hg) as [Hig Hg1].
    assert (Hrg : 0 < r * g) by qc_nra.
    destruct (inv_pos (r * g) Hrg) as [Hirg Hrg1].
    unfold Qcdiv. set (i := / g) in *. set (j := / (r * g)) in *.
    assert (Ej : j = j * (g * i)) by (rewrite Hg1; ring).
    assert (Ei : i = i * (r * g * j)) by (rewrite Hrg1; ring).
    rewrite Ei at 1.
    assert (E3 : P * (r * p) * j = P * p * (r * j)) by ring.
    assert (E4 : P * p * (i * (r * g * j)) = P * p * (r * j) * (g * i)) by ring.
    rewrite E3, E4, Hg1. ring.
Qed.

End RateMonotone.



(** ** Home affordability *)

Section Affordability.

Import Mortgage Spec.

Lemma round0_zero : round0 0 = 0.
Proof. apply Qc_is_canon. reflexivity. Qed.

Lemma round0_mono (x y : Qc) : x <= y -> round0 x <= round0 y.
Proof.
  intros H. unfold round0, Qcle. rewrite !this_of_Z, <- Zle_Qle.
  now apply round_half_even_mono.
Qed.

Lemma round0_nonneg (x : Qc) : 0 <= x -> 0 <= round0 x.
Proof. intros H. rewrite <- round0_zero. now apply round0_mono. Qed.

Lemma over_factor_returns (x factor : Qc) :
  exists v, over_factor x factor = Ok v.
Proof.
  unfold over_factor. destruct (PyNum.ltb 0 factor) eqn:E; [| eexists; reflexivity].
  apply ltb_true in E. rewrite pydiv_ok by (intros ->; qc_lra).
  eexists. reflexivity.
Qed.

(** The annuity factor of a positive rate and term. *)
Lemma factor_returns (r : Qc) (n : Z) :
  0 < r -> (0 < n)%Z ->
  exists f,
    (growth ← pypow (1 + r) n; growth' ← pypow (1 + r) n;
     pydiv (r * growth) (growth' - 1)) = Ok f
    /\ 0 < f.
Proof.
  intros Hr Hn. unfold pypow.
  assert (E : (n <? 0)%Z = false) by (apply Z.ltb_ge; lia).
  rewrite E, !bind_Ok.
  pose proof (pow_gt1 (1 + r) (Z.to_nat n) ltac:(qc_lra) ltac:(lia)) as Ha.
  set (a := (1 + r) ^ Z.to_nat n) in *.
  rewrite pydiv_ok by (intros E0; qc_lra).
  eexists. split; [reflexivity |].
  destruct (inv_pos (a - 1)) as [Hi _]; [qc_lra |].
  unfold Qcdiv. set (i := / (a - 1)) in *.
  assert (Hra : 0 < r * a) by qc_nra.
  set (x := r * a) in *. qc_nra.
Qed.

End Affordability.



(** ** Credit scores *)

Section CreditScore.

Import Debt Spec.

(** The bands of the two score tables, side by side. *)
Lemma score_cases (s : Z) :
  ((s < 300)%Z /\ _get_credit_tier s = "Very Poor"
   /\ _get_apr_range s = (Q2Qc 36.0, Q2Qc 36.0))
  \/ ((300 <= s <= 579)%Z /\ _get_credit_tier s = "Very Poor"
      /\ _get_apr_range s = (Q2Qc 36.0, Q2Qc 36.0))
  \/ ((580 <= s <= 639)%Z /\ _get_credit_tier s = "Poor"
      /\ _get_apr_range s = (Q2Qc 28.0, Q2Qc 36.0))
  \/ ((640 <= s <= 679)%Z /\ _get_credit_tier s = "Fair"
      /\ _get_apr_range s = (Q2Qc 21.0, Q2Qc 28.0))
  \/ ((680 <= s <= 719)%Z /\ _get_credit_tier s = "Good"
      /\ _get_apr_range s = (Q2Qc 17.0, Q2Qc 21.0))
  \/ ((720 <= s <= 749)%Z /\ _get_credit_tier s = "Very Good"
      /\ _get_apr_range s = (Q2Qc 12.0, Q2Qc 17.0))
  \/ ((750 <= s <= 850)%Z /\ _get_credit_tier s = "Excellent"
      /\ _get_apr_range s = (Q2Qc 7.5, Q2Qc 12.0))
  \/ ((850 < s)%Z /\ _get_credit_tier s = "Excellent"
      /\ _get_apr_range s = (Q2Qc 36.0, Q2Qc 36.0)).
Proof.
  unfold _get_credit_tier, _get_apr_range, Config.CREDIT_SCORE_TIERS,
    Config.PERSONAL_LOAN_APR_MAP.
  cbn [credit_tier_loop apr_range_loop].
  destruct (Z_lt_le_dec s 300) as [H1 | H1].
  { left. split; [exact H1 |].
    repeat match goal with
    | |- context [(?a <=? ?b)%Z] =>
        destruct (Z.leb_spec a b); cbn [andb]; try lia
    end; split; reflexivity. }
  right. destruct (Z_le_gt_dec s 579) as [H2 | H2].
  { left. split; [lia |].
    repeat match goal with
    | |- context [(?a <=? ?b)%Z] =>
        destruct (Z.leb_spec a b); cbn [andb]; try lia
    end; split; reflexivity. }
  right. destruct (Z_le_gt_dec s 639) as [H3 | H3].
  { left. split; [lia |].
    repeat match goal with
    | |- context [(?a <=? ?b)%Z] =>
        destruct (Z.leb_spec a b); cbn [andb]; try lia
    end; split; reflexivity. }
  right. destruct (Z_le_gt_dec s 679) as [H4 | H4].
  { left. split; [lia |].
    repeat match goal with
    | |- context [(?a <=? ?b)%Z] =>
        destruct (Z.leb_spec a b); cbn [andb]; try lia
    end; split; reflexivity. }
  right. destruct (Z_le_gt_dec s 719) as [H5 | H5].
  { left. split; [lia |].
    repeat match goal with
    | |- context [(?a <=? ?b)%Z] =>
        destruct (Z.leb_spec a b); cbn [andb]; try lia
    end; split; reflexivity. }
  right. destruct (Z_le_gt_dec s 749) as [H6 | H6].
  { left. split; [lia |].
    repeat match goal with
    | |- context [(?a <=? ?b)%Z] =>
        destruct (Z.leb_spec a b); cbn [andb]; try lia
    end; split; reflexivity. }
  right. destruct (Z_le_gt_dec s 850) as [H7 | H7].
  { left. split; [lia |].
    repeat match goal with
    | |- context [(?a <=? ?b)%Z] =>
        destruct (Z.leb_spec a b); cbn [andb]; try lia
    end; split; reflexivity. }
  right. split; [lia |].
  repeat match goal with
  | |- context [(?a <=? ?b)%Z] =>
      destruct (Z.leb_spec a b); cbn [andb]; try lia
  end; split; reflexivity.
Qed.

Lemma apr_range_positive (s : Z) :
  0 < fst (_get_apr_range s) /\ 0 < snd (_get_apr_range s).
Proof.
  destruct (score_cases s)
    as [(_ & _ & ->) | [(_ & _ & ->) | [(_ & _ & ->) | [(_ & _ & ->)
       | [(_ & _ & ->) | [(_ & _ & ->) | [(_ & _ & ->) | (_ & _ & ->)]]]]]]];
    cbn [fst snd]; split; qc_decide.
Qed.

End CreditScore.

Ltac qc_differ H :=
  exfalso; first [ discriminate H
                 | apply (f_equal fst) in H; apply (f_equal this) in H;
                   vm_compute in H; discriminate H
                 | apply (f_equal snd) in H; apply (f_equal this) in H;
                   vm_compute in H; discriminate H ].

(** X11.  The APR range of a credit score lies between 7.5 and 36, low
    end first.  A score outside 300..850 gets 36 to 36, so also a score
    above 850, whose tier is Excellent.  From 300 to 850 a higher score
    never has a higher low or high end, and two scores share a tier
    exactly when they share an APR range. *)
Theorem apr_range_by_score (s t : Z) :
  let apr := Debt._get_apr_range in
  (7.5 <= fst (apr s) /\ fst (apr s) <= snd (apr s) /\ snd (apr s) <= 36)
  /\ ((s < 300)%Z \/ (850 < s)%Z -> apr s = (Q2Qc 36.0, Q2Qc 36.0))
  /\ ((850 < s)%Z -> Debt._get_credit_tier s = "Excellent")
  /\ ((300 <= s)%Z -> (s <= t)%Z -> (t <= 850)%Z ->
      fst (apr t) <= fst (apr s) /\ snd (apr t) <= snd (apr s)
      /\ (Debt._get_credit_tier s = Debt._get_credit_tier t <-> apr s = apr t)).
Proof.
  intros apr. unfold apr.
  destruct (score_cases s)
    as [(Hs & Ts & As) | [(Hs & Ts & As) | [(Hs & Ts & As) | [(Hs & Ts & As)
       | [(Hs & Ts & As) | [(Hs & Ts & As) | [(Hs & Ts & As) | (Hs & Ts & As)]]]]]]];
    rewrite As, Ts; cbn [fst snd];
    (split; [split; [qc_decide | split; qc_decide] |]);
    (split; [intros [H | H]; solve [reflexivity | lia] |]);
    (split; [intros H; solve [reflexivity | lia] |]);
    intros H1 H2 H3; try lia;
    destruct (score_cases t)
      as [(Ht & Tt & At) | [(Ht & Tt & At) | [(Ht & Tt & At) | [(Ht & Tt & At)
         | [(Ht & Tt & At) | [(Ht & Tt & At) | [(Ht & Tt & At) | (Ht & Tt & At)]]]]]]];
    try lia; rewrite At, Tt; cbn [fst snd];
    (split; [qc_decide |]); (split; [qc_decide |]);
    (split; intros E; first [reflexivity | qc_differ E]).
Qed.

Lemma apr_range_by_score_witness :
  Debt._get_apr_range 900 = (Q2Qc 36.0, Q2Qc 36.0)
  /\ Debt._get_credit_tier 900 = "Excellent"
  /\ fst (Debt._get_apr_range 700) <= fst (Debt._get_apr_range 650).
Proof.
  destruct (apr_range_by_score 900 900) as (_ & H1 & H2 & _).
  destruct (apr_range_by_score 650 700) as (_ & _ & _ & H3).
  split; [apply H1; right; lia |]. split; [apply H2; lia |].
  apply H3; lia.
Defined.

(** ** Personal loans *)

Section PersonalLoan.

Import Debt Spec.

Lemma debt_payment_returns (P rate : Qc) (term : Z) :
  0 < rate -> (1 <= term)%Z ->
  exists pmt, _monthly_payment P rate term = Ok pmt.
Proof.
  intros Hr Ht. rewrite debt_monthly_payment_same.
  apply monthly_payment_returns; [qc_lra | exact Ht].
Qed.

Lemma debt_payment_zero_term (P rate : Qc) :
  rate <> 0 -> _monthly_payment P rate 0 = Raise ZeroDivisionError.
Proof.
  intros Hr. rewrite debt_monthly_payment_same.
  now apply monthly_payment_zero_term.
Qed.

End PersonalLoan.



(** ** Student loans *)

(** X13.  The loan type of a student-loan request changes nothing but
    the warning: the preset rates are never used, since a request
    without current_rate is refused before they are looked at.  Two
    requests that differ in loan_type only get the same 422, the same
    uncaught exception, or data with the same figures; the breakeven is
    always null, and the warning is there exactly for the three federal
    loan types. *)
Theorem student_loan_type_only_warns
    (data : Debt.student_loan_request) (other : option string) :
  let data' :=
    {| Debt.loan_balance := Debt.loan_balance data;
       Debt.sl_current_rate := Debt.sl_current_rate data;
       Debt.loan_type := other;
       Debt.current_term_years := Debt.current_term_years data;
       Debt.sl_new_rate := Debt.sl_new_rate data;
       Debt.sl_new_term_years := Debt.sl_new_term_years data;
       Debt.income := Debt.income data |} in
  match Debt.api_student_loan data, Debt.api_student_loan data' with
  | Json200 d, Json200 d' =>
    Spec.same_figures d d'
    /\ Debt.sl_breakeven_months d = None
    /\ (Debt.federal_benefits_warning d <> ""
        <-> Debt.loan_type data = Some "undergrad"
            \/ Debt.loan_type data = Some "grad"
            \/ Debt.loan_type data = Some "parent_plus")
  | Json422 e, Json422 e' => e = e'
  | Uncaught e, Uncaught e' => e = e'
  | _, _ => False
  end.
Proof.
  intros data'. unfold Debt.api_student_loan, data'.
  cbn [Debt.loan_balance Debt.sl_current_rate Debt.loan_type
       Debt.current_term_years Debt.sl_new_rate Debt.sl_new_term_years
       Debt.income].
  destruct (Debt.loan_balance data) as [| bal |]; cbn [float_required];
    [reflexivity | | reflexivity].
  rewrite !bind_Ok.
  destruct (Debt.sl_current_rate data) as [| rate |]; cbn [float_required];
    [reflexivity | | reflexivity].
  rewrite !bind_Ok.
  destruct (float_default 10 (Debt.current_term_years data)) as [yrs | e];
    [| reflexivity].
  rewrite !bind_Ok.
  destruct (float_required "new_rate" (Debt.sl_new_rate data)) as [nrate | e];
    [| reflexivity].
  rewrite !bind_Ok.
  destruct (float_default 10 (Debt.sl_new_term_years data)) as [nyrs | e];
    [| reflexivity].
  rewrite !bind_Ok.
  destruct (float_default 60000 (Debt.income data)) as [inc | e];
    [| reflexivity].
  rewrite !bind_Ok. cbn [Debt.not_in_data]. rewrite !andb_false_r, !bind_Ok.
  destruct (Debt._monthly_payment bal rate (py_int (yrs * 12))) as [p1 | e];
    [| reflexivity].
  rewrite !bind_Ok.
  destruct (Debt._monthly_payment bal nrate (py_int (nyrs * 12))) as [p2 | e];
    [| reflexivity].
  rewrite !bind_Ok.
  split; [unfold Spec.same_figures; cbn; repeat split |].
  split; [reflexivity |].
  cbn [Debt.federal_benefits_warning].
  destruct (Debt.loan_type data) as [lt |]; cbn [default from_option id].
  - destruct (bool_decide_reflect (lt = "undergrad" \/ lt = "grad" \/ lt = "parent_plus"))
      as [H | H].
    + split; [intros _ | intros _; unfold Debt.federal_warning; discriminate].
      destruct H as [-> | [-> | ->]]; auto.
    + split; [intros N; now contradiction N |].
      intros [E | [E | E]]; injection E as ->; exfalso; apply H; auto.
  - destruct (bool_decide_reflect ("custom" = "undergrad" \/ "custom" = "grad"
                                   \/ "custom" = "parent_plus")) as [H | H].
    + exfalso. destruct H as [E | [E | E]]; discriminate E.
    + split; [intros N; now contradiction N |].
      intros [E | [E | E]]; discriminate E.
Qed.

(** ** Credit-card payoff: what is paid, and the schedule *)

Section PayoffAccounting.

Import Debt Spec.

Variables rate pct floor extra : Qc.

(** A payment never exceeds the balance and its interest, so what is
    left is the balance plus the interest, less the payment. *)
Lemma next_balance_exact (b : Qc) :
  next_balance rate pct floor extra b
  = b + b * rate
    - PyNum.min (PyNum.max (b * pct / 100) floor + extra) (b + b * rate).
Proof.
  unfold next_balance.
  set (p := PyNum.min (PyNum.max (b * pct / 100) floor + extra) (b + b * rate)).
  assert (Hp : p <= b + b * rate).
  { unfold p. destruct (min_spec (PyNum.max (b * pct / 100) floor + extra)
                                (b + b * rate)) as [[H ->] | [H ->]];
      [apply Qcle_refl | exact H]. }
  set (i := b * rate) in *.
  destruct (max_spec (b - (p - i)) 0) as [[H ->] | [H ->]].
  - exfalso. qc_lra.
  - ring.
Qed.

Lemma payoff_loop_accounting (fuel : nat) : forall m b ti tp sched,
  (m + Z.of_nat fuel = 600)%Z -> 0 <= b ->
  let s := payoff_loop rate pct floor extra fuel m b ti tp sched in
  exists left,
    0 <= left
    /\ total_paid s - tp = total_interest s - ti + (b - left)
    /\ ((months s < 600)%Z -> left <= 0.01).
Proof.
  induction fuel as [| fuel IH]; intros m b ti tp sched Hm Hb.
  - exists b. cbn. split; [exact Hb |]. split; [ring | lia].
  - destruct (PyNum.ltb 0.01 b && (m <? 600)%Z) eqn:Hc.
    + cbn [payoff_loop]. rewrite Hc.
      pose proof (next_balance_exact b) as Hn. unfold next_balance in Hn.
      pose proof (next_balance_nonneg rate pct floor extra b) as Hnn.
      unfold next_balance in Hnn.
      set (pay := PyNum.min (PyNum.max (b * pct / 100) floor + extra)
                            (b + b * rate)) in *.
      set (b' := PyNum.max (b - (pay - b * rate)) 0) in *.
      match goal with
      | |- context [payoff_loop _ _ _ _ fuel ?m' b' ?ti' ?tp' ?sched'] =>
          destruct (IH m' b' ti' tp' sched' ltac:(lia) Hnn)
            as (left & Hl0 & Hacc & Hend);
          set (s := payoff_loop rate pct floor extra fuel m' b' ti' tp' sched') in *
      end.
      exists left. split; [exact Hl0 |]. split; [| exact Hend].
      set (x := total_paid s) in *. set (y := total_interest s) in *.
      set (i := b * rate) in *. qc_lra.
    + rewrite payoff_loop_stop by exact Hc. cbn [total_paid total_interest months].
      exists b. split; [exact Hb |]. split; [ring |].
      intros Hlt. apply andb_false_iff in Hc. destruct Hc as [Hc | Hc].
      * now apply ltb_false in Hc.
      * apply Z.ltb_ge in Hc. lia.
Qed.

Lemma payoff_loop_schedule (fuel : nat) : forall m b ti tp sched,
  (0 <= m)%Z ->
  map month sched = map Z.of_nat (seq 1 (Z.to_nat (Z.min m 360))) ->
  let s := payoff_loop rate pct floor extra fuel m b ti tp sched in
  map month (schedule s)
  = map Z.of_nat (seq 1 (Z.to_nat (Z.min (months s) 360))).
Proof.
  induction fuel as [| fuel IH]; intros m b ti tp sched Hm Hs.
  - exact Hs.
  - destruct (PyNum.ltb 0.01 b && (m <? 600)%Z) eqn:Hc.
    + cbn [payoff_loop]. rewrite Hc. apply IH; [lia |].
      destruct (Z.leb_spec (m + 1) 360) as [Hle | Hgt].
      * rewrite map_app, Hs. cbn [map month].
        assert (E : Z.to_nat (Z.min (m + 1) 360) = S (Z.to_nat (Z.min m 360)))
          by lia.
        rewrite E, seq_S, map_app. cbn [map]. do 2 f_equal. lia.
      * rewrite Hs. do 2 f_equal. lia.
    + rewrite payoff_loop_stop by exact Hc. exact Hs.
Qed.

End PayoffAccounting.



(** ** Auto loan or lease *)

Section AutoLoan.

Import Debt Spec.

Lemma monthly_payment_raises (P rate : Qc) (term : Z) (e : pyerr) :
  _monthly_payment P rate term = Raise e -> e = ZeroDivisionError.
Proof.
  unfold _monthly_payment, pypow, pydiv.
  repeat match goal with
  | |- context [if ?c then _ else _] => destruct c; cbn [mbind result_bind]
  end; intros H; first [discriminate H | now injection H as <-].
Qed.

Lemma py_abs_nonneg (x : Qc) : 0 <= py_abs x.
Proof.
  unfold py_abs. destruct (PyNum.ltb x 0) eqn:E.
  - apply ltb_true in E. qc_lra.
  - now apply ltb_false in E.
Qed.

End AutoLoan.




